(** * Beacon client wire types: scalar codecs, committee decoding, slice pool

    A shallow embedding of [shared/services/beacon/client/types.go].

    Conventions of the embedding:
    - a Go [string] and a JSON document ([[]byte]) are both [string]
      (a sequence of 8-bit characters); a [byteArray] is a [list byte];
    - [uint64] and [int] are [Z] with the wrap-around written out; [int]
      is the 64-bit [int] of the platforms the node is built for;
    - a Go [error] result is a value of [error]; a function that returns
      [(T, error)] or that assigns through its pointer receiver and
      returns [error] becomes a function into [result T];
    - [[]string] is a slice header (array address, length, capacity) over
      an explicit heap of backing arrays, so that aliasing between a
      committee record and the pool is visible;
    - [sync.Pool] is the state of one processor-local pool (private slot
      and shared stack) between two garbage collections. *)

From Stdlib Require Import ZArith Strings.Ascii Strings.String Strings.Byte.
From stdpp Require Import base option list gmap strings.

Local Open Scope string_scope.
Local Open Scope Z_scope.

(** ** Errors and results *)

(** [strconv.ErrSyntax] and [strconv.ErrRange]. *)
Inductive num_err := ErrSyntax | ErrRange.

(** The error values the code can return.  The JSON library's errors
    carry what [errors.SyntaxError] and [errors.UnmarshalTypeError]
    carry, without the byte offset. *)
Inductive error :=
| NumError (Func Num : string) (Err : num_err)
| InvalidByteError (b : ascii)
| ErrLength
| SyntaxError (msg : string)
| UnmarshalTypeError (Value Typ Struct Field : string)
| Errorf_w (format : string) (err : error).

Inductive result (A : Type) :=
| Ok (a : A)
| Err (e : error).
Arguments Ok {A} a.
Arguments Err {A} e.

#[global] Instance result_ret : MRet result := fun A a => Ok a.
#[global] Instance result_bind : MBind result := fun A B k r =>
  match r with
  | Ok a => k a
  | Err e => Err e
  end.

(** The spec's names for the scalar decode failures. *)
Definition is_NotNumeric (e : error) : bool :=
  match e with NumError _ _ ErrSyntax => true | _ => false end.
Definition is_OutOfRange (e : error) : bool :=
  match e with NumError _ _ ErrRange => true | _ => false end.
Definition is_InvalidHex (e : error) : bool :=
  match e with InvalidByteError _ | ErrLength => true | _ => false end.
Definition is_NotAString (e : error) : bool :=
  match e with UnmarshalTypeError _ "string" _ _ => true | _ => false end.

(** ** Characters *)

Definition code (c : ascii) : Z := Z.of_N (N_of_ascii c).
Definition chr (n : Z) : ascii := ascii_of_N (Z.to_N n).

Definition in_range (lo hi c : ascii) : bool :=
  (code lo <=? code c) && (code c <=? code hi).

(** ** package strconv *)

Module strconv.

Definition maxUint64 : Z := 2 ^ 64 - 1.
Definition wrap64 (n : Z) : Z := n mod 2 ^ 64.

(** [lower(c)]: [c | ('x' - 'X')]. *)
Definition lower (c : ascii) : ascii := chr (Z.lor (code c) 32).

(** The [switch] that reads one digit: [None] is its [default] branch. *)
Definition digit_val (c : ascii) : option Z :=
  if in_range "0" "9" c then Some (code c - code "0")
  else if in_range "a" "z" (lower c) then Some (code (lower c) - code "a" + 10)
  else None.

(** The digit loop of [ParseUint(s, 10, 64)]: [n] is the value read so
    far, [s0] the whole input for the error value. *)
Fixpoint ParseUint_loop (s0 : string) (s : string) (n : Z) : result Z :=
  match s with
  | EmptyString => Ok n
  | String c s' =>
      let cutoff := maxUint64 / 10 + 1 in
      let maxVal := wrap64 (Z.shiftl 1 64 - 1) in
      match digit_val c with
      | None => Err (NumError "ParseUint" s0 ErrSyntax)
      | Some d =>
          if 10 <=? d then Err (NumError "ParseUint" s0 ErrSyntax)
          else if cutoff <=? n then Err (NumError "ParseUint" s0 ErrRange)
          else
            let n := wrap64 (n * 10) in
            let n1 := wrap64 (n + d) in
            if (n1 <? n) || (maxVal <? n1)
            then Err (NumError "ParseUint" s0 ErrRange)
            else ParseUint_loop s0 s' n1
      end
  end.

(** [strconv.ParseUint(s, 10, 64)]. *)
Definition ParseUint (s : string) : result Z :=
  match s with
  | EmptyString => Err (NumError "ParseUint" s ErrSyntax)
  | _ => ParseUint_loop s s 0
  end.

(** The decimal digits of [u], most significant first, in front of
    [acc]: the loop of [formatBits] for base 10.  Twenty digits are
    enough for a 64-bit value. *)
Fixpoint formatBits_loop (fuel : nat) (u : Z) (acc : string) : string :=
  match fuel with
  | O => acc
  | S fuel' =>
      if u <? 10 then String (chr (code "0" + u)) acc
      else
        let q := u / 10 in
        formatBits_loop fuel' q (String (chr (code "0" + (u - q * 10))) acc)
  end.

(** [strconv.FormatUint(u, 10)] for a 64-bit unsigned [u]. *)
Definition FormatUint (u : Z) : string := formatBits_loop 20 u "".

(** [strconv.FormatInt(i, 10)] for a 64-bit signed [i]: a minus sign and
    the digits of the magnitude (taken as [uint64]) when [i < 0]. *)
Definition FormatInt (i : Z) : string :=
  if i <? 0
  then String "-" (formatBits_loop 20 (wrap64 (- i)) "")
  else formatBits_loop 20 (wrap64 i) "".

(** [strconv.Itoa(i)] is [FormatInt(int64(i), 10)]. *)
Definition Itoa (i : Z) : string := FormatInt i.

End strconv.

(** The conversion [int(i)] of a [uint64] on a 64-bit platform: the same
    64 bits read as two's complement. *)
Definition int_of_uint64 (i : Z) : Z :=
  if i <? 2 ^ 63 then i else i - 2 ^ 64.

(** ** Slices of strings

    A [[]string] value is a slice header; the backing arrays live in a
    heap, so two headers can share one array. *)

Module mem.

(** A slice header: the nil slice, or the address of the backing array
    with a length and a capacity. *)
Inductive slice :=
| nil
| Slice (a : nat) (n c : nat).

Definition data (s : slice) : option nat :=
  match s with nil => None | Slice a _ _ => Some a end.
Definition len (s : slice) : nat :=
  match s with nil => 0 | Slice _ n _ => n end.
Definition cap (s : slice) : nat :=
  match s with nil => 0 | Slice _ _ c => c end.

Record heap := Heap { arrays : gmap nat (list string); next : nat }.

(** A fresh array of [n] empty strings. *)
Definition newArray (n : nat) (h : heap) : nat * heap :=
  (next h, Heap (<[next h := replicate n ""]> (arrays h)) (S (next h))).

(** [make([]string, 0, n)]. *)
Definition make0 (n : nat) (h : heap) : slice * heap :=
  let '(a, h') := newArray n h in (Slice a 0 n, h').

Definition array_of (h : heap) (s : slice) : list string :=
  match data s with
  | Some a => default [] (arrays h !! a)
  | None => []
  end.

(** The elements of [s], in order: what indexing and [range] read. *)
Definition elems (h : heap) (s : slice) : list string :=
  take (len s) (array_of h s).

(** [s[:0]]: same array, same capacity. *)
Definition reslice0 (s : slice) : slice :=
  match s with nil => nil | Slice a _ c => Slice a 0 c end.

(** [copy(array, vs)] at the start of the array at address [a]. *)
Definition store (a : nat) (vs : list string) (h : heap) : heap :=
  Heap (alter (fun old => (vs ++ drop (length vs) old)%list) a (arrays h)) (next h).

End mem.

(** ** package json (goccy/go-json)

    The library is not part of the repository; what follows is the part
    of its decoder and encoder that the wire types go through, written
    the way the library works: type-directed, a cursor moving over the
    document, the rest of the document returned with each value.  The
    byte offsets inside its errors and its nesting-depth limit are left
    out. *)

Module json.

Definition dquote : ascii := "034".
Definition backslash : ascii := "092".
Definition nul : ascii := "000".

Definition eqc (c d : ascii) : bool := Ascii.eqb c d.

Definition quoted (s : string) : string :=
  String dquote (s +:+ String dquote "").

Definition ErrUnexpectedEndOfJSON (what : string) : error :=
  SyntaxError ("json: " +:+ what +:+ " unexpected end of JSON input").
Definition ErrExpected (what : string) : error :=
  SyntaxError ("expected " +:+ what).
Definition ErrInvalidBeginningOfValue (c : ascii) : error :=
  SyntaxError ("invalid character " +:+ String c " as beginning of value").
Definition ErrInvalidCharacter (c : ascii) (context : string) : error :=
  SyntaxError ("invalid character " +:+ String c (" as " +:+ context)).

Definition is_space (c : ascii) : bool :=
  eqc c " " || eqc c "009" || eqc c "010" || eqc c "013".

Fixpoint skipWhiteSpace (s : string) : string :=
  match s with
  | String c s' => if is_space c then skipWhiteSpace s' else s
  | EmptyString => s
  end.

(** After a top-level value only white space may follow. *)
Definition validateEndBuf (rest : string) : result unit :=
  match skipWhiteSpace rest with
  | EmptyString => Ok tt
  | String c _ =>
      if eqc c nul then Ok tt
      else Err (ErrInvalidCharacter c "after top-level value")
  end.

(** [expect lit s]: [s] without its prefix [lit]. *)
Fixpoint expect (lit s : string) : option string :=
  match lit, s with
  | EmptyString, _ => Some s
  | String a lit', String b s' => if eqc a b then expect lit' s' else None
  | String _ _, EmptyString => None
  end.

(** [validateNull], [validateTrue], [validateFalse], the cursor moved
    past the literal. *)
Definition validateLiteral (lit s : string) : result string :=
  match expect lit s with
  | Some rest => Ok rest
  | None => Err (ErrUnexpectedEndOfJSON lit)
  end.

(** *** String literals *)

Definition hex_val (c : ascii) : option Z :=
  if in_range "0" "9" c then Some (code c - code "0")
  else if in_range "a" "f" c then Some (code c - code "a" + 10)
  else if in_range "A" "F" c then Some (code c - code "A" + 10)
  else None.

Definition hex4 (a b c d : ascii) : option Z :=
  a' ← hex_val a; b' ← hex_val b; c' ← hex_val c; d' ← hex_val d;
  Some (((a' * 16 + b') * 16 + c') * 16 + d').

(** The UTF-8 encoding of a code point. *)
Definition utf8 (cp : Z) : string :=
  if cp <? 128 then String (chr cp) ""
  else if cp <? 2048 then
    String (chr (192 + cp / 64)) (String (chr (128 + cp mod 64)) "")
  else if cp <? 65536 then
    String (chr (224 + cp / 4096))
      (String (chr (128 + (cp / 64) mod 64))
         (String (chr (128 + cp mod 64)) ""))
  else
    String (chr (240 + cp / 262144))
      (String (chr (128 + (cp / 4096) mod 64))
         (String (chr (128 + (cp / 64) mod 64))
            (String (chr (128 + cp mod 64)) ""))).

Definition replacement : string := utf8 65533.
Definition is_high_surrogate (cp : Z) : bool := (55296 <=? cp) && (cp <? 56320).
Definition is_low_surrogate (cp : Z) : bool := (56320 <=? cp) && (cp <? 57344).

(** The text of a pending high surrogate that found no partner. *)
Definition flush (pending : option Z) : string :=
  match pending with
  | Some _ => replacement
  | None => ""
  end.

(** The characters of a string literal, the cursor just after the
    opening quote: the unescaped text and the cursor after the closing
    quote.  [pending] is a high surrogate read by the previous escape. *)
Fixpoint stringBytes (pending : option Z) (s : string) : result (string * string) :=
  match s with
  | EmptyString => Err (ErrUnexpectedEndOfJSON "string")
  | String c s' =>
      if eqc c dquote then Ok (flush pending, s')
      else if eqc c nul then Err (ErrUnexpectedEndOfJSON "string")
      else if eqc c backslash then
        match s' with
        | EmptyString => Err (ErrUnexpectedEndOfJSON "string")
        | String e s'' =>
            let plain (x : ascii) :=
              '(lit, rest) ← stringBytes None s'';
              Ok (flush pending +:+ String x lit, rest) in
            if eqc e "u" then
              match s'' with
              | String h1 (String h2 (String h3 (String h4 s3))) =>
                  match hex4 h1 h2 h3 h4 with
                  | None => Err (ErrUnexpectedEndOfJSON "escaped string")
                  | Some cp =>
                      match pending with
                      | Some hi =>
                          if is_low_surrogate cp then
                            '(lit, rest) ← stringBytes None s3;
                            Ok (utf8 (65536 + (hi - 55296) * 1024 + (cp - 56320)) +:+ lit,
                                rest)
                          else if is_high_surrogate cp then
                            '(lit, rest) ← stringBytes (Some cp) s3;
                            Ok (replacement +:+ lit, rest)
                          else
                            '(lit, rest) ← stringBytes None s3;
                            Ok (replacement +:+ utf8 cp +:+ lit, rest)
                      | None =>
                          if is_high_surrogate cp then stringBytes (Some cp) s3
                          else if is_low_surrogate cp then
                            '(lit, rest) ← stringBytes None s3;
                            Ok (replacement +:+ lit, rest)
                          else
                            '(lit, rest) ← stringBytes None s3;
                            Ok (utf8 cp +:+ lit, rest)
                      end
                  end
              | _ => Err (ErrUnexpectedEndOfJSON "escaped string")
              end
            else if eqc e dquote then plain dquote
            else if eqc e backslash then plain backslash
            else if eqc e "/" then plain "/"%char
            else if eqc e "b" then plain "008"%char
            else if eqc e "f" then plain "012"%char
            else if eqc e "n" then plain "010"%char
            else if eqc e "r" then plain "013"%char
            else if eqc e "t" then plain "009"%char
            else Err (ErrUnexpectedEndOfJSON "escaped string")
        end
      else
        '(lit, rest) ← stringBytes None s';
        Ok (flush pending +:+ String c lit, rest)
  end.

(** [stringDecoder]: the string at the cursor, [None] for [null] (the
    target keeps its value).  [structName] and [fieldName] are the
    names the decoder was compiled with, empty at top level. *)
Definition decodeString (structName fieldName : string) (s : string)
  : result (option string * string) :=
  let errUnmarshalType (v : string) :=
    Err (UnmarshalTypeError v "string" structName fieldName) in
  match skipWhiteSpace s with
  | EmptyString => Err (ErrInvalidBeginningOfValue nul)
  | String c s' =>
      if eqc c "[" then errUnmarshalType "array"
      else if eqc c "{" then errUnmarshalType "object"
      else if eqc c "-" || in_range "0" "9" c then errUnmarshalType "number"
      else if eqc c dquote then
        '(lit, rest) ← stringBytes None s';
        Ok (Some lit, rest)
      else if eqc c "n" then
        rest ← validateLiteral "null" (String c s');
        Ok (None, rest)
      else Err (ErrInvalidBeginningOfValue c)
  end.

(** *** Skipping a value *)

(** The rest of a string literal, copied unread: the text up to and
    with the closing quote, and the cursor after it. *)
Fixpoint skipString (s : string) : result (string * string) :=
  match s with
  | EmptyString => Err (ErrUnexpectedEndOfJSON "string of object")
  | String c s' =>
      if eqc c dquote then Ok (String c "", s')
      else if eqc c nul then Err (ErrUnexpectedEndOfJSON "string of object")
      else if eqc c backslash then
        match s' with
        | EmptyString => Err (ErrUnexpectedEndOfJSON "string of object")
        | String e s'' =>
            if eqc e nul then Err (ErrUnexpectedEndOfJSON "string of object")
            else
              '(raw, rest) ← skipString s'';
              Ok (String c (String e raw), rest)
        end
      else
        '(raw, rest) ← skipString s';
        Ok (String c raw, rest)
  end.

(** [skipObject] and [skipArray]: the cursor is after the opening
    bracket; only brackets of the same kind are counted, string
    literals are stepped over.  [count] is the number of brackets of
    that kind still open besides the first, [instr] tells that the
    cursor is inside a string literal. *)
Fixpoint skipNested (opening closing : ascii) (count : nat) (instr : bool)
    (s : string) : result (string * string) :=
  let keep (c : ascii) (r : result (string * string)) :=
    '(raw, rest) ← r; Ok (String c raw, rest) in
  match s with
  | EmptyString => Err (ErrUnexpectedEndOfJSON "object of object")
  | String c s' =>
      if eqc c nul then Err (ErrUnexpectedEndOfJSON "object of object")
      else if instr then
        if eqc c dquote then keep c (skipNested opening closing count false s')
        else if eqc c backslash then
          match s' with
          | EmptyString => Err (ErrUnexpectedEndOfJSON "string of object")
          | String e s'' =>
              if eqc e nul then Err (ErrUnexpectedEndOfJSON "string of object")
              else keep c (keep e (skipNested opening closing count true s''))
          end
        else keep c (skipNested opening closing count true s')
      else if eqc c opening then
        keep c (skipNested opening closing (S count) false s')
      else if eqc c closing then
        match count with
        | O => Ok (String c "", s')
        | S count' => keep c (skipNested opening closing count' false s')
        end
      else if eqc c dquote then
        keep c (skipNested opening closing count true s')
      else keep c (skipNested opening closing count false s')
  end.

(** [floatTable]: the characters a number is made of. *)
Definition is_float_char (c : ascii) : bool :=
  in_range "0" "9" c || eqc c "." || eqc c "e" || eqc c "E" || eqc c "+" || eqc c "-".

Fixpoint skipNumber (s : string) : string * string :=
  match s with
  | String c s' =>
      if is_float_char c
      then let '(raw, rest) := skipNumber s' in (String c raw, rest)
      else ("", s)
  | EmptyString => ("", s)
  end.

(** [skipValue]: the text of the value at the cursor, without the
    white space before it, and the cursor after the value. *)
Definition skipValue (s : string) : result (string * string) :=
  let keep (c : ascii) (r : result (string * string)) :=
    '(raw, rest) ← r; Ok (String c raw, rest) in
  match skipWhiteSpace s with
  | EmptyString => Err (ErrUnexpectedEndOfJSON "null")
  | String c s' =>
      if eqc c "{" then keep c (skipNested "{" "}" 0 false s')
      else if eqc c "[" then keep c (skipNested "[" "]" 0 false s')
      else if eqc c dquote then keep c (skipString s')
      else if eqc c "-" || in_range "0" "9" c then
        let '(raw, rest) := skipNumber s' in Ok (String c raw, rest)
      else if eqc c "t" then
        rest ← validateLiteral "true" (String c s'); Ok ("true", rest)
      else if eqc c "f" then
        rest ← validateLiteral "false" (String c s'); Ok ("false", rest)
      else if eqc c "n" then
        rest ← validateLiteral "null" (String c s'); Ok ("null", rest)
      else Err (ErrUnexpectedEndOfJSON "null")
  end.

(** [unmarshalJSONDecoder]: a field whose type has an [UnmarshalJSON]
    method is handed the text of its value; a type error of the method
    is annotated with the names the decoder was compiled with. *)
Definition annotateError (structName fieldName : string) (e : error) : error :=
  match e with
  | UnmarshalTypeError v t _ _ => UnmarshalTypeError v t structName fieldName
  | _ => e
  end.

Definition decodeUnmarshaler {A} (structName fieldName : string)
    (UnmarshalJSON : string -> result A) (s : string) : result (A * string) :=
  '(raw, rest) ← skipValue s;
  match UnmarshalJSON raw with
  | Ok a => Ok (a, rest)
  | Err e => Err (annotateError structName fieldName e)
  end.

(** *** Top-level entry points *)

(** [json.Unmarshal(data, &v)] for [v] of type [string]. *)
Definition Unmarshal_string (data : string) (v : string) : result string :=
  '(o, rest) ← decodeString "" "" data;
  _ ← validateEndBuf rest;
  Ok (default v o).

(** [json.Unmarshal(data, &v)] for [v] of a type with an
    [UnmarshalJSON] method. *)
Definition Unmarshal_with {A} (UnmarshalJSON : string -> result A)
    (data : string) : result A :=
  '(a, rest) ← decodeUnmarshaler "" "" UnmarshalJSON data;
  _ ← validateEndBuf rest;
  Ok a.

(** *** Encoding a string *)

Definition hex_digit (n : Z) : ascii :=
  if n <? 10 then chr (code "0" + n) else chr (code "a" + (n - 10)).

Definition escape_u (c : ascii) : string :=
  String backslash
    (String "u" (String "0" (String "0"
       (String (hex_digit (code c / 16)) (String (hex_digit (code c mod 16)) ""))))).

(** The encoder's escaping of one character ([json.Marshal] escapes
    the HTML characters too).  Bytes above 127 are copied: the strings
    the wire types marshal are made of digits and hex digits. *)
Definition escape_char (c : ascii) : string :=
  if eqc c dquote then String backslash (String dquote "")
  else if eqc c backslash then String backslash (String backslash "")
  else if eqc c "010" then String backslash "n"
  else if eqc c "013" then String backslash "r"
  else if eqc c "009" then String backslash "t"
  else if code c <? 32 then escape_u c
  else if eqc c "<" || eqc c ">" || eqc c "&" then escape_u c
  else String c "".

Fixpoint escape (s : string) : string :=
  match s with
  | EmptyString => ""
  | String c s' => escape_char c +:+ escape s'
  end.

(** [json.Marshal(v)] for [v] of type [string]. *)
Definition Marshal_string (v : string) : result string :=
  Ok (String dquote (escape v +:+ String dquote "")).

(** *** Slices of strings *)

(** What a JSON document holds for a [[]string]: [null], the empty
    array, or elements ([None] for a [null] element). *)
Inductive slice_doc :=
| SliceNull
| SliceEmpty
| SliceElems (es : list (option string)).

(** The element loop of [sliceDecoder], the cursor at an element. *)
Fixpoint decodeSlice_elems (fuel : nat) (s : string) : result (list (option string) * string) :=
  match fuel with
  | O => Err (ErrUnexpectedEndOfJSON "slice")
  | S fuel' =>
      '(e, c1) ← decodeString "" "" s;
      match skipWhiteSpace c1 with
      | String c c2 =>
          if eqc c "]" then Ok ([e], c2)
          else if eqc c "," then
            '(es, rest) ← decodeSlice_elems fuel' c2;
            Ok (e :: es, rest)
          else Err (ErrInvalidCharacter c "slice")
      | EmptyString => Err (ErrUnexpectedEndOfJSON "slice")
      end
  end.

(** [sliceDecoder] for [[]string], up to the store into the target. *)
Definition decodeSlice (s : string) : result (slice_doc * string) :=
  match skipWhiteSpace s with
  | EmptyString => Err (ErrUnexpectedEndOfJSON "slice")
  | String c s' =>
      if eqc c "n" then
        rest ← validateLiteral "null" (String c s'); Ok (SliceNull, rest)
      else if eqc c "[" then
        match skipWhiteSpace s' with
        | EmptyString => Err (ErrUnexpectedEndOfJSON "slice")
        | String c' rest =>
            if eqc c' "]" then Ok (SliceEmpty, rest)
            else
              '(es, rest) ← decodeSlice_elems (String.length (String c' rest))
                              (String c' rest);
              Ok (SliceElems es, rest)
        end
      else if eqc c "-" || in_range "0" "9" c then
        Err (UnmarshalTypeError "number" "[]string" "" "")
      else Err (ErrUnexpectedEndOfJSON "slice")
  end.

(** The [i]-th decoded element: a [null] element keeps what the target
    had at that index, the empty string beyond its length. *)
Definition resolve (old : list string) (i : nat) (e : option string) : string :=
  match e with
  | Some v => v
  | None => default "" (old !! i)
  end.

(** The store of [sliceDecoder] into the target [dst]: [null] makes
    the target the nil slice; the empty array keeps the array of the
    target and sets its length to zero; elements are written into the
    array of the target when they fit its capacity, into a new array of
    exactly their number otherwise. *)
Definition storeSlice (doc : slice_doc) (dst : mem.slice) (h : mem.heap)
  : mem.slice * mem.heap :=
  match doc with
  | SliceNull => (mem.nil, h)
  | SliceEmpty =>
      match mem.data dst with
      | None =>
          let '(a, h') := mem.newArray 0 h in
          (mem.Slice a (mem.len dst) (mem.cap dst), h')
      | Some a => (mem.Slice a 0 (mem.cap dst), h)
      end
  | SliceElems es =>
      let vs := imap (resolve (mem.elems h dst)) es in
      let n := length vs in
      match mem.data dst with
      | Some a =>
          if decide (n ≤ mem.cap dst)%nat
          then (mem.Slice a n (mem.cap dst), mem.store a vs h)
          else
            let '(a', h') := mem.newArray n h in
            (mem.Slice a' n n, mem.store a' vs h')
      | None =>
          let '(a', h') := mem.newArray n h in
          (mem.Slice a' n n, mem.store a' vs h')
      end
  end.

(** [json.Unmarshal(data, &v)] for [v] of type [[]string]. *)
Definition Unmarshal_strings (data : string) (v : mem.slice) (h : mem.heap)
  : result (mem.slice * mem.heap) :=
  '(doc, rest) ← decodeSlice data;
  _ ← validateEndBuf rest;
  Ok (storeSlice doc v h).

(** *** Maps of raw messages *)

(** [ptrDecoder] over [RawMessage]: [null] is the nil pointer, any
    other value a pointer to its text. *)
Definition decodeRawPtr (s : string) : result (option string * string) :=
  match skipWhiteSpace s with
  | EmptyString => Err (ErrUnexpectedEndOfJSON "null")
  | String c s' =>
      if eqc c "n" then
        rest ← validateLiteral "null" (String c s'); Ok (None, rest)
      else
        '(raw, rest) ← decodeUnmarshaler "" "" (fun raw => Ok raw) (String c s');
        Ok (Some raw, rest)
  end.

(** The member loop of [mapDecoder], the cursor at a key. *)
Fixpoint decodeRawMap_members (fuel : nat) (s : string)
    (m : gmap string (option string)) : result (gmap string (option string) * string) :=
  match fuel with
  | O => Err (ErrUnexpectedEndOfJSON "map")
  | S fuel' =>
      '(k, c1) ← decodeString "" "" s;
      match skipWhiteSpace c1 with
      | EmptyString => Err (ErrExpected "colon after object key")
      | String c c2 =>
          if negb (eqc c ":") then Err (ErrExpected "colon after object key") else
          '(v, c3) ← decodeRawPtr c2;
          let m' := <[default "" k := v]> m in
          match skipWhiteSpace c3 with
          | EmptyString => Err (ErrExpected "comma after object value")
          | String c' c4 =>
              if eqc c' "}" then Ok (m', c4)
              else if eqc c' "," then decodeRawMap_members fuel' c4 m'
              else Err (ErrExpected "comma after object value")
          end
      end
  end.

(** [mapDecoder] for [map[string]*json.RawMessage]; the nil map is the
    empty map. *)
Definition decodeRawMap (s : string) (v : gmap string (option string))
  : result (gmap string (option string) * string) :=
  match skipWhiteSpace s with
  | EmptyString => Err (ErrExpected "{ character for map value")
  | String c s' =>
      if eqc c "n" then
        rest ← validateLiteral "null" (String c s'); Ok (∅, rest)
      else if eqc c "{" then
        match skipWhiteSpace s' with
        | EmptyString => Err (ErrUnexpectedEndOfJSON "map")
        | String c' rest =>
            if eqc c' "}" then Ok (v, rest)
            else decodeRawMap_members (String.length (String c' rest))
                   (String c' rest) v
        end
      else Err (ErrExpected "{ character for map value")
  end.

(** [json.Unmarshal(data, &v)] for [v] of type
    [map[string]*json.RawMessage]. *)
Definition Unmarshal_rawmap (data : string) (v : gmap string (option string))
  : result (gmap string (option string)) :=
  '(m, rest) ← decodeRawMap data v;
  _ ← validateEndBuf rest;
  Ok m.

(** *** Structs *)

Definition to_lower (c : ascii) : ascii :=
  if in_range "A" "Z" c then chr (code c + 32) else c.

Fixpoint ToLower (s : string) : string :=
  match s with
  | String c s' => String (to_lower c) (ToLower s')
  | EmptyString => EmptyString
  end.

(** A field decoder reads the value at the cursor into the record. *)
Definition field_decoder (A : Type) : Type := string -> A -> result (A * string).

(** The member loop of [structDecoder], the cursor at a key: a key is
    matched with the field names without regard to case, the value of
    an unknown key is skipped, a key that comes twice is decoded twice. *)
Fixpoint decodeStruct_fields {A} (fuel : nat)
    (fields : string -> option (field_decoder A)) (s : string) (acc : A)
  : result (A * string) :=
  match fuel with
  | O => Err (ErrUnexpectedEndOfJSON "object")
  | S fuel' =>
      match skipWhiteSpace s with
      | EmptyString => Err (ErrInvalidBeginningOfValue nul)
      | String c c0 =>
          if negb (eqc c dquote) then Err (ErrInvalidBeginningOfValue c) else
          '(key, c1) ← stringBytes None c0;
          match skipWhiteSpace c1 with
          | EmptyString => Err (ErrExpected "colon after object key")
          | String c' c2 =>
              if negb (eqc c' ":") then Err (ErrExpected "colon after object key") else
              match c2 with
              | EmptyString => Err (ErrExpected "object value after colon")
              | _ =>
                  '(acc', c3) ← match fields (ToLower key) with
                                | Some dec => dec c2 acc
                                | None => '(_, c3) ← skipValue c2; Ok (acc, c3)
                                end;
                  match skipWhiteSpace c3 with
                  | EmptyString => Err (ErrExpected "comma after object element")
                  | String c'' c4 =>
                      if eqc c'' "}" then Ok (acc', c4)
                      else if eqc c'' "," then decodeStruct_fields fuel' fields c4 acc'
                      else Err (ErrExpected "comma after object element")
                  end
              end
          end
      end
  end.

(** [structDecoder]: [null] leaves the record as it is. *)
Definition decodeStruct {A} (fields : string -> option (field_decoder A))
  : field_decoder A := fun s acc =>
  match skipWhiteSpace s with
  | EmptyString => Err (ErrInvalidBeginningOfValue nul)
  | String c s' =>
      if eqc c "n" then
        rest ← validateLiteral "null" (String c s'); Ok (acc, rest)
      else if eqc c "{" then
        match skipWhiteSpace s' with
        | EmptyString => Err (ErrUnexpectedEndOfJSON "object")
        | String c' rest =>
            if eqc c' "}" then Ok (acc, rest)
            else decodeStruct_fields (String.length (String c' rest)) fields
                   (String c' rest) acc
        end
      else Err (ErrInvalidBeginningOfValue c)
  end.

(** [json.Unmarshal(data, &v)] for [v] of a struct type. *)
Definition Unmarshal_struct {A} (fields : string -> option (field_decoder A))
    (data : string) (v : A) : result A :=
  '(a, rest) ← decodeStruct fields data v;
  _ ← validateEndBuf rest;
  Ok a.

End json.

(** ** package hex (encoding/hex) *)

Module hex.

Definition hextable : string := "0123456789abcdef".

Definition byte_val (b : byte) : Z := code (ascii_of_byte b).
Definition mkbyte (n : Z) : byte := byte_of_ascii (chr n).

Definition hexchar (n : Z) : ascii :=
  match String.get (Z.to_nat n) hextable with
  | Some c => c
  | None => "000"
  end.

(** [hex.EncodeToString(src)]. *)
Fixpoint EncodeToString (src : list byte) : string :=
  match src with
  | [] => ""
  | v :: src' =>
      String (hexchar (Z.shiftr (byte_val v) 4))
        (String (hexchar (Z.land (byte_val v) 15)) (EncodeToString src'))
  end.

(** [reverseHexTable[c]]: the value of a hex digit, 255 for any other
    character. *)
Definition reverseHexTable (c : ascii) : Z :=
  if in_range "0" "9" c then code c - code "0"
  else if in_range "a" "f" c then code c - code "a" + 10
  else if in_range "A" "F" c then code c - code "A" + 10
  else 255.

(** [hex.Decode]: the bytes decoded before the first error, and the
    error. *)
Fixpoint Decode (src : string) : list byte * option error :=
  match src with
  | String p (String q rest) =>
      let a := reverseHexTable p in
      let b := reverseHexTable q in
      if 15 <? a then ([], Some (InvalidByteError p))
      else if 15 <? b then ([], Some (InvalidByteError q))
      else
        let '(bs, err) := Decode rest in
        (mkbyte (Z.lor (Z.shiftl a 4) b) :: bs, err)
  | String p EmptyString =>
      if 15 <? reverseHexTable p then ([], Some (InvalidByteError p))
      else ([], Some ErrLength)
  | EmptyString => ([], None)
  end.

(** [hex.DecodeString(s)]. *)
Definition DecodeString (s : string) : list byte * option error := Decode s.

End hex.

(** ** package hexutil (shared/utils/hex) *)

Module hexutil.

(** Modelled from the spec: the fixed prefix of [shared/utils/hex],
    whose source is not at hand; the spec gives the marker 0x. *)
Definition prefix : string := "0x".

(** Modelled from the spec: [AddPrefix] of [shared/utils/hex], whose
    source is not at hand; encode always emits the prefixed form, so
    the prefix is put in front of the hex text. *)
Definition AddPrefix (value : string) : string := prefix +:+ value.

(** Modelled from the spec: [RemovePrefix] of [shared/utils/hex], whose
    source is not at hand; the prefix is removed if present and its
    absence is tolerated. *)
Definition RemovePrefix (value : string) : string :=
  match json.expect prefix value with
  | Some rest => rest
  | None => value
  end.

End hexutil.

(** ** package sync *)

Module sync.

(** One processor-local [sync.Pool]: [Put] fills the private slot
    first and pushes on the shared stack otherwise; [Get] empties the
    private slot first, pops the shared stack otherwise and calls [New]
    when both are empty. *)
Record Pool := { private : option mem.slice; shared : list mem.slice }.

Definition empty : Pool := {| private := None; shared := [] |}.

Definition Put (x : mem.slice) (p : Pool) : Pool :=
  match private p with
  | None => {| private := Some x; shared := shared p |}
  | Some _ => {| private := private p; shared := x :: shared p |}
  end.

Definition Get (New : mem.heap -> mem.slice * mem.heap) (p : Pool) (h : mem.heap)
  : mem.slice * Pool * mem.heap :=
  match private p with
  | Some x => (x, {| private := None; shared := shared p |}, h)
  | None =>
      match shared p with
      | x :: rest => (x, {| private := None; shared := rest |}, h)
      | [] => let '(x, h') := New h in (x, p, h')
      end
  end.

(** The items the pool holds. *)
Definition items (p : Pool) : list mem.slice :=
  match private p with
  | Some x => x :: shared p
  | None => shared p
  end.

End sync.

(** ** types.go *)

(** *** Unsigned integer type *)

Definition uinteger : Type := Z.

Definition uinteger_MarshalJSON (i : uinteger) : result string :=
  json.Marshal_string (strconv.Itoa (int_of_uint64 i)).

Definition uinteger_UnmarshalJSON (data : string) : result uinteger :=
  (* Unmarshal string *)
  dataStr ← json.Unmarshal_string data "";
  (* Parse integer value *)
  value ← strconv.ParseUint dataStr;
  (* Set value and return *)
  Ok value.

(** *** Byte array type *)

Definition byteArray : Type := list byte.

Definition byteArray_MarshalJSON (b : byteArray) : result string :=
  json.Marshal_string (hexutil.AddPrefix (hex.EncodeToString b)).

(** [RemovePrefix] stands for [hexutil.RemovePrefix]. *)
Definition byteArray_UnmarshalJSON_with (RemovePrefix : string -> string)
    (data : string) : result byteArray :=
  (* Unmarshal string *)
  dataStr ← json.Unmarshal_string data "";
  (* Decode hex *)
  match hex.DecodeString (RemovePrefix dataStr) with
  | (_, Some err) => Err err
  | (value, None) => Ok value
  end.

Definition byteArray_UnmarshalJSON (data : string) : result byteArray :=
  byteArray_UnmarshalJSON_with hexutil.RemovePrefix data.

(** *** Request types *)

Record VoluntaryExitMessage := {
  Epoch : uinteger;
  ValidatorIndex : string;
}.

Record VoluntaryExitRequest := {
  Message : VoluntaryExitMessage;
  Signature : byteArray;
}.

(** The field table the decoder builds from the struct tags of
    [VoluntaryExitMessage]. *)
Definition VoluntaryExitMessage_fields (key : string)
  : option (json.field_decoder VoluntaryExitMessage) :=
  if String.eqb key "epoch" then
    Some (fun s m =>
      '(v, rest) ← json.decodeUnmarshaler "VoluntaryExitMessage" "Epoch"
                     uinteger_UnmarshalJSON s;
      Ok ({| Epoch := v; ValidatorIndex := ValidatorIndex m |}, rest))
  else if String.eqb key "validator_index" then
    Some (fun s m =>
      '(o, rest) ← json.decodeString "VoluntaryExitMessage" "ValidatorIndex" s;
      Ok ({| Epoch := Epoch m; ValidatorIndex := default (ValidatorIndex m) o |}, rest))
  else None.

(** The field table of [VoluntaryExitRequest]. *)
Definition VoluntaryExitRequest_fields (key : string)
  : option (json.field_decoder VoluntaryExitRequest) :=
  if String.eqb key "message" then
    Some (fun s r =>
      '(m, rest) ← json.decodeStruct VoluntaryExitMessage_fields s (Message r);
      Ok ({| Message := m; Signature := Signature r |}, rest))
  else if String.eqb key "signature" then
    Some (fun s r =>
      '(v, rest) ← json.decodeUnmarshaler "VoluntaryExitRequest" "Signature"
                     byteArray_UnmarshalJSON s;
      Ok ({| Message := Message r; Signature := v |}, rest))
  else None.

(** The zero value a decode starts from. *)
Definition VoluntaryExitRequest_zero : VoluntaryExitRequest :=
  {| Message := {| Epoch := 0; ValidatorIndex := "" |}; Signature := [] |}.

(** [json.Unmarshal(data, &req)] for a fresh [req VoluntaryExitRequest]. *)
Definition VoluntaryExitRequest_decode (data : string) : result VoluntaryExitRequest :=
  json.Unmarshal_struct VoluntaryExitRequest_fields data VoluntaryExitRequest_zero.

(** *** Committees *)

Record Committee := {
  Index : uinteger;
  Slot : uinteger;
  Validators : mem.slice;
}.

Record CommitteesResponse := { Data : list Committee }.

(** The mutable state the committee code works on: the heap of backing
    arrays and the package-level pool. *)
Record state := { heap : mem.heap; validatorSlicePool : sync.Pool }.

(** The [New] of [validatorSlicePool]: [make([]string, 0, 1024)]. *)
Definition validatorSlicePool_New (h : mem.heap) : mem.slice * mem.heap :=
  mem.make0 1024 h.

(** A call either returns or panics. *)
Inductive outcome (A : Type) :=
| Returned (a : A)
| Panicked (reason : string).
Arguments Returned {A} a.
Arguments Panicked {A} reason.

Definition nil_dereference : string :=
  "runtime error: invalid memory address or nil pointer dereference".
Definition index_out_of_range : string :=
  "runtime error: index out of range".

(** [*committee[key]]: the message a map entry points to; a key that is
    missing gives the nil pointer, like an entry that holds it. *)
Definition deref (p : option (option string)) : option string :=
  match p with
  | Some (Some raw) => Some raw
  | Some None | None => None
  end.

(** [func (c *Committee) UnmarshalJSON(body []byte) error]: the error
    returned ([None] is [nil]), the receiver and the state after the
    call. *)
Definition Committee_UnmarshalJSON (body : string) (c : Committee) (st : state)
  : outcome (option error) * Committee * state :=
  let '(pooledSlice, pool, h) :=
    sync.Get validatorSlicePool_New (validatorSlicePool st) (heap st) in
  let st := {| heap := h; validatorSlicePool := pool |} in
  let c := {| Index := Index c; Slot := Slot c; Validators := pooledSlice |} in
  (* Partially parse the json *)
  match json.Unmarshal_rawmap body ∅ with
  | Err err =>
      (Returned (Some (Errorf_w "error unmarshalling committee json: %w\n" err)), c, st)
  | Ok committee =>
      (* Parse each field *)
      match deref (committee !! "index") with
      | None => (Panicked nil_dereference, c, st)
      | Some raw_index =>
          match json.Unmarshal_with uinteger_UnmarshalJSON raw_index with
          | Err err => (Returned (Some err), c, st)
          | Ok index =>
              let c := {| Index := index; Slot := Slot c; Validators := Validators c |} in
              match deref (committee !! "slot") with
              | None => (Panicked nil_dereference, c, st)
              | Some raw_slot =>
                  match json.Unmarshal_with uinteger_UnmarshalJSON raw_slot with
                  | Err err => (Returned (Some err), c, st)
                  | Ok slot =>
                      let c := {| Index := Index c; Slot := slot; Validators := Validators c |} in
                      match deref (committee !! "validators") with
                      | None => (Panicked nil_dereference, c, st)
                      | Some raw_validators =>
                          match json.Unmarshal_strings raw_validators (Validators c) (heap st) with
                          | Err err => (Returned (Some err), c, st)
                          | Ok (validators, h') =>
                              (Returned None,
                               {| Index := Index c; Slot := Slot c; Validators := validators |},
                               {| heap := h'; validatorSlicePool := validatorSlicePool st |})
                          end
                      end
                  end
              end
          end
      end
  end.

(** [c.Data[idx]], with the bounds check of the runtime. *)
Definition Data_at (c : CommitteesResponse) (idx : Z) : outcome Committee :=
  if idx <? 0 then Panicked index_out_of_range
  else match Data c !! Z.to_nat idx with
       | Some committee => Returned committee
       | None => Panicked index_out_of_range
       end.

Definition CommitteesResponse_Count (c : CommitteesResponse) : Z :=
  Z.of_nat (length (Data c)).

Definition CommitteesResponse_Index (c : CommitteesResponse) (idx : Z) : outcome Z :=
  match Data_at c idx with
  | Returned committee => Returned (Index committee)
  | Panicked r => Panicked r
  end.

Definition CommitteesResponse_Slot (c : CommitteesResponse) (idx : Z) : outcome Z :=
  match Data_at c idx with
  | Returned committee => Returned (Slot committee)
  | Panicked r => Panicked r
  end.

Definition CommitteesResponse_Validators (c : CommitteesResponse) (idx : Z)
  : outcome mem.slice :=
  match Data_at c idx with
  | Returned committee => Returned (Validators committee)
  | Panicked r => Panicked r
  end.

(** The body of the loop of [Release]: [committee] is the loop variable,
    a copy of the element; the body returns it as the assignment leaves
    it, with the state. *)
Definition Release_body (committee : Committee) (st : state) : Committee * state :=
  (* Reset the slice length to 0 (capacity stays the same) *)
  let committee :=
    {| Index := Index committee; Slot := Slot committee;
       Validators := mem.reslice0 (Validators committee) |} in
  (* Return the slice for reuse *)
  (committee,
   {| heap := heap st;
      validatorSlicePool := sync.Put (Validators committee) (validatorSlicePool st) |}).

(** [for _, x := range xs { body }] over a slice of structs: each
    iteration works on a copy of the element, which is dropped at the end
    of the iteration; [xs] itself is not written. *)
Fixpoint range_by_value {A S} (body : A -> S -> A * S) (xs : list A) (st : S) : S :=
  match xs with
  | [] => st
  | x :: xs' => let '(_, st') := body x st in range_by_value body xs' st'
  end.

(** [func (c *CommitteesResponse) Release()]: the receiver and the state
    after the call. *)
Definition CommitteesResponse_Release (c : CommitteesResponse) (st : state)
  : CommitteesResponse * state :=
  (c, range_by_value Release_body (Data c) st).

(** A quoted document is easier to read with single quotes: [js] turns
    each of them into a double quote. *)
Fixpoint js (s : string) : string :=
  match s with
  | String c s' => String (if Ascii.eqb c "'" then json.dquote else c) (js s')
  | EmptyString => EmptyString
  end.

Definition state0 : state :=
  {| heap := mem.Heap ∅ 0; validatorSlicePool := sync.empty |}.
Definition Committee_zero : Committee :=
  {| Index := 0; Slot := 0; Validators := mem.nil |}.

Definition sample_committee : string :=
  js "{'index':'3','slot':'100','validators':['12','45','99']}".

(** * Vocabulary of the properties *)

Fixpoint all_chars (P : ascii -> bool) (s : string) : bool :=
  match s with
  | EmptyString => true
  | String c s' => P c && all_chars P s'
  end.

Definition is_digit (c : ascii) : bool := in_range "0" "9" c.
Definition is_lower_hex (c : ascii) : bool := in_range "0" "9" c || in_range "a" "f" c.

(** A character the encoder copies and the decoder reads as itself. *)
Definition is_plain (c : ascii) : bool :=
  negb (json.eqc c json.dquote) && negb (json.eqc c json.backslash)
  && (32 <=? code c) && (code c <? 128)
  && negb (json.eqc c "<" || json.eqc c ">" || json.eqc c "&").

(** What a raw message of the committee map looks like: it is not empty,
    and starts neither with white space nor with the n of [null]. *)
Definition raw_value (raw : string) : Prop :=
  exists c raw', raw = String c raw'
                 /\ json.is_space c = false /\ json.eqc c "n" = false.

Definition raw_values (m : gmap string (option string)) : Prop :=
  forall k raw, m !! k = Some (Some raw) -> raw_value raw.

Definition released (committee : Committee) : mem.slice :=
  mem.reslice0 (Validators committee).

(** The state and the record after decoding the sample document on a
    fresh state. *)
Definition sample_decoded : outcome (option error) * Committee * state :=
  Committee_UnmarshalJSON sample_committee Committee_zero state0.

(** The elements of a JSON array of plain strings, closing bracket
    included, and the array. *)
Fixpoint render_elems (vs : list string) : string :=
  match vs with
  | [] => "]"
  | [v] => json.quoted v +:+ "]"
  | v :: vs' => json.quoted v +:+ String "," (render_elems vs')
  end.

Definition render_array (vs : list string) : string := String "[" (render_elems vs).

Definition plain_strings (vs : list string) : Prop :=
  Forall (fun v => all_chars is_plain v = true) vs.

(** What the slice decoder makes of a rendered array. *)
Definition doc_of (vs : list string) : json.slice_doc :=
  match vs with
  | [] => json.SliceEmpty
  | _ => json.SliceElems (Some <$> vs)
  end.

(** A slice is backed when its array is in the heap and as long as the
    capacity of the slice. *)
Definition backed (h : mem.heap) (s : mem.slice) : Prop :=
  match s with
  | mem.nil => True
  | mem.Slice a _ c => exists arr, mem.arrays h !! a = Some arr /\ length arr = c
  end.

(** A committee document: the three fields in the order of the sample,
    no white space, the validators as an array of strings. *)
Definition committee_doc (index slot : Z) (vs : list string) : string :=
  "{" +:+ json.quoted "index" +:+ ":" +:+ json.quoted (strconv.FormatUint index)
  +:+ "," +:+ json.quoted "slot" +:+ ":" +:+ json.quoted (strconv.FormatUint slot)
  +:+ "," +:+ json.quoted "validators" +:+ ":" +:+ render_array vs +:+ "}".

Definition committee_map (index slot : Z) (vs : list string)
  : gmap string (option string) :=
  <["validators" := Some (render_array vs)]>
    (<["slot" := Some (json.quoted (strconv.FormatUint slot))]>
       (<["index" := Some (json.quoted (strconv.FormatUint index))]> ∅)).

(** The slices of the pool are backed by the heap. *)
Definition pool_backed (st : state) : Prop :=
  forall s, s ∈ sync.items (validatorSlicePool st) -> backed (heap st) s.




(** What the decode returns or how it ends. *)
Definition Committee_outcome (body : string) (c0 : Committee) (st : state)
  : outcome (option error) :=
  (Committee_UnmarshalJSON body c0 st).1.1.


Definition committee_without_index : string :=
  js "{'slot':'100','validators':['12','45','99']}".

(** The decode of the scalar fields, as the field decoders see it. *)
Definition decode_epoch (text : string) : result uinteger := strconv.ParseUint text.

Definition decode_signature (text : option string) : result byteArray :=
  match text with
  | None => Ok []
  | Some t =>
      match hex.DecodeString (hexutil.RemovePrefix t) with
      | (_, Some err) => Err err
      | (value, None) => Ok value
      end
  end.

(** A message document and a request document, the signature optional. *)
Definition exit_message_doc (epoch validator_index : string) : string :=
  "{" +:+ json.quoted "epoch" +:+ ":" +:+ json.quoted epoch
  +:+ "," +:+ json.quoted "validator_index" +:+ ":" +:+ json.quoted validator_index
  +:+ "}".

Definition exit_signature_doc (signature : option string) : string :=
  match signature with
  | None => "}"
  | Some t => "," +:+ json.quoted "signature" +:+ ":" +:+ json.quoted t +:+ "}"
  end.

Definition exit_request_doc (epoch validator_index : string) (signature : option string)
  : string :=
  "{" +:+ json.quoted "message" +:+ ":" +:+ exit_message_doc epoch validator_index
  +:+ exit_signature_doc signature.


(** A field decoder moves the cursor forward. *)
Definition advances {A} (dec : json.field_decoder A) : Prop :=
  forall s acc acc' rest,
    dec s acc = Ok (acc', rest) -> (String.length rest < String.length s)%nat.

Definition all_advance {A} (fields : string -> option (json.field_decoder A)) : Prop :=
  forall key dec, fields key = Some dec -> advances dec.

(** Every array of the heap lies below the next free address. *)
Definition heap_closed (h : mem.heap) : Prop :=
  forall a arr, mem.arrays h !! a = Some arr -> (a < mem.next h)%nat.

(** The invariant of the committee code: the heap is closed and the
    slices of the pool are backed. *)
Definition state_ok (st : state) : Prop :=
  heap_closed (heap st) /\ pool_backed st.


(** [k] zeros. *)
Fixpoint zeros (k : nat) : string :=
  match k with
  | O => ""
  | S k' => String "0" (zeros k')
  end.

Definition is_hex_digit (c : ascii) : bool :=
  in_range "0" "9" c || in_range "a" "f" c || in_range "A" "F" c.

(** The arrays of the slices the pool holds. *)
Definition pool_arrays (p : sync.Pool) : list nat := omap mem.data (sync.items p).

(** No array is in the pool twice. *)
Definition pool_distinct (st : state) : Prop := NoDup (pool_arrays (validatorSlicePool st)).

(** [json.Marshal(m)] for [m VoluntaryExitMessage]: the struct encoder
    writes the fields in the order of the declaration, each under the
    name of its tag; [Epoch] is written by its [MarshalJSON]. *)
Definition VoluntaryExitMessage_encode (m : VoluntaryExitMessage) : result string :=
  epoch ← uinteger_MarshalJSON (Epoch m);
  validator_index ← json.Marshal_string (ValidatorIndex m);
  Ok ("{" +:+ json.quoted "epoch" +:+ ":" +:+ epoch
      +:+ "," +:+ json.quoted "validator_index" +:+ ":" +:+ validator_index +:+ "}").

(** [json.Marshal(r)] for [r VoluntaryExitRequest], the signature not
    the nil slice. *)
Definition VoluntaryExitRequest_encode (r : VoluntaryExitRequest) : result string :=
  message ← VoluntaryExitMessage_encode (Message r);
  signature ← byteArray_MarshalJSON (Signature r);
  Ok ("{" +:+ json.quoted "message" +:+ ":" +:+ message
      +:+ "," +:+ json.quoted "signature" +:+ ":" +:+ signature +:+ "}").






(** Every slice of the pool has length zero. *)
Definition pool_emptied (st : state) : Prop :=
  Forall (fun b => mem.len b = 0%nat) (sync.items (validatorSlicePool st)).

(** The strings a slice document stands for when it is stored into a
    target of length zero. *)
Definition doc_strings (doc : json.slice_doc) : list string :=
  match doc with
  | json.SliceNull | json.SliceEmpty => []
  | json.SliceElems es => imap (json.resolve []) es
  end.

(** [BLSToExecutionChangeMessage] and [BLSToExecutionChangeRequest]:
    each struct in a module of its name, the fields under their names. *)
Module BLSToExecutionChangeMessage.
Record t := {
  ValidatorIndex : string;
  FromBLSPubkey : byteArray;
  ToExecutionAddress : byteArray;
}.
End BLSToExecutionChangeMessage.

Module BLSToExecutionChangeRequest.
Record t := {
  Message : BLSToExecutionChangeMessage.t;
  Signature : byteArray;
}.
End BLSToExecutionChangeRequest.

(** The field table of [BLSToExecutionChangeMessage]. *)
Definition BLSToExecutionChangeMessage_fields (key : string)
  : option (json.field_decoder BLSToExecutionChangeMessage.t) :=
  if String.eqb key "validator_index" then
    Some (fun s m =>
      '(o, rest) ← json.decodeString "BLSToExecutionChangeMessage" "ValidatorIndex" s;
      Ok ({| BLSToExecutionChangeMessage.ValidatorIndex :=
               default (BLSToExecutionChangeMessage.ValidatorIndex m) o;
             BLSToExecutionChangeMessage.FromBLSPubkey :=
               BLSToExecutionChangeMessage.FromBLSPubkey m;
             BLSToExecutionChangeMessage.ToExecutionAddress :=
               BLSToExecutionChangeMessage.ToExecutionAddress m |}, rest))
  else if String.eqb key "from_bls_pubkey" then
    Some (fun s m =>
      '(v, rest) ← json.decodeUnmarshaler "BLSToExecutionChangeMessage" "FromBLSPubkey"
                     byteArray_UnmarshalJSON s;
      Ok ({| BLSToExecutionChangeMessage.ValidatorIndex :=
               BLSToExecutionChangeMessage.ValidatorIndex m;
             BLSToExecutionChangeMessage.FromBLSPubkey := v;
             BLSToExecutionChangeMessage.ToExecutionAddress :=
               BLSToExecutionChangeMessage.ToExecutionAddress m |}, rest))
  else if String.eqb key "to_execution_address" then
    Some (fun s m =>
      '(v, rest) ← json.decodeUnmarshaler "BLSToExecutionChangeMessage"
                     "ToExecutionAddress" byteArray_UnmarshalJSON s;
      Ok ({| BLSToExecutionChangeMessage.ValidatorIndex :=
               BLSToExecutionChangeMessage.ValidatorIndex m;
             BLSToExecutionChangeMessage.FromBLSPubkey :=
               BLSToExecutionChangeMessage.FromBLSPubkey m;
             BLSToExecutionChangeMessage.ToExecutionAddress := v |}, rest))
  else None.

(** The field table of [BLSToExecutionChangeRequest]. *)
Definition BLSToExecutionChangeRequest_fields (key : string)
  : option (json.field_decoder BLSToExecutionChangeRequest.t) :=
  if String.eqb key "message" then
    Some (fun s r =>
      '(m, rest) ← json.decodeStruct BLSToExecutionChangeMessage_fields s
                     (BLSToExecutionChangeRequest.Message r);
      Ok ({| BLSToExecutionChangeRequest.Message := m;
             BLSToExecutionChangeRequest.Signature :=
               BLSToExecutionChangeRequest.Signature r |}, rest))
  else if String.eqb key "signature" then
    Some (fun s r =>
      '(v, rest) ← json.decodeUnmarshaler "BLSToExecutionChangeRequest" "Signature"
                     byteArray_UnmarshalJSON s;
      Ok ({| BLSToExecutionChangeRequest.Message := BLSToExecutionChangeRequest.Message r;
             BLSToExecutionChangeRequest.Signature := v |}, rest))
  else None.

Definition BLSToExecutionChangeRequest_zero : BLSToExecutionChangeRequest.t :=
  {| BLSToExecutionChangeRequest.Message :=
       {| BLSToExecutionChangeMessage.ValidatorIndex := "";
          BLSToExecutionChangeMessage.FromBLSPubkey := [];
          BLSToExecutionChangeMessage.ToExecutionAddress := [] |};
     BLSToExecutionChangeRequest.Signature := [] |}.

(** [json.Unmarshal(data, &req)] for a fresh
    [req BLSToExecutionChangeRequest]. *)
Definition BLSToExecutionChangeRequest_decode (data : string)
  : result BLSToExecutionChangeRequest.t :=
  json.Unmarshal_struct BLSToExecutionChangeRequest_fields data
    BLSToExecutionChangeRequest_zero.

(** [json.Marshal(m)] for [m BLSToExecutionChangeMessage], no byte field
    the nil slice. *)
Definition BLSToExecutionChangeMessage_encode (m : BLSToExecutionChangeMessage.t)
  : result string :=
  validator_index ← json.Marshal_string (BLSToExecutionChangeMessage.ValidatorIndex m);
  from_bls_pubkey ← byteArray_MarshalJSON (BLSToExecutionChangeMessage.FromBLSPubkey m);
  to_execution_address ←
    byteArray_MarshalJSON (BLSToExecutionChangeMessage.ToExecutionAddress m);
  Ok ("{" +:+ json.quoted "validator_index" +:+ ":" +:+ validator_index
      +:+ "," +:+ json.quoted "from_bls_pubkey" +:+ ":" +:+ from_bls_pubkey
      +:+ "," +:+ json.quoted "to_execution_address" +:+ ":" +:+ to_execution_address
      +:+ "}").

(** [json.Marshal(r)] for [r BLSToExecutionChangeRequest]. *)
Definition BLSToExecutionChangeRequest_encode (r : BLSToExecutionChangeRequest.t)
  : result string :=
  message ← BLSToExecutionChangeMessage_encode (BLSToExecutionChangeRequest.Message r);
  signature ← byteArray_MarshalJSON (BLSToExecutionChangeRequest.Signature r);
  Ok ("{" +:+ json.quoted "message" +:+ ":" +:+ message
      +:+ "," +:+ json.quoted "signature" +:+ ":" +:+ signature +:+ "}").

(** The documents the two encoders write, the byte fields as hex
    text. *)
Definition bls_message_doc (validator_index pubkey address : string) : string :=
  "{" +:+ json.quoted "validator_index" +:+ ":" +:+ json.quoted validator_index
  +:+ "," +:+ json.quoted "from_bls_pubkey" +:+ ":" +:+ json.quoted pubkey
  +:+ "," +:+ json.quoted "to_execution_address" +:+ ":" +:+ json.quoted address
  +:+ "}".

Definition bls_request_doc (validator_index pubkey address signature : string) : string :=
  "{" +:+ json.quoted "message" +:+ ":" +:+ bls_message_doc validator_index pubkey address
  +:+ "," +:+ json.quoted "signature" +:+ ":" +:+ json.quoted signature +:+ "}".

(** * Properties *)

(** ** Strings of plain characters *)

Ltac ascii_cases c := destruct c as [[|] [|] [|] [|] [|] [|] [|] [|]].

Lemma append_cons c s t : String c s +:+ t = String c (s +:+ t).
Proof. reflexivity. Qed.

Lemma append_nil_l t : "" +:+ t = t.
Proof. reflexivity. Qed.

Lemma all_chars_impl (P Q : ascii -> bool) s :
  (forall c, P c = true -> Q c = true) -> all_chars P s = true -> all_chars Q s = true.
Proof.
  intros HPQ. induction s as [|c s IH]; simpl; [done|].
  rewrite !andb_true_iff. intros [Hc Hs]. split; auto.
Qed.

Lemma all_chars_app P s t :
  all_chars P (s +:+ t) = all_chars P s && all_chars P t.
Proof.
  induction s as [|c s IH]; [done|].
  rewrite append_cons. cbn [all_chars]. by rewrite IH, andb_assoc.
Qed.

Lemma is_lower_hex_plain c : is_lower_hex c = true -> is_plain c = true.
Proof. ascii_cases c; vm_compute; congruence. Qed.

Lemma is_digit_lower_hex c : is_digit c = true -> is_lower_hex c = true.
Proof. unfold is_lower_hex, is_digit. by intros ->. Qed.

Lemma is_digit_plain c : is_digit c = true -> is_plain c = true.
Proof. intros H. by apply is_lower_hex_plain, is_digit_lower_hex. Qed.

Lemma escape_char_plain c : is_plain c = true -> json.escape_char c = String c "".
Proof. ascii_cases c; vm_compute; congruence. Qed.

Lemma escape_plain s : all_chars is_plain s = true -> json.escape s = s.
Proof.
  induction s as [|c s IH]; [done|].
  cbn [all_chars json.escape]. rewrite andb_true_iff. intros [Hc Hs].
  by rewrite (escape_char_plain c Hc), IH.
Qed.

Lemma stringBytes_plain_step c s :
  is_plain c = true ->
  json.stringBytes None (String c s) =
    '(lit, rest) ← json.stringBytes None s; Ok (String c lit, rest).
Proof.
  intros Hc.
  assert (json.eqc c json.dquote = false /\ json.eqc c json.nul = false
          /\ json.eqc c json.backslash = false) as (H1 & H2 & H3).
  { revert Hc. ascii_cases c; vm_compute; auto. }
  simpl. by rewrite H1, H2, H3.
Qed.

Lemma stringBytes_plain s rest :
  all_chars is_plain s = true ->
  json.stringBytes None (s +:+ String json.dquote rest) = Ok (s, rest).
Proof.
  induction s as [|c s IH]; [done|].
  cbn [all_chars]. rewrite andb_true_iff. intros [Hc Hs].
  rewrite append_cons, (stringBytes_plain_step c _ Hc), (IH Hs). done.
Qed.

(** Encoding a string of plain characters puts it between quotes. *)
Lemma Marshal_string_plain s :
  all_chars is_plain s = true -> json.Marshal_string s = Ok (json.quoted s).
Proof. intros H. unfold json.Marshal_string, json.quoted. by rewrite (escape_plain s H). Qed.

(** Decoding a quoted string of plain characters gives the string. *)
Lemma Unmarshal_string_quoted s v :
  all_chars is_plain s = true -> json.Unmarshal_string (json.quoted s) v = Ok s.
Proof.
  intros H. unfold json.Unmarshal_string, json.decodeString, json.quoted.
  change (json.skipWhiteSpace (String json.dquote ?t)) with (String json.dquote t).
  cbv beta iota.
  change (json.eqc json.dquote "[") with false.
  change (json.eqc json.dquote "{") with false.
  change (json.eqc json.dquote "-" || in_range "0" "9" json.dquote) with false.
  change (json.eqc json.dquote json.dquote) with true.
  cbv iota. rewrite (stringBytes_plain s "" H). done.
Qed.

(** ** Decimal text *)

Section decimal.

Import strconv.

Lemma digit_val_digit d :
  0 <= d < 10 -> digit_val (chr (code "0" + d)) = Some d.
Proof.
  intros H.
  assert (d = 0 \/ d = 1 \/ d = 2 \/ d = 3 \/ d = 4 \/ d = 5 \/ d = 6
          \/ d = 7 \/ d = 8 \/ d = 9) as Hd by lia.
  repeat destruct Hd as [-> | Hd]; try subst d; reflexivity.
Qed.

Lemma is_digit_digit d :
  0 <= d < 10 -> is_digit (chr (code "0" + d)) = true.
Proof.
  intros H.
  assert (d = 0 \/ d = 1 \/ d = 2 \/ d = 3 \/ d = 4 \/ d = 5 \/ d = 6
          \/ d = 7 \/ d = 8 \/ d = 9) as Hd by lia.
  repeat destruct Hd as [-> | Hd]; try subst d; reflexivity.
Qed.

(** One turn of the digit loop on a digit that does not overflow. *)
Lemma ParseUint_loop_digit s0 d s n :
  0 <= d < 10 -> 0 <= n -> n * 10 + d < 2 ^ 64 ->
  ParseUint_loop s0 (String (chr (code "0" + d)) s) n =
  ParseUint_loop s0 s (n * 10 + d).
Proof.
  intros Hd Hn Hlt. cbn [ParseUint_loop]. rewrite (digit_val_digit d Hd).
  change (maxUint64 / 10 + 1) with 1844674407370955162.
  change (wrap64 (Z.shiftl 1 64 - 1)) with 18446744073709551615.
  change (2 ^ 64) with 18446744073709551616 in Hlt.
  unfold wrap64. change (2 ^ 64) with 18446744073709551616.
  destruct (Z.leb_spec 10 d); [lia|].
  destruct (Z.leb_spec 1844674407370955162 n); [lia|].
  rewrite (Z.mod_small (n * 10)) by lia.
  rewrite (Z.mod_small (n * 10 + d)) by lia.
  destruct (Z.ltb_spec (n * 10 + d) (n * 10)); [lia|].
  destruct (Z.ltb_spec 18446744073709551615 (n * 10 + d)); [lia|].
  reflexivity.
Qed.

(** Reading back the digits that [formatBits] wrote. *)
Lemma ParseUint_loop_formatBits fuel : forall u acc s0,
  0 <= u < 2 ^ 64 -> u < 10 ^ Z.of_nat fuel ->
  ParseUint_loop s0 (formatBits_loop fuel u acc) 0 = ParseUint_loop s0 acc u.
Proof.
  induction fuel as [|fuel IH]; intros u acc s0 Hu Hfuel.
  - change (10 ^ Z.of_nat 0) with 1 in Hfuel.
    assert (u = 0) as -> by lia. reflexivity.
  - cbn [formatBits_loop]. destruct (Z.ltb_spec u 10) as [Hlt | Hge].
    + rewrite ParseUint_loop_digit by lia; f_equal; lia.
    + assert (0 <= u / 10 < 2 ^ 64).
      { split; [apply Z.div_pos; lia|]. apply Z.div_lt_upper_bound; lia. }
      assert (u / 10 < 10 ^ Z.of_nat fuel).
      { apply Z.div_lt_upper_bound; [lia|].
        rewrite Nat2Z.inj_succ, Z.pow_succ_r in Hfuel by lia. lia. }
      rewrite IH by assumption.
      pose proof (Z.div_mod u 10 ltac:(lia)) as Hdm.
      pose proof (Z.mod_pos_bound u 10 ltac:(lia)) as Hmod.
      rewrite ParseUint_loop_digit by lia; f_equal; lia.
Qed.

Lemma formatBits_loop_nonempty fuel : forall u acc,
  (fuel <> 0)%nat \/ acc <> "" -> formatBits_loop fuel u acc <> "".
Proof.
  induction fuel as [|fuel IH]; intros u acc H; cbn [formatBits_loop].
  - destruct H as [H | H]; [done | exact H].
  - destruct (u <? 10); [done|]. apply IH. by right.
Qed.

Lemma formatBits_loop_digits fuel : forall u acc,
  0 <= u -> all_chars is_digit acc = true ->
  all_chars is_digit (formatBits_loop fuel u acc) = true.
Proof.
  induction fuel as [|fuel IH]; intros u acc Hu Hacc; cbn [formatBits_loop].
  - exact Hacc.
  - destruct (Z.ltb_spec u 10) as [Hlt | Hge].
    + cbn [all_chars]. rewrite is_digit_digit by lia. exact Hacc.
    + apply IH; [apply Z.div_pos; lia|].
      pose proof (Z.div_mod u 10 ltac:(lia)) as Hdm.
      pose proof (Z.mod_pos_bound u 10 ltac:(lia)) as Hmod.
      cbn [all_chars]. rewrite is_digit_digit by lia. exact Hacc.
Qed.

(** [Itoa] of a value below 2^63 is its decimal text, and [ParseUint]
    reads it back. *)
Lemma Itoa_digits v :
  0 <= v < 2 ^ 63 -> all_chars is_digit (Itoa (int_of_uint64 v)) = true.
Proof.
  intros Hv. unfold int_of_uint64, Itoa, FormatInt.
  destruct (Z.ltb_spec v (2 ^ 63)); [|lia].
  destruct (Z.ltb_spec v 0); [lia|].
  apply formatBits_loop_digits; [|done].
  unfold wrap64. apply Z.mod_pos_bound. lia.
Qed.

Lemma ParseUint_Itoa v :
  0 <= v < 2 ^ 63 -> ParseUint (Itoa (int_of_uint64 v)) = Ok v.
Proof.
  intros Hv. unfold int_of_uint64, Itoa, FormatInt.
  destruct (Z.ltb_spec v (2 ^ 63)); [|lia].
  destruct (Z.ltb_spec v 0); [lia|].
  unfold wrap64. rewrite Z.mod_small by lia.
  pose proof (formatBits_loop_nonempty 20 v "" ltac:(by left)) as Hne.
  unfold ParseUint.
  destruct (formatBits_loop 20 v "") as [|c s] eqn:E; [done|].
  rewrite <- E. rewrite ParseUint_loop_formatBits; [done | lia |].
  change (10 ^ Z.of_nat 20) with 100000000000000000000. lia.
Qed.

End decimal.

(** ** The unsigned integer codec *)

(** Below 2^63 the encoder writes the quoted decimal text of the value. *)
Lemma uinteger_MarshalJSON_below_int63 v :
  0 <= v < 2 ^ 63 ->
  uinteger_MarshalJSON v = Ok (json.quoted (strconv.Itoa (int_of_uint64 v)))
  /\ all_chars is_digit (strconv.Itoa (int_of_uint64 v)) = true.
Proof.
  intros Hv. pose proof (Itoa_digits v Hv) as Hd. split; [|exact Hd].
  unfold uinteger_MarshalJSON. apply Marshal_string_plain.
  revert Hd. apply all_chars_impl, is_digit_plain.
Qed.

(** Below 2^63 decoding what the encoder wrote gives the value back. *)
Lemma uinteger_roundtrip_below_int63 v :
  0 <= v < 2 ^ 63 ->
  exists data, uinteger_MarshalJSON v = Ok data /\ uinteger_UnmarshalJSON data = Ok v.
Proof.
  intros Hv. destruct (uinteger_MarshalJSON_below_int63 v Hv) as [Henc Hd].
  eexists. split; [exact Henc|].
  unfold uinteger_UnmarshalJSON.
  rewrite Unmarshal_string_quoted
    by (revert Hd; apply all_chars_impl, is_digit_plain).
  cbn. rewrite (ParseUint_Itoa v Hv). done.
Qed.

(** Below 2^63 the decimal text has no leading zero: it is the single
    digit 0 or starts with another digit. *)
Lemma formatBits_loop_no_leading_zero fuel : forall u acc,
  0 < u < 10 ^ Z.of_nat fuel ->
  exists c s, strconv.formatBits_loop fuel u acc = String c s /\ c <> "0"%char.
Proof.
  induction fuel as [|fuel IH]; intros u acc Hu.
  - change (10 ^ Z.of_nat 0) with 1 in Hu. lia.
  - cbn [strconv.formatBits_loop]. destruct (Z.ltb_spec u 10) as [Hlt | Hge].
    + eexists _, _. split; [reflexivity|].
      assert (u = 1 \/ u = 2 \/ u = 3 \/ u = 4 \/ u = 5 \/ u = 6
              \/ u = 7 \/ u = 8 \/ u = 9) as Hd by lia.
      repeat destruct Hd as [-> | Hd]; try subst u; discriminate.
    + apply IH. split.
      * apply Z.div_str_pos. lia.
      * apply Z.div_lt_upper_bound; [lia|].
        rewrite Nat2Z.inj_succ, Z.pow_succ_r in Hu by lia. lia.
Qed.

Lemma uinteger_MarshalJSON_no_leading_zero v :
  0 < v < 2 ^ 63 ->
  exists c s, uinteger_MarshalJSON v = Ok (json.quoted (String c s))
              /\ c <> "0"%char /\ all_chars is_digit (String c s) = true.
Proof.
  intros Hv.
  destruct (uinteger_MarshalJSON_below_int63 v ltac:(lia)) as [Henc Hd].
  assert (strconv.Itoa (int_of_uint64 v) = strconv.formatBits_loop 20 v "") as E.
  { unfold int_of_uint64, strconv.Itoa, strconv.FormatInt.
    destruct (Z.ltb_spec v (2 ^ 63)); [|lia].
    destruct (Z.ltb_spec v 0); [lia|].
    unfold strconv.wrap64. by rewrite Z.mod_small by lia. }
  destruct (formatBits_loop_no_leading_zero 20 v "") as (c & s & Hcs & Hc).
  { change (10 ^ Z.of_nat 20) with 100000000000000000000. lia. }
  exists c, s. rewrite E, Hcs in Henc, Hd. done.
Qed.

(** From 2^63 on the conversion to [int] is negative: the encoder writes
    a minus sign, and the decoder rejects the text. *)
Lemma uinteger_roundtrip_above_int63 v :
  2 ^ 63 <= v < 2 ^ 64 ->
  exists digits,
    uinteger_MarshalJSON v = Ok (json.quoted (String "-" digits))
    /\ uinteger_UnmarshalJSON (json.quoted (String "-" digits))
       = Err (NumError "ParseUint" (String "-" digits) ErrSyntax).
Proof.
  intros Hv.
  assert (strconv.Itoa (int_of_uint64 v)
          = String "-" (strconv.formatBits_loop 20 (2 ^ 64 - v) "")) as E.
  { unfold int_of_uint64, strconv.Itoa, strconv.FormatInt.
    destruct (Z.ltb_spec v (2 ^ 63)); [lia|].
    destruct (Z.ltb_spec (v - 2 ^ 64) 0); [|lia].
    unfold strconv.wrap64. f_equal. f_equal.
    rewrite <- (Z.mod_small (2 ^ 64 - v) (2 ^ 64)) by lia.
    rewrite <- (Z_mod_plus_full (- (v - 2 ^ 64)) 0 (2 ^ 64)).
    f_equal. lia. }
  assert (all_chars is_plain (String "-" (strconv.formatBits_loop 20 (2 ^ 64 - v) "")) = true)
    as Hplain.
  { cbn [all_chars]. change (is_plain "-") with true. cbn [andb].
    eapply all_chars_impl; [apply is_digit_plain|].
    apply formatBits_loop_digits; [lia | done]. }
  eexists. split.
  - unfold uinteger_MarshalJSON. rewrite E. by apply Marshal_string_plain.
  - unfold uinteger_UnmarshalJSON. by rewrite Unmarshal_string_quoted.
Qed.

(** C1 (as the code runs): the round trip holds below 2^63 and fails
    from 2^63 on, where the encoder writes a signed text that the decoder
    rejects as not numeric; at the largest value 2^64-1 the text is -1. *)
Theorem uinteger_roundtrip_range :
  (forall v, 0 <= v < 2 ^ 63 ->
     exists data, uinteger_MarshalJSON v = Ok data /\ uinteger_UnmarshalJSON data = Ok v)
  /\ (forall v, 2 ^ 63 <= v < 2 ^ 64 ->
        exists data err,
          uinteger_MarshalJSON v = Ok data
          /\ uinteger_UnmarshalJSON data = Err err /\ is_NotNumeric err = true)
  /\ (uinteger_MarshalJSON 18446744073709551615 = Ok (js "'-1'")
      /\ uinteger_UnmarshalJSON (js "'-1'") = Err (NumError "ParseUint" "-1" ErrSyntax)).
Proof.
  split; [exact uinteger_roundtrip_below_int63|]. split; [|by split].
  intros v Hv. destruct (uinteger_roundtrip_above_int63 v Hv) as (digits & Henc & Hdec).
  by eexists _, _.
Qed.

Lemma uinteger_roundtrip_range_witness :
  (exists data, uinteger_MarshalJSON 1000000 = Ok data
                /\ uinteger_UnmarshalJSON data = Ok 1000000)
  /\ (exists data err,
        uinteger_MarshalJSON 18446744073709551615 = Ok data
        /\ uinteger_UnmarshalJSON data = Err err /\ is_NotNumeric err = true).
Proof.
  split.
  - apply (proj1 uinteger_roundtrip_range 1000000). lia.
  - apply (proj1 (proj2 uinteger_roundtrip_range) 18446744073709551615). lia.
Defined.

(** C5 (as the code runs): the encoder never fails and always writes a
    quoted string; below 2^63 the text is unsigned decimal digits without
    a leading zero, but from 2^63 on it starts with a minus sign: 2^63 is
    written as -9223372036854775808. *)
Theorem uinteger_MarshalJSON_text :
  uinteger_MarshalJSON 0 = Ok (json.quoted "0")
  /\ (forall v, 0 < v < 2 ^ 63 ->
        exists c s, uinteger_MarshalJSON v = Ok (json.quoted (String c s))
                    /\ c <> "0"%char /\ all_chars is_digit (String c s) = true)
  /\ (forall v, 2 ^ 63 <= v < 2 ^ 64 ->
        exists digits, uinteger_MarshalJSON v = Ok (json.quoted (String "-" digits)))
  /\ uinteger_MarshalJSON 9223372036854775808 = Ok (js "'-9223372036854775808'").
Proof.
  split; [reflexivity|]. split; [exact uinteger_MarshalJSON_no_leading_zero|].
  split; [|reflexivity].
  intros v Hv. destruct (uinteger_roundtrip_above_int63 v Hv) as (digits & Henc & _).
  by exists digits.
Qed.

Lemma uinteger_MarshalJSON_text_witness :
  (exists c s, uinteger_MarshalJSON 1000000 = Ok (json.quoted (String c s))
               /\ c <> "0"%char /\ all_chars is_digit (String c s) = true)
  /\ (exists digits,
        uinteger_MarshalJSON 9223372036854775808 = Ok (json.quoted (String "-" digits))).
Proof.
  split.
  - apply (proj1 (proj2 uinteger_MarshalJSON_text) 1000000). lia.
  - apply (proj1 (proj2 (proj2 uinteger_MarshalJSON_text)) 9223372036854775808). lia.
Defined.

(** C7: the text abc is rejected as not numeric (a syntax error of
    [ParseUint]), 2^64 as out of range (a range error of [ParseUint]),
    and the hex text 0xzz as invalid hex (an invalid byte of
    [hex.DecodeString]); the last whether the prefix helper strips the
    prefix of that text or leaves it. *)
Theorem scalar_rejections :
  (uinteger_UnmarshalJSON (js "'abc'") = Err (NumError "ParseUint" "abc" ErrSyntax)
   /\ is_NotNumeric (NumError "ParseUint" "abc" ErrSyntax) = true)
  /\ (uinteger_UnmarshalJSON (js "'18446744073709551616'")
      = Err (NumError "ParseUint" "18446744073709551616" ErrRange)
      /\ is_OutOfRange (NumError "ParseUint" "18446744073709551616" ErrRange) = true)
  /\ (byteArray_UnmarshalJSON (js "'0xzz'") = Err (InvalidByteError "z")
      /\ is_InvalidHex (InvalidByteError "z") = true)
  /\ (forall RemovePrefix,
        RemovePrefix "0xzz" = "zz" \/ RemovePrefix "0xzz" = "0xzz" ->
        exists err, byteArray_UnmarshalJSON_with RemovePrefix (js "'0xzz'") = Err err
                    /\ is_InvalidHex err = true).
Proof.
  repeat split; try reflexivity.
  intros RemovePrefix [H | H].
  - exists (InvalidByteError "z").
    unfold byteArray_UnmarshalJSON_with.
    change (json.Unmarshal_string (js "'0xzz'") "") with (@Ok string "0xzz").
    cbn [mbind result_bind]. by rewrite H.
  - exists (InvalidByteError "x").
    unfold byteArray_UnmarshalJSON_with.
    change (json.Unmarshal_string (js "'0xzz'") "") with (@Ok string "0xzz").
    cbn [mbind result_bind]. by rewrite H.
Qed.

Lemma scalar_rejections_witness :
  exists err, byteArray_UnmarshalJSON_with hexutil.RemovePrefix (js "'0xzz'") = Err err
              /\ is_InvalidHex err = true.
Proof.
  apply (proj2 (proj2 (proj2 scalar_rejections)) hexutil.RemovePrefix).
  left. reflexivity.
Defined.

(** A bare number is not a string. *)
Example uinteger_UnmarshalJSON_bare_number :
  uinteger_UnmarshalJSON "42" = Err (UnmarshalTypeError "number" "string" "" "")
  /\ is_NotAString (UnmarshalTypeError "number" "string" "" "") = true.
Proof. split; reflexivity. Qed.

(** ** The byte array codec *)

Lemma hex_pair_decodes (v : byte) :
  let p := hex.hexchar (Z.shiftr (hex.byte_val v) 4) in
  let q := hex.hexchar (Z.land (hex.byte_val v) 15) in
  (15 <? hex.reverseHexTable p) = false
  /\ (15 <? hex.reverseHexTable q) = false
  /\ hex.mkbyte (Z.lor (Z.shiftl (hex.reverseHexTable p) 4) (hex.reverseHexTable q)) = v.
Proof. destruct v; vm_compute; auto. Qed.

Lemma hex_pair_lower (v : byte) :
  is_lower_hex (hex.hexchar (Z.shiftr (hex.byte_val v) 4)) = true
  /\ is_lower_hex (hex.hexchar (Z.land (hex.byte_val v) 15)) = true
  /\ json.eqc "x" (hex.hexchar (Z.land (hex.byte_val v) 15)) = false.
Proof. destruct v; vm_compute; auto. Qed.

(** [hex.DecodeString] undoes [hex.EncodeToString]. *)
Lemma Decode_EncodeToString (b : list byte) :
  hex.DecodeString (hex.EncodeToString b) = (b, None).
Proof.
  unfold hex.DecodeString. induction b as [|v b IH]; [done|].
  cbn [hex.EncodeToString hex.Decode].
  destruct (hex_pair_decodes v) as (-> & -> & ->). by rewrite IH.
Qed.

Lemma EncodeToString_lower_hex (b : list byte) :
  all_chars is_lower_hex (hex.EncodeToString b) = true.
Proof.
  induction b as [|v b IH]; [done|].
  cbn [hex.EncodeToString all_chars].
  destruct (hex_pair_lower v) as (-> & -> & _). exact IH.
Qed.

Lemma EncodeToString_plain (b : list byte) :
  all_chars is_plain (hex.EncodeToString b) = true.
Proof.
  eapply all_chars_impl; [apply is_lower_hex_plain | apply EncodeToString_lower_hex].
Qed.

(** Hex text never starts with the prefix: its second character is a
    hex digit. *)
Lemma EncodeToString_no_prefix (b : list byte) :
  json.expect hexutil.prefix (hex.EncodeToString b) = None.
Proof.
  destruct b as [|v b]; [done|].
  cbn [hex.EncodeToString]. unfold hexutil.prefix. cbn [json.expect].
  destruct (hex_pair_lower v) as (_ & _ & ->). by destruct (json.eqc _ _).
Qed.

Lemma RemovePrefix_AddPrefix s : hexutil.RemovePrefix (hexutil.AddPrefix s) = s.
Proof. reflexivity. Qed.

Lemma RemovePrefix_absent s :
  json.expect hexutil.prefix s = None -> hexutil.RemovePrefix s = s.
Proof. unfold hexutil.RemovePrefix. by intros ->. Qed.

Lemma AddPrefix_plain s :
  all_chars is_plain s = true -> all_chars is_plain (hexutil.AddPrefix s) = true.
Proof. intros H. unfold hexutil.AddPrefix. by rewrite all_chars_app, H. Qed.

(** C8: for every byte sequence, the empty one too, the encoder succeeds
    and the decoder gives the sequence back from what it wrote; the empty
    sequence is written as the quoted prefix alone. *)
Theorem byteArray_roundtrip (b : byteArray) :
  (exists data, byteArray_MarshalJSON b = Ok data /\ byteArray_UnmarshalJSON data = Ok b)
  /\ byteArray_MarshalJSON [] = Ok (json.quoted hexutil.prefix).
Proof.
  split; [|reflexivity].
  pose proof (AddPrefix_plain _ (EncodeToString_plain b)) as Hplain.
  exists (json.quoted (hexutil.AddPrefix (hex.EncodeToString b))). split.
  - unfold byteArray_MarshalJSON. by apply Marshal_string_plain.
  - unfold byteArray_UnmarshalJSON, byteArray_UnmarshalJSON_with.
    rewrite (Unmarshal_string_quoted _ "" Hplain). cbn [mbind result_bind].
    by rewrite RemovePrefix_AddPrefix, Decode_EncodeToString.
Qed.

(** C9: the texts 0xdead and dead both decode to the bytes DE AD, and for
    every text without the prefix the decoder gives the same result
    whether or not the prefix is put in front: a missing prefix is never
    the cause of an error. *)
Theorem byteArray_prefix_tolerance :
  byteArray_UnmarshalJSON (js "'0xdead'") = Ok [xde; xad]
  /\ byteArray_UnmarshalJSON (js "'dead'") = Ok [xde; xad]
  /\ forall s, all_chars is_plain s = true ->
               json.expect hexutil.prefix s = None ->
               byteArray_UnmarshalJSON (json.quoted s)
               = byteArray_UnmarshalJSON (json.quoted (hexutil.prefix +:+ s)).
Proof.
  split; [reflexivity|]. split; [reflexivity|].
  intros s Hs Hno. unfold byteArray_UnmarshalJSON, byteArray_UnmarshalJSON_with.
  change (hexutil.prefix +:+ s) with (hexutil.AddPrefix s).
  rewrite (Unmarshal_string_quoted s "" Hs).
  rewrite (Unmarshal_string_quoted _ "" (AddPrefix_plain s Hs)).
  cbn [mbind result_bind].
  by rewrite (RemovePrefix_absent s Hno), (RemovePrefix_AddPrefix s).
Qed.

Lemma byteArray_prefix_tolerance_witness :
  byteArray_UnmarshalJSON (json.quoted "dead")
  = byteArray_UnmarshalJSON (json.quoted (hexutil.prefix +:+ "dead")).
Proof.
  apply (proj2 (proj2 byteArray_prefix_tolerance) "dead"); reflexivity.
Defined.

(** Without the prefix every hex text of a byte sequence decodes to it. *)
Lemma byteArray_UnmarshalJSON_unprefixed (b : byteArray) :
  byteArray_UnmarshalJSON (json.quoted (hex.EncodeToString b)) = Ok b.
Proof.
  unfold byteArray_UnmarshalJSON, byteArray_UnmarshalJSON_with.
  rewrite (Unmarshal_string_quoted _ "" (EncodeToString_plain b)).
  cbn [mbind result_bind].
  by rewrite (RemovePrefix_absent _ (EncodeToString_no_prefix b)), Decode_EncodeToString.
Qed.

(** ** Raw messages *)

Lemma bind_Ok {A B} (r : result A) (k : A -> result B) (b : B) :
  r ≫= k = Ok b -> exists a, r = Ok a /\ k a = Ok b.
Proof. destruct r as [a|e]; [|done]. intros H. by exists a. Qed.

Lemma eqc_eq c d : json.eqc c d = true <-> c = d.
Proof. apply Ascii.eqb_eq. Qed.

Lemma skipWhiteSpace_head s c s' :
  json.skipWhiteSpace s = String c s' -> json.is_space c = false.
Proof.
  induction s as [|d s IH]; [done|]. cbn [json.skipWhiteSpace].
  destruct (json.is_space d) eqn:E; [exact IH|]. by intros [= <- <-].
Qed.

Lemma skipWhiteSpace_no_space c s :
  json.is_space c = false -> json.skipWhiteSpace (String c s) = String c s.
Proof. intros H. cbn [json.skipWhiteSpace]. by rewrite H. Qed.

Lemma skipWhiteSpace_idemp s :
  json.skipWhiteSpace (json.skipWhiteSpace s) = json.skipWhiteSpace s.
Proof.
  induction s as [|d s IH]; [done|]. cbn [json.skipWhiteSpace].
  destruct (json.is_space d) eqn:E; [exact IH|]. by apply skipWhiteSpace_no_space.
Qed.

(** The text [skipValue] returns starts with the character the value
    starts with. *)
Lemma skipValue_head s raw rest :
  json.skipValue s = Ok (raw, rest) ->
  exists c s' raw', json.skipWhiteSpace s = String c s' /\ raw = String c raw'.
Proof.
  unfold json.skipValue. destruct (json.skipWhiteSpace s) as [|c s']; [done|].
  intros H. exists c, s'.
  repeat match type of H with
         | (if ?b then _ else _) = _ => destruct b eqn:?
         | (_ ≫= _) = Ok _ => apply bind_Ok in H as ([? ?] & ? & H)
         | (let '(_, _) := ?p in _) = _ => destruct p
         | Ok _ = Ok _ => injection H as <- <-
         end; try done; try (by eexists);
    match goal with
    | E : json.eqc c _ = true |- _ => apply eqc_eq in E; subst c
    end;
    apply bind_Ok in H as (? & ? & [= <- <-]); by eexists.
Qed.

Lemma decodeRawPtr_raw s raw rest :
  json.decodeRawPtr s = Ok (Some raw, rest) -> raw_value raw.
Proof.
  unfold json.decodeRawPtr.
  destruct (json.skipWhiteSpace s) as [|c s'] eqn:Hs; [done|].
  destruct (json.eqc c "n") eqn:Hn.
  - intros H. by apply bind_Ok in H as (? & ? & ?).
  - intros H. apply bind_Ok in H as ([raw0 rest0] & H & [= <- <-]).
    unfold json.decodeUnmarshaler in H.
    apply bind_Ok in H as ([raw1 rest1] & H & [= <- <-]).
    pose proof (skipWhiteSpace_head _ _ _ Hs) as Hsp.
    apply skipValue_head in H as (c' & s'' & raw' & H & ->).
    rewrite (skipWhiteSpace_no_space c s' Hsp) in H. injection H as <- <-.
    by exists c, raw'.
Qed.

Lemma raw_values_insert k v (m : gmap string (option string)) :
  raw_values m -> (forall raw, v = Some raw -> raw_value raw) ->
  raw_values (<[k := v]> m).
Proof.
  intros Hm Hv k' raw. rewrite lookup_insert. case_decide.
  - intros [= ->]. by apply Hv.
  - apply Hm.
Qed.

Lemma decodeRawMap_members_raw fuel : forall s m m' rest,
  raw_values m ->
  json.decodeRawMap_members fuel s m = Ok (m', rest) -> raw_values m'.
Proof.
  induction fuel as [|fuel IH]; intros s m m' rest Hm; [done|].
  cbn [json.decodeRawMap_members]. intros H.
  apply bind_Ok in H as ([k c1] & _ & H).
  destruct (json.skipWhiteSpace c1) as [|c c2]; [done|].
  destruct (negb (json.eqc c ":")); [done|].
  apply bind_Ok in H as ([v c3] & Hv & H).
  assert (raw_values (<[default "" k := v]> m)) as Hm'.
  { apply raw_values_insert; [done|]. intros raw ->. by eapply decodeRawPtr_raw. }
  destruct (json.skipWhiteSpace c3) as [|c' c4]; [done|].
  destruct (json.eqc c' "}"); [by injection H as <- <-|].
  destruct (json.eqc c' ","); [|done]. by eapply IH.
Qed.

(** Every message the committee map points to is a raw value. *)
Lemma Unmarshal_rawmap_raw data m key raw :
  json.Unmarshal_rawmap data ∅ = Ok m -> deref (m !! key) = Some raw -> raw_value raw.
Proof.
  unfold json.Unmarshal_rawmap, json.decodeRawMap. intros H Hk.
  apply bind_Ok in H as ([m0 rest] & H & H').
  apply bind_Ok in H' as (_ & _ & [= <-]).
  assert (raw_values m0) as Hm.
  { destruct (json.skipWhiteSpace data) as [|c s']; [done|].
    destruct (json.eqc c "n").
    { apply bind_Ok in H as (? & _ & [= <- <-]). intros k r. by rewrite lookup_empty. }
    destruct (json.eqc c "{"); [|done].
    destruct (json.skipWhiteSpace s') as [|c' rest']; [done|].
    destruct (json.eqc c' "}").
    { injection H as <- <-. intros k r. by rewrite lookup_empty. }
    eapply decodeRawMap_members_raw; [|exact H]. intros k r. by rewrite lookup_empty. }
  unfold deref in Hk. destruct (m0 !! key) as [[r|]|] eqn:E; [|done..].
  injection Hk as ->. by eapply Hm.
Qed.

(** A raw value is never read as the [null] slice. *)
Lemma decodeSlice_raw raw doc rest :
  raw_value raw -> json.decodeSlice raw = Ok (doc, rest) -> doc <> json.SliceNull.
Proof.
  intros (c & raw' & -> & Hsp & Hn). unfold json.decodeSlice.
  rewrite (skipWhiteSpace_no_space c raw' Hsp), Hn.
  destruct (json.eqc c "[").
  - destruct (json.skipWhiteSpace raw') as [|c' r]; [done|].
    destruct (json.eqc c' "]"); [by intros [= <- <-]|].
    intros H. by apply bind_Ok in H as ([? ?] & _ & [= <- <-]).
  - by destruct (_ || _).
Qed.

(** ** The pool *)



Lemma Put_items x p : sync.items (sync.Put x p) ≡ₚ x :: sync.items p.
Proof.
  unfold sync.Put, sync.items. destruct (sync.private p); cbn; [|done].
  apply perm_swap.
Qed.

(** ** Release *)

Lemma range_Release_heap cs : forall st,
  heap (range_by_value Release_body cs st) = heap st.
Proof. induction cs as [|x cs IH]; intros st; [done|]. cbn. by rewrite IH. Qed.

Lemma range_Release_items cs : forall st,
  sync.items (validatorSlicePool (range_by_value Release_body cs st))
  ≡ₚ (released <$> cs) ++ sync.items (validatorSlicePool st).
Proof.
  induction cs as [|x cs IH]; intros st; [done|].
  cbn [range_by_value Release_body]. rewrite IH. cbn [validatorSlicePool Validators].
  rewrite Put_items. cbn [fmap list_fmap app]. fold (released x).
  by rewrite Permutation_middle.
Qed.

(** ** The capacity of a decoded committee *)

Lemma storeSlice_cap doc dst h :
  doc <> json.SliceNull ->
  (mem.cap dst <= mem.cap (json.storeSlice doc dst h).1)%nat.
Proof.
  intros Hdoc. destruct doc as [| |es]; [done| |];
    unfold json.storeSlice, mem.newArray.
  - by destruct dst.
  - destruct dst as [|a n c]; cbn [mem.data mem.cap fst]; [lia|].
    case_decide; cbn [fst mem.cap]; lia.
Qed.

Lemma Unmarshal_strings_cap raw dst h dst' h' :
  raw_value raw -> json.Unmarshal_strings raw dst h = Ok (dst', h') ->
  (mem.cap dst <= mem.cap dst')%nat.
Proof.
  intros Hraw H. unfold json.Unmarshal_strings in H.
  apply bind_Ok in H as ([doc rest] & Hdoc & H).
  apply bind_Ok in H as (_ & _ & H).
  pose proof (storeSlice_cap doc dst h (decodeSlice_raw _ _ _ Hraw Hdoc)) as Hcap.
  injection H as H. by rewrite H in Hcap.
Qed.

(** Whatever the outcome of the decode, the record holds a slice at
    least as large as the one taken from the pool, and the pool is what
    [Get] left. *)
Lemma Committee_UnmarshalJSON_pool body c st :
  let '(pooledSlice, pool, _) :=
    sync.Get validatorSlicePool_New (validatorSlicePool st) (heap st) in
  let '(_, c', st') := Committee_UnmarshalJSON body c st in
  (mem.cap pooledSlice <= mem.cap (Validators c'))%nat
  /\ validatorSlicePool st' = pool.
Proof.
  unfold Committee_UnmarshalJSON.
  destruct (sync.Get _ _ _) as [[pooledSlice pool] h].
  destruct (json.Unmarshal_rawmap body ∅) as [committee|e] eqn:Hmap; [|done].
  destruct (deref (committee !! "index")) as [raw_index|]; [|done].
  destruct (json.Unmarshal_with _ raw_index); [|done].
  destruct (deref (committee !! "slot")) as [raw_slot|]; [|done].
  destruct (json.Unmarshal_with _ raw_slot); [|done].
  destruct (deref (committee !! "validators")) as [raw_validators|] eqn:Hv; [|done].
  cbn [Validators heap].
  destruct (json.Unmarshal_strings _ _ _) as [[validators h']|e] eqn:Hdec; [|done].
  split; [|done]. cbn [Validators].
  eapply Unmarshal_strings_cap; [|exact Hdec].
  eapply Unmarshal_rawmap_raw; [exact Hmap | exact Hv].
Qed.


Lemma Data_at_elem c idx committee :
  Data_at c idx = Returned committee -> committee ∈ Data c.
Proof.
  unfold Data_at. destruct (idx <? 0); [done|].
  destruct (Data c !! Z.to_nat idx) as [x|] eqn:E; [|done].
  intros [= <-]. by eapply list_elem_of_lookup_2.
Qed.

(** C10: [Release] leaves the batch as it was.  The receiver and the
    heap are unchanged, so [Validators(i)] returns the same slice header
    as before, with its length, and reading it gives the sequence it held
    before the call; the pool holds the length-zero view of the same
    array. *)
Theorem Release_leaves_batch_unchanged (c : CommitteesResponse) (st : state) :
  let '(c', st') := CommitteesResponse_Release c st in
  c' = c /\ heap st' = heap st
  /\ forall idx,
       CommitteesResponse_Validators c' idx = CommitteesResponse_Validators c idx
       /\ forall committee, Data_at c idx = Returned committee ->
            CommitteesResponse_Validators c' idx = Returned (Validators committee)
            /\ mem.elems (heap st') (Validators committee)
               = mem.elems (heap st) (Validators committee)
            /\ mem.reslice0 (Validators committee) ∈ sync.items (validatorSlicePool st')
            /\ mem.len (mem.reslice0 (Validators committee)) = 0%nat
            /\ mem.data (mem.reslice0 (Validators committee))
               = mem.data (Validators committee).
Proof.
  unfold CommitteesResponse_Release.
  pose proof (range_Release_heap (Data c) st) as Hheap.
  pose proof (range_Release_items (Data c) st) as Hitems.
  split; [done|]. split; [done|]. intros idx. split; [done|].
  intros committee Hat. split; [|split; [|split; [|split]]].
  - unfold CommitteesResponse_Validators. by rewrite Hat.
  - by rewrite Hheap.
  - rewrite Hitems. apply elem_of_app. left.
    apply (list_elem_of_fmap_2 released). by eapply Data_at_elem.
  - by destruct (Validators committee).
  - by destruct (Validators committee).
Qed.

Lemma Release_leaves_batch_unchanged_witness :
  let c := {| Data := [sample_decoded.1.2] |} in
  let st := sample_decoded.2 in
  let '(c', st') := CommitteesResponse_Release c st in
  CommitteesResponse_Validators c' 0 = Returned (mem.Slice 0 3 1024)
  /\ mem.elems (heap st') (mem.Slice 0 3 1024) = mem.elems (heap st) (mem.Slice 0 3 1024)
  /\ mem.Slice 0 0 1024 ∈ sync.items (validatorSlicePool st').
Proof.
  intros c st.
  pose proof (Release_leaves_batch_unchanged c st) as H.
  destruct (CommitteesResponse_Release c st) as [c' st'].
  destruct H as (_ & _ & H).
  destruct (H 0) as [_ H0].
  destruct (H0 (sample_decoded.1.2) eq_refl) as (H1 & H2 & H3 & _).
  split; [exact H1|]. split; [exact H2 | exact H3].
Defined.

(** ** Documents made of plain strings *)

Lemma append_assoc s t u : (s +:+ t) +:+ u = s +:+ (t +:+ u).
Proof. induction s as [|c s IH]; [done|]. by rewrite !append_cons, IH. Qed.

Lemma quoted_app k rest :
  json.quoted k +:+ rest = String json.dquote (k +:+ String json.dquote rest).
Proof. unfold json.quoted. by rewrite append_cons, append_assoc. Qed.

Lemma is_plain_inv c :
  is_plain c = true ->
  json.eqc c json.dquote = false /\ json.eqc c json.nul = false
  /\ json.eqc c json.backslash = false.
Proof. ascii_cases c; vm_compute; auto. Qed.

Lemma decodeString_quoted sn fn k rest :
  all_chars is_plain k = true ->
  json.decodeString sn fn (json.quoted k +:+ rest) = Ok (Some k, rest).
Proof.
  intros Hk. rewrite quoted_app. unfold json.decodeString.
  change (json.skipWhiteSpace (String json.dquote ?t)) with (String json.dquote t).
  cbv beta iota.
  change (json.eqc json.dquote "[") with false.
  change (json.eqc json.dquote "{") with false.
  change (json.eqc json.dquote "-" || in_range "0" "9" json.dquote) with false.
  change (json.eqc json.dquote json.dquote) with true.
  cbv iota. by rewrite (stringBytes_plain k rest Hk).
Qed.

Lemma skipString_plain v rest :
  all_chars is_plain v = true ->
  json.skipString (v +:+ String json.dquote rest) = Ok (v +:+ String json.dquote "", rest).
Proof.
  induction v as [|c v IH]; [done|]. cbn [all_chars].
  rewrite andb_true_iff. intros [Hc Hv]. rewrite !append_cons.
  destruct (is_plain_inv c Hc) as (H1 & H2 & H3).
  cbn [json.skipString]. by rewrite H1, H2, H3, (IH Hv).
Qed.

Lemma skipValue_quoted v rest :
  all_chars is_plain v = true ->
  json.skipValue (json.quoted v +:+ rest) = Ok (json.quoted v, rest).
Proof.
  intros Hv. rewrite quoted_app. unfold json.skipValue.
  change (json.skipWhiteSpace (String json.dquote ?t)) with (String json.dquote t).
  cbv beta iota.
  change (json.eqc json.dquote "{") with false.
  change (json.eqc json.dquote "[") with false.
  change (json.eqc json.dquote json.dquote) with true.
  cbv iota. by rewrite (skipString_plain v rest Hv).
Qed.

Lemma skipNested_in_string n v rest :
  all_chars is_plain v = true ->
  json.skipNested "[" "]" n true (v +:+ String json.dquote rest) =
  '(raw, r) ← json.skipNested "[" "]" n false rest;
  Ok (v +:+ String json.dquote raw, r).
Proof.
  induction v as [|c v IH].
  - intros _. rewrite !append_nil_l. cbn [json.skipNested].
    change (json.eqc json.dquote json.nul) with false.
    change (json.eqc json.dquote json.dquote) with true. cbv iota.
    by destruct (json.skipNested "[" "]" n false rest) as [[??]|].
  - cbn [all_chars]. rewrite andb_true_iff. intros [Hc Hv]. rewrite !append_cons.
    destruct (is_plain_inv c Hc) as (H1 & H2 & H3).
    cbn [json.skipNested]. rewrite H1, H2, H3, (IH Hv).
    by destruct (json.skipNested "[" "]" n false rest) as [[??]|].
Qed.

Lemma skipNested_quoted n v rest :
  all_chars is_plain v = true ->
  json.skipNested "[" "]" n false (json.quoted v +:+ rest) =
  '(raw, r) ← json.skipNested "[" "]" n false rest;
  Ok (json.quoted v +:+ raw, r).
Proof.
  intros Hv. rewrite quoted_app. cbn [json.skipNested].
  change (json.eqc json.dquote json.nul) with false.
  change (json.eqc json.dquote "[") with false.
  change (json.eqc json.dquote "]") with false.
  change (json.eqc json.dquote json.dquote) with true. cbv iota.
  rewrite (skipNested_in_string n v rest Hv).
  destruct (json.skipNested "[" "]" n false rest) as [[raw r]|]; [|done].
  cbn. by rewrite quoted_app.
Qed.

Lemma skipNested_elems vs rest :
  plain_strings vs ->
  json.skipNested "[" "]" 0 false (render_elems vs +:+ rest) = Ok (render_elems vs, rest).
Proof.
  induction 1 as [|v vs Hv Hvs IH]; [done|].
  destruct vs as [|v' vs].
  - cbn [render_elems]. rewrite append_assoc, (skipNested_quoted 0 v _ Hv). done.
  - change (render_elems (v :: v' :: vs))
      with (json.quoted v +:+ String "," (render_elems (v' :: vs))).
    rewrite append_assoc, (skipNested_quoted 0 v _ Hv), append_cons.
    cbn [json.skipNested].
    change (json.eqc "," json.nul) with false.
    change (json.eqc "," "[") with false.
    change (json.eqc "," "]") with false.
    change (json.eqc "," json.dquote) with false. cbv iota.
    rewrite IH. done.
Qed.

Lemma skipValue_array vs rest :
  plain_strings vs ->
  json.skipValue (render_array vs +:+ rest) = Ok (render_array vs, rest).
Proof.
  intros Hvs. unfold render_array, json.skipValue. rewrite append_cons.
  change (json.skipWhiteSpace (String "[" ?t)) with (String "["%char t).
  cbv beta iota.
  change (json.eqc "[" "{") with false.
  change (json.eqc "[" "[") with true. cbv iota.
  by rewrite (skipNested_elems vs rest Hvs).
Qed.

Lemma append_nil_r s : s +:+ "" = s.
Proof. induction s as [|c s IH]; [done|]. by rewrite append_cons, IH. Qed.

Lemma String_length_app s t :
  String.length (s +:+ t) = (String.length s + String.length t)%nat.
Proof. induction s as [|c s IH]; [done|]. rewrite append_cons. cbn. by rewrite IH. Qed.

Lemma render_elems_head v vs rest :
  exists t, render_elems (v :: vs) +:+ rest = String json.dquote t.
Proof.
  destruct vs as [|v' vs].
  - cbn [render_elems]. rewrite append_assoc, quoted_app. by eexists.
  - change (render_elems (v :: v' :: vs))
      with (json.quoted v +:+ String "," (render_elems (v' :: vs))).
    rewrite append_assoc, quoted_app. by eexists.
Qed.

Lemma render_elems_length vs : (length vs <= String.length (render_elems vs))%nat.
Proof.
  induction vs as [|v vs IH]; [cbn; lia|].
  destruct vs as [|v' vs].
  - cbn [render_elems]. rewrite quoted_app. cbn. lia.
  - change (render_elems (v :: v' :: vs))
      with (json.quoted v +:+ String "," (render_elems (v' :: vs))).
    rewrite quoted_app. cbn [String.length]. rewrite String_length_app.
    cbn [String.length length] in *. lia.
Qed.

(** The element loop reads the strings of the array in the order of the
    document. *)
Lemma decodeSlice_elems_render vs : forall fuel v rest,
  plain_strings (v :: vs) -> (length (v :: vs) <= fuel)%nat ->
  json.decodeSlice_elems fuel (render_elems (v :: vs) +:+ rest)
  = Ok (Some <$> (v :: vs), rest).
Proof.
  induction vs as [|v' vs IH]; intros fuel v rest Hp Hfuel;
    (destruct fuel as [|fuel]; [cbn in Hfuel; lia|]);
    apply Forall_cons in Hp as [Hv Hvs].
  - cbn [render_elems json.decodeSlice_elems].
    rewrite append_assoc, (decodeString_quoted "" "" v _ Hv). reflexivity.
  - change (render_elems (v :: v' :: vs))
      with (json.quoted v +:+ String "," (render_elems (v' :: vs))).
    cbn [json.decodeSlice_elems].
    rewrite append_assoc, (decodeString_quoted "" "" v _ Hv), append_cons.
    cbn [mbind result_bind].
    change (json.skipWhiteSpace (String "," ?t)) with (String ","%char t).
    cbv beta iota.
    change (json.eqc "," "]") with false. change (json.eqc "," ",") with true.
    cbv iota. rewrite IH; [done | done | cbn in *; lia].
Qed.

Lemma decodeSlice_render vs rest :
  plain_strings vs ->
  json.decodeSlice (render_array vs +:+ rest) = Ok (doc_of vs, rest).
Proof.
  intros Hp. unfold render_array, json.decodeSlice. rewrite append_cons.
  change (json.skipWhiteSpace (String "[" ?t)) with (String "["%char t).
  cbv beta iota.
  change (json.eqc "[" "n") with false. change (json.eqc "[" "[") with true.
  cbv iota. destruct vs as [|v vs]; [done|].
  destruct (render_elems_head v vs rest) as [t Ht].
  pose proof (render_elems_length (v :: vs)) as Hlen.
  assert (length (v :: vs) <= String.length (render_elems (v :: vs) +:+ rest))%nat
    as Hfuel by (rewrite String_length_app; lia).
  pose proof (decodeSlice_elems_render vs _ v rest Hp Hfuel) as Hdec.
  rewrite Ht in *.
  change (json.skipWhiteSpace (String json.dquote t)) with (String json.dquote t).
  cbv iota. change (json.eqc json.dquote "]") with false. cbv iota.
  by rewrite Hdec.
Qed.

(** ** Storing decoded elements *)

Lemma imap_Some {A} (f : nat -> option A -> A) (vs : list A) :
  (forall i v, f i (Some v) = v) -> imap f (Some <$> vs) = vs.
Proof.
  revert f. induction vs as [|v vs IH]; intros f Hf; [done|].
  cbn. rewrite Hf. f_equal. apply IH. intros i w. apply Hf.
Qed.

Lemma imap_resolve_Some old vs : imap (json.resolve old) (Some <$> vs) = vs.
Proof. by apply imap_Some. Qed.

Lemma elems_new_array h vs :
  let '(a, h') := mem.newArray (length vs) h in
  mem.elems (mem.store a vs h') (mem.Slice a (length vs) (length vs)) = vs.
Proof.
  unfold mem.newArray, mem.store, mem.elems, mem.array_of. cbn.
  rewrite lookup_alter_eq, lookup_insert_eq. cbn.
  by rewrite take_app_length.
Qed.

Lemma elems_in_place h a n c vs :
  backed h (mem.Slice a n c) -> (length vs <= c)%nat ->
  mem.elems (mem.store a vs h) (mem.Slice a (length vs) c) = vs.
Proof.
  intros (arr & Harr & Hlen) Hle.
  unfold mem.store, mem.elems, mem.array_of. cbn.
  rewrite lookup_alter_eq, Harr. cbn. by rewrite take_app_length.
Qed.


(** ** Decoding the fields of a committee *)

Lemma ParseUint_FormatUint u :
  0 <= u < 2 ^ 64 -> strconv.ParseUint (strconv.FormatUint u) = Ok u.
Proof.
  intros Hu. unfold strconv.FormatUint, strconv.ParseUint.
  pose proof (formatBits_loop_nonempty 20 u "" ltac:(by left)) as Hne.
  destruct (strconv.formatBits_loop 20 u "") as [|c s] eqn:E; [done|].
  rewrite <- E. rewrite ParseUint_loop_formatBits; [done | lia |].
  change (10 ^ Z.of_nat 20) with 100000000000000000000.
  change (2 ^ 64) with 18446744073709551616 in Hu. lia.
Qed.

Lemma FormatUint_plain u :
  0 <= u -> all_chars is_plain (strconv.FormatUint u) = true.
Proof.
  intros Hu. eapply all_chars_impl; [apply is_digit_plain|].
  apply formatBits_loop_digits; [lia | done].
Qed.

Lemma Unmarshal_with_quoted {A} (um : string -> result A) v :
  all_chars is_plain v = true ->
  json.Unmarshal_with um (json.quoted v) =
  match um (json.quoted v) with
  | Ok a => Ok a
  | Err e => Err (json.annotateError "" "" e)
  end.
Proof.
  intros Hv. unfold json.Unmarshal_with, json.decodeUnmarshaler.
  rewrite <- (append_nil_r (json.quoted v)) at 1.
  rewrite (skipValue_quoted v "" Hv). cbn [mbind result_bind].
  by destruct (um (json.quoted v)) as [a|e].
Qed.

(** The decimal text of a 64-bit value, quoted, decodes to the value. *)
Lemma Unmarshal_uinteger_FormatUint u :
  0 <= u < 2 ^ 64 ->
  json.Unmarshal_with uinteger_UnmarshalJSON (json.quoted (strconv.FormatUint u)) = Ok u.
Proof.
  intros Hu. pose proof (FormatUint_plain u ltac:(lia)) as Hp.
  rewrite (Unmarshal_with_quoted _ _ Hp). unfold uinteger_UnmarshalJSON.
  rewrite (Unmarshal_string_quoted _ "" Hp). cbn [mbind result_bind].
  by rewrite (ParseUint_FormatUint u Hu).
Qed.

Lemma Unmarshal_strings_render vs dst h :
  plain_strings vs ->
  json.Unmarshal_strings (render_array vs) dst h = Ok (json.storeSlice (doc_of vs) dst h).
Proof.
  intros Hp. unfold json.Unmarshal_strings.
  rewrite <- (append_nil_r (render_array vs)) at 1.
  by rewrite (decodeSlice_render vs "" Hp).
Qed.

Lemma decodeRawPtr_quoted v rest :
  all_chars is_plain v = true ->
  json.decodeRawPtr (json.quoted v +:+ rest) = Ok (Some (json.quoted v), rest).
Proof.
  intros Hv. unfold json.decodeRawPtr, json.decodeUnmarshaler.
  pose proof (skipValue_quoted v rest Hv) as Hskip. rewrite quoted_app in *.
  change (json.skipWhiteSpace (String json.dquote ?t)) with (String json.dquote t).
  cbv beta iota. change (json.eqc json.dquote "n") with false. cbv iota.
  by rewrite Hskip.
Qed.

Lemma decodeRawPtr_array vs rest :
  plain_strings vs ->
  json.decodeRawPtr (render_array vs +:+ rest) = Ok (Some (render_array vs), rest).
Proof.
  intros Hp. unfold json.decodeRawPtr, json.decodeUnmarshaler.
  pose proof (skipValue_array vs rest Hp) as Hskip.
  unfold render_array in *. rewrite append_cons in *.
  change (json.skipWhiteSpace (String "[" ?t)) with (String "["%char t).
  cbv beta iota. change (json.eqc "[" "n") with false. cbv iota.
  by rewrite Hskip.
Qed.

Example committee_doc_sample : committee_doc 3 100 ["12"; "45"; "99"] = sample_committee.
Proof. reflexivity. Qed.

Lemma decodeRawMap_members_committee fuel index slot vs rest :
  (3 <= fuel)%nat -> 0 <= index -> 0 <= slot -> plain_strings vs ->
  json.decodeRawMap_members fuel
    (json.quoted "index" +:+ ":" +:+ json.quoted (strconv.FormatUint index)
     +:+ "," +:+ json.quoted "slot" +:+ ":" +:+ json.quoted (strconv.FormatUint slot)
     +:+ "," +:+ json.quoted "validators" +:+ ":" +:+ render_array vs +:+ "}" +:+ rest) ∅
  = Ok (committee_map index slot vs, rest).
Proof.
  intros Hfuel Hi Hs Hvs.
  destruct fuel as [|[|[|fuel]]]; [lia..|].
  (* index *)
  cbn [json.decodeRawMap_members].
  rewrite (decodeString_quoted "" "" "index" _ eq_refl). cbn [mbind result_bind].
  rewrite (append_cons ":" "").
  change (json.skipWhiteSpace (String ":" ?t)) with (String ":"%char t).
  cbv beta iota. change (negb (json.eqc ":" ":")) with false. cbv iota.
  rewrite append_nil_l, (decodeRawPtr_quoted _ _ (FormatUint_plain index Hi)).
  cbn [mbind result_bind]. rewrite (append_cons "," "").
  change (json.skipWhiteSpace (String "," ?t)) with (String ","%char t).
  cbv beta iota. change (json.eqc "," "}") with false.
  change (json.eqc "," ",") with true. cbv iota. rewrite append_nil_l.
  (* slot *)
  rewrite (decodeString_quoted "" "" "slot" _ eq_refl). cbn [mbind result_bind].
  rewrite (append_cons ":" "").
  change (json.skipWhiteSpace (String ":" ?t)) with (String ":"%char t).
  cbv beta iota. change (negb (json.eqc ":" ":")) with false. cbv iota.
  rewrite append_nil_l, (decodeRawPtr_quoted _ _ (FormatUint_plain slot Hs)).
  cbn [mbind result_bind]. rewrite (append_cons "," "").
  change (json.skipWhiteSpace (String "," ?t)) with (String ","%char t).
  cbv beta iota. change (json.eqc "," "}") with false.
  change (json.eqc "," ",") with true. cbv iota. rewrite append_nil_l.
  (* validators *)
  rewrite (decodeString_quoted "" "" "validators" _ eq_refl). cbn [mbind result_bind].
  rewrite (append_cons ":" "").
  change (json.skipWhiteSpace (String ":" ?t)) with (String ":"%char t).
  cbv beta iota. change (negb (json.eqc ":" ":")) with false. cbv iota.
  rewrite append_nil_l, (decodeRawPtr_array vs _ Hvs).
  cbn [mbind result_bind]. rewrite (append_cons "}" "").
  change (json.skipWhiteSpace (String "}" ?t)) with (String "}"%char t).
  cbv beta iota. change (json.eqc "}" "}") with true. cbv iota.
  by rewrite append_nil_l.
Qed.

Lemma Unmarshal_rawmap_committee index slot vs :
  0 <= index -> 0 <= slot -> plain_strings vs ->
  json.Unmarshal_rawmap (committee_doc index slot vs) ∅
  = Ok (committee_map index slot vs).
Proof.
  intros Hi Hs Hvs. unfold json.Unmarshal_rawmap, json.decodeRawMap, committee_doc.
  rewrite (append_cons "{" ""), append_nil_l.
  change (json.skipWhiteSpace (String "{" ?t)) with (String "{"%char t).
  cbv beta iota. change (json.eqc "{" "n") with false.
  change (json.eqc "{" "{") with true. cbv iota.
  match goal with
  | |- context [json.skipWhiteSpace ?b] => set (body := b)
  end.
  assert (exists t, body = String json.dquote t) as [t Ht].
  { unfold body. rewrite quoted_app. by eexists. }
  assert (3 <= String.length body)%nat as Hlen.
  { unfold body. rewrite quoted_app. cbn [String.length].
    rewrite String_length_app. cbn [String.length]. lia. }
  pose proof (decodeRawMap_members_committee (String.length body)
                index slot vs "" Hlen Hi Hs Hvs) as Hdec.
  rewrite (append_nil_r "}") in Hdec. fold body in Hdec.
  rewrite Ht in *.
  change (json.skipWhiteSpace (String json.dquote t)) with (String json.dquote t).
  cbv beta iota. change (json.eqc json.dquote "}") with false. cbv iota.
  by rewrite Hdec.
Qed.

(** ** Decoding a committee *)

(** With the three fields present in the map, the decode is the three
    field decodes in the order index, slot, validators: the first error
    is returned as it is, and success stores all three values. *)
Lemma Committee_UnmarshalJSON_fields body c0 st committee raw_index raw_slot raw_validators :
  json.Unmarshal_rawmap body ∅ = Ok committee ->
  deref (committee !! "index") = Some raw_index ->
  deref (committee !! "slot") = Some raw_slot ->
  deref (committee !! "validators") = Some raw_validators ->
  let '(pooledSlice, pool, h) :=
    sync.Get validatorSlicePool_New (validatorSlicePool st) (heap st) in
  let st1 := {| heap := h; validatorSlicePool := pool |} in
  Committee_UnmarshalJSON body c0 st =
  match json.Unmarshal_with uinteger_UnmarshalJSON raw_index with
  | Err err =>
      (Returned (Some err),
       {| Index := Index c0; Slot := Slot c0; Validators := pooledSlice |}, st1)
  | Ok index =>
      match json.Unmarshal_with uinteger_UnmarshalJSON raw_slot with
      | Err err =>
          (Returned (Some err),
           {| Index := index; Slot := Slot c0; Validators := pooledSlice |}, st1)
      | Ok slot =>
          match json.Unmarshal_strings raw_validators pooledSlice h with
          | Err err =>
              (Returned (Some err),
               {| Index := index; Slot := slot; Validators := pooledSlice |}, st1)
          | Ok (validators, h') =>
              (Returned None,
               {| Index := index; Slot := slot; Validators := validators |},
               {| heap := h'; validatorSlicePool := pool |})
          end
      end
  end.
Proof.
  intros Hmap Hi Hs Hv. unfold Committee_UnmarshalJSON.
  destruct (sync.Get _ _ _) as [[pooledSlice pool] h].
  rewrite Hmap, Hi. destruct (json.Unmarshal_with _ raw_index); [|done].
  rewrite Hs. destruct (json.Unmarshal_with _ raw_slot); [|done].
  rewrite Hv. cbn [Validators heap Index Slot validatorSlicePool].
  by destruct (json.Unmarshal_strings _ _ _) as [[??]|].
Qed.


Lemma Get_backed st :
  pool_backed st ->
  let '(b, _, h) :=
    sync.Get validatorSlicePool_New (validatorSlicePool st) (heap st) in
  backed h b.
Proof.
  intros Hst. unfold sync.Get. unfold pool_backed, sync.items in Hst.
  destruct (sync.private (validatorSlicePool st)) as [x|].
  - apply Hst. by left.
  - destruct (sync.shared (validatorSlicePool st)) as [|x rest].
    + unfold validatorSlicePool_New, mem.make0, mem.newArray, backed.
      cbn [mem.arrays]. exists (replicate 1024 "").
      split; [apply lookup_insert_eq | apply length_replicate].
    + apply Hst. by left.
Qed.

Lemma state0_backed : pool_backed state0.
Proof. intros s Hs. cbn in Hs. by apply elem_of_nil in Hs. Qed.



(** ** Absent and malformed committee fields *)




(** ** Decoding a voluntary-exit request *)

Ltac eval_eqc :=
  repeat match goal with
         | |- context [json.eqc ?a ?b] =>
             let r := eval vm_compute in (json.eqc a b) in
             lazymatch r with
             | true => change (json.eqc a b) with true
             | false => change (json.eqc a b) with false
             end
         end;
  cbn [negb orb andb]; cbv iota.

Ltac at_char c :=
  rewrite ?(append_cons c ""), ?append_nil_l;
  change (json.skipWhiteSpace (String c ?t)) with (String c t);
  cbv beta iota; eval_eqc.

Lemma ParseUint_loop_error s0 s : forall n e,
  strconv.ParseUint_loop s0 s n = Err e -> exists k, e = NumError "ParseUint" s0 k.
Proof.
  induction s as [|c s IH]; intros n e; [done|]. cbn [strconv.ParseUint_loop].
  destruct (strconv.digit_val c) as [d|]; [|intros [= <-]; by eexists].
  repeat match goal with
         | |- context [if ?b then _ else _] => destruct b
         end; try (intros [= <-]; by eexists).
  apply IH.
Qed.

Lemma ParseUint_error s e :
  strconv.ParseUint s = Err e -> json.annotateError "VoluntaryExitMessage" "Epoch" e = e.
Proof.
  unfold strconv.ParseUint. destruct s as [|c s].
  - by intros [= <-].
  - intros H. by apply ParseUint_loop_error in H as [k ->].
Qed.

Lemma Decode_error_pair s :
  (forall bs e, hex.Decode s = (bs, Some e) -> is_InvalidHex e = true)
  /\ (forall p bs e, hex.Decode (String p s) = (bs, Some e) -> is_InvalidHex e = true).
Proof.
  induction s as [|q s [IH1 IH2]].
  - split; [done|]. intros p bs e. cbn [hex.Decode].
    destruct (_ <? _); by intros [= <- <-].
  - split; [apply IH2|]. intros p bs e. cbn [hex.Decode].
    destruct (15 <? hex.reverseHexTable p); [by intros [= <- <-]|].
    destruct (15 <? hex.reverseHexTable q); [by intros [= <- <-]|].
    destruct (hex.Decode s) as [bs' err] eqn:E. intros [= <- ->]. by eapply IH1.
Qed.

(** The only errors of [hex.Decode] are the invalid byte and the odd
    length. *)
Lemma Decode_error s bs e :
  hex.Decode s = (bs, Some e) -> is_InvalidHex e = true.
Proof. apply Decode_error_pair. Qed.

Lemma annotateError_InvalidHex sn fn e :
  is_InvalidHex e = true -> json.annotateError sn fn e = e.
Proof. by destruct e. Qed.

Example exit_request_doc_sample :
  exit_request_doc "1" "5" (Some "0x0102")
  = js "{'message':{'epoch':'1','validator_index':'5'},'signature':'0x0102'}".
Proof. reflexivity. Qed.

Lemma quoted_head v rest : exists t, json.quoted v +:+ rest = String json.dquote t.
Proof. rewrite quoted_app. by eexists. Qed.

Ltac nonempty_cursor :=
  match goal with
  | |- context [match json.quoted ?v +:+ ?rest with EmptyString => _ | String _ _ => _ end] =>
      let t := fresh "t" in
      let Ht := fresh "Ht" in
      destruct (quoted_head v rest) as [t Ht];
      rewrite Ht; cbv iota; rewrite <- Ht; clear Ht t
  end.

Ltac eval_fields :=
  match goal with
  | |- context [?f (json.ToLower ?k)] =>
      let r := eval hnf in (f (json.ToLower k)) in
      change (f (json.ToLower k)) with r
  end;
  cbv beta iota.

Lemma decodeStruct_message epoch validator_index rest m :
  all_chars is_plain epoch = true -> all_chars is_plain validator_index = true ->
  json.decodeStruct VoluntaryExitMessage_fields
    (exit_message_doc epoch validator_index +:+ rest) m
  = e ← decode_epoch epoch;
    Ok ({| Epoch := e; ValidatorIndex := validator_index |}, rest).
Proof.
  intros He Hv. unfold exit_message_doc, json.decodeStruct.
  rewrite !append_assoc. at_char "{"%char.
  rewrite (quoted_app "epoch"). at_char json.dquote.
  cbn [String.length json.decodeStruct_fields]. at_char json.dquote.
  rewrite (stringBytes_plain "epoch" _ eq_refl). cbn [mbind result_bind].
  at_char ":"%char. nonempty_cursor. eval_fields.
  unfold json.decodeUnmarshaler.
  rewrite (skipValue_quoted epoch _ He). cbn [mbind result_bind].
  unfold uinteger_UnmarshalJSON. rewrite (Unmarshal_string_quoted epoch "" He).
  cbn [mbind result_bind]. unfold decode_epoch.
  destruct (strconv.ParseUint epoch) as [e|err] eqn:Ep.
  2:{ cbn [mbind result_bind]. by rewrite (ParseUint_error _ _ Ep). }
  cbn [mbind result_bind]. at_char ","%char.
  match goal with
  | |- context [json.decodeStruct_fields ?n] =>
      let fuel := fresh "fuel" in
      destruct n as [|fuel] eqn:Hfuel;
        [rewrite String_length_app in Hfuel; cbn in Hfuel; lia|]; clear Hfuel
  end.
  cbn [json.decodeStruct_fields].
  rewrite (quoted_app "validator_index"). at_char json.dquote.
  rewrite (stringBytes_plain "validator_index" _ eq_refl). cbn [mbind result_bind].
  at_char ":"%char. nonempty_cursor. eval_fields.
  rewrite (decodeString_quoted _ _ validator_index _ Hv). cbn [mbind result_bind].
  at_char "}"%char. reflexivity.
Qed.

Lemma message_doc_head epoch validator_index rest :
  exists t, exit_message_doc epoch validator_index +:+ rest = String "{" t.
Proof. unfold exit_message_doc. rewrite (append_cons "{" ""). by eexists. Qed.

(** Decoding a request document is decoding its epoch and, when it is
    there, its signature. *)
Lemma VoluntaryExitRequest_decode_doc epoch validator_index signature :
  all_chars is_plain epoch = true -> all_chars is_plain validator_index = true ->
  (forall t, signature = Some t -> all_chars is_plain t = true) ->
  VoluntaryExitRequest_decode (exit_request_doc epoch validator_index signature)
  = e ← decode_epoch epoch;
    s ← decode_signature signature;
    Ok {| Message := {| Epoch := e; ValidatorIndex := validator_index |};
          Signature := s |}.
Proof.
  intros He Hv Hs.
  unfold VoluntaryExitRequest_decode, json.Unmarshal_struct, json.decodeStruct,
    exit_request_doc.
  at_char "{"%char. rewrite (quoted_app "message"). at_char json.dquote.
  match goal with
  | |- context [json.decodeStruct_fields ?n] =>
      remember n as fuel eqn:Hn;
      assert (2 <= fuel)%nat as Hfuel
        by (subst fuel; cbn [String.length]; rewrite ?String_length_app;
            cbn [String.length]; lia);
      clear Hn; destruct fuel as [|[|fuel]]; [lia..|]; clear Hfuel
  end.
  cbn [json.decodeStruct_fields]. at_char json.dquote.
  rewrite (stringBytes_plain "message" _ eq_refl). cbn [mbind result_bind].
  at_char ":"%char.
  destruct (message_doc_head epoch validator_index (exit_signature_doc signature))
    as [t Ht].
  rewrite Ht. cbv iota. rewrite <- Ht. clear t Ht.
  eval_fields. rewrite (decodeStruct_message _ _ _ _ He Hv).
  destruct (decode_epoch epoch) as [e|err]; [|done].
  cbn [mbind result_bind Message Signature VoluntaryExitRequest_zero].
  destruct signature as [t|]; cbn [exit_signature_doc decode_signature].
  - specialize (Hs t eq_refl). at_char ","%char.
    cbn [json.decodeStruct_fields].
    rewrite (quoted_app "signature"). at_char json.dquote.
    rewrite (stringBytes_plain "signature" _ eq_refl). cbn [mbind result_bind].
    at_char ":"%char. nonempty_cursor. eval_fields.
    unfold json.decodeUnmarshaler.
    rewrite (skipValue_quoted t _ Hs). cbn [mbind result_bind].
    unfold byteArray_UnmarshalJSON, byteArray_UnmarshalJSON_with. rewrite (Unmarshal_string_quoted t "" Hs).
    cbn [mbind result_bind].
    destruct (hex.DecodeString (hexutil.RemovePrefix t)) as [value [err|]] eqn:Ed.
    + rewrite (annotateError_InvalidHex _ _ _ (Decode_error _ _ _ Ed)). done.
    + cbn [mbind result_bind]. at_char "}"%char. done.
  - at_char "}"%char. done.
Qed.




(** ** The invariant of the pool *)

Lemma newArray_closed n h :
  heap_closed h -> heap_closed (mem.newArray n h).2.
Proof.
  intros Hh a arr. unfold mem.newArray. cbn. rewrite lookup_insert.
  case_decide; [intros _; lia|]. intros Hl. apply Hh in Hl. lia.
Qed.

Lemma newArray_backed n h s :
  heap_closed h -> backed h s -> backed (mem.newArray n h).2 s.
Proof.
  intros Hh. destruct s as [|a l c]; [done|]. intros (arr & Harr & Hlen).
  exists arr. split; [|done]. unfold mem.newArray. cbn.
  rewrite lookup_insert_ne; [done|]. apply Hh in Harr. lia.
Qed.

Lemma newArray_fresh_backed n h l :
  backed (mem.newArray n h).2 (mem.Slice (mem.newArray n h).1 l n).
Proof.
  unfold mem.newArray. cbn. exists (replicate n "").
  split; [apply lookup_insert_eq | apply length_replicate].
Qed.

Lemma store_closed a vs h : heap_closed h -> heap_closed (mem.store a vs h).
Proof.
  intros Hh b arr. unfold mem.store. cbn. rewrite lookup_alter.
  case_decide; [subst b|apply Hh].
  destruct (mem.arrays h !! a) as [old|] eqn:E; [|done]. intros _. by eapply Hh.
Qed.

(** Writing no more strings than the array holds keeps every slice
    backed. *)
Lemma store_backed a vs h s :
  (forall arr, mem.arrays h !! a = Some arr -> (length vs <= length arr)%nat) ->
  backed h s -> backed (mem.store a vs h) s.
Proof.
  intros Hfit. destruct s as [|b l c]; [done|]. intros (arr & Harr & Hlen).
  unfold mem.store. cbn. rewrite lookup_alter. case_decide; [subst b|by exists arr].
  rewrite Harr. cbn. eexists. split; [done|].
  specialize (Hfit _ Harr). rewrite length_app, length_drop. lia.
Qed.

(** The store of the slice decoder keeps the heap closed and every
    backed slice backed, and the slice it returns is backed. *)
Lemma storeSlice_ok doc dst h :
  heap_closed h -> backed h dst ->
  let '(s', h') := json.storeSlice doc dst h in
  heap_closed h' /\ backed h' s' /\ forall s, backed h s -> backed h' s.
Proof.
  intros Hh Hdst. destruct doc as [| |es]; cbn [json.storeSlice].
  - done.
  - destruct dst as [|a l c]; cbn [mem.data mem.len mem.cap].
    + pose proof (newArray_closed 0 h Hh) as H1.
      pose proof (newArray_fresh_backed 0 h 0) as H2.
      pose proof (fun s => newArray_backed 0 h s Hh) as H3.
      by destruct (mem.newArray 0 h) as [a h'].
    + done.
  - set (vs := imap _ es). destruct dst as [|a l c]; cbn [mem.data mem.cap].
    + pose proof (newArray_closed (length vs) h Hh) as H1.
      pose proof (newArray_fresh_backed (length vs) h (length vs)) as H2.
      pose proof (fun s => newArray_backed (length vs) h s Hh) as H3.
      destruct (mem.newArray (length vs) h) as [a' h'] eqn:E. cbn [fst snd] in *.
      assert (forall arr, mem.arrays h' !! a' = Some arr -> (length vs <= length arr)%nat)
        as Hfit.
      { destruct H2 as (arr0 & Ha & Hl). intros arr Harr. rewrite Ha in Harr.
        injection Harr as <-. lia. }
      split; [by apply store_closed|]. split; [by apply store_backed|].
      intros s Hs. by apply store_backed, H3.
    + destruct Hdst as (arr0 & Ha & Hl). case_decide.
      * assert (forall arr, mem.arrays h !! a = Some arr -> (length vs <= length arr)%nat)
          as Hfit.
        { intros arr Harr. rewrite Ha in Harr. injection Harr as <-. lia. }
        split; [by apply store_closed|]. split.
        -- apply store_backed; [done|]. by exists arr0.
        -- intros s Hs. by apply store_backed.
      * pose proof (newArray_closed (length vs) h Hh) as H1.
        pose proof (newArray_fresh_backed (length vs) h (length vs)) as H2.
        pose proof (fun s => newArray_backed (length vs) h s Hh) as H3.
        destruct (mem.newArray (length vs) h) as [a' h'] eqn:E. cbn [fst snd] in *.
        assert (forall arr, mem.arrays h' !! a' = Some arr -> (length vs <= length arr)%nat)
          as Hfit.
        { destruct H2 as (arr1 & Ha1 & Hl1). intros arr Harr. rewrite Ha1 in Harr.
          injection Harr as <-. lia. }
        split; [by apply store_closed|]. split; [by apply store_backed|].
        intros s Hs. by apply store_backed, H3.
Qed.

(** [Get] keeps the invariant and returns a backed slice; the slices
    that were backed stay backed. *)
Lemma Get_ok st :
  state_ok st ->
  let '(b, pool, h) :=
    sync.Get validatorSlicePool_New (validatorSlicePool st) (heap st) in
  state_ok {| heap := h; validatorSlicePool := pool |} /\ backed h b
  /\ forall s, backed (heap st) s -> backed h s.
Proof.
  intros [Hh Hp]. unfold state_ok, pool_backed, sync.Get, sync.items in *.
  destruct (validatorSlicePool st) as [priv sh]. cbn [sync.private sync.shared] in *.
  destruct priv as [x|]; cbn [heap validatorSlicePool sync.private sync.shared].
  - split; [|split; [|done]].
    + split; [done|]. intros s Hs. apply Hp. by right.
    + apply Hp. by left.
  - destruct sh as [|x sh]; cbn [heap validatorSlicePool sync.private sync.shared].
    + unfold validatorSlicePool_New, mem.make0.
      pose proof (newArray_closed 1024 (heap st) Hh) as H1.
      pose proof (newArray_fresh_backed 1024 (heap st) 0) as H2.
      pose proof (fun s => newArray_backed 1024 (heap st) s Hh) as H3.
      destruct (mem.newArray 1024 (heap st)) as [a h'].
      cbn [heap validatorSlicePool sync.private sync.shared fst snd] in *.
      split; [|done]. split; [done|]. intros s Hs. by apply elem_of_nil in Hs.
    + split; [|split; [|done]].
      * split; [done|]. intros s Hs. apply Hp. by right.
      * apply Hp. by left.
Qed.

(** A committee decode keeps the invariant, whatever its outcome; the
    slice of the record is backed afterwards, and so is every slice that
    was backed before. *)
Lemma Committee_UnmarshalJSON_ok body c0 st :
  state_ok st ->
  let '(_, c, st') := Committee_UnmarshalJSON body c0 st in
  state_ok st' /\ backed (heap st') (Validators c)
  /\ forall s, backed (heap st) s -> backed (heap st') s.
Proof.
  intros Hst. pose proof (Get_ok st Hst) as HG. unfold Committee_UnmarshalJSON.
  destruct (sync.Get _ _ _) as [[pooledSlice pool] h].
  destruct HG as (Hst1 & Hb & Hmono).
  destruct (json.Unmarshal_rawmap body ∅) as [committee|e]; [|done].
  destruct (deref (committee !! "index")) as [raw_index|]; [|done].
  destruct (json.Unmarshal_with _ raw_index); [|done].
  destruct (deref (committee !! "slot")) as [raw_slot|]; [|done].
  destruct (json.Unmarshal_with _ raw_slot); [|done].
  destruct (deref (committee !! "validators")) as [raw_validators|]; [|done].
  cbn [Validators heap Index Slot validatorSlicePool].
  unfold json.Unmarshal_strings.
  destruct (json.decodeSlice raw_validators) as [[doc rest]|]; [|done].
  cbn [mbind result_bind]. destruct (json.validateEndBuf rest); [|done].
  cbn [mbind result_bind].
  destruct Hst1 as [Hh1 Hp1]. cbn [heap validatorSlicePool] in *.
  pose proof (storeSlice_ok doc pooledSlice h Hh1 Hb) as HS.
  destruct (json.storeSlice doc pooledSlice h) as [validators h'].
  destruct HS as (Hh' & Hb' & Hmono').
  split; [|split; [done|]].
  - split; [done|]. intros s Hs. apply Hmono', Hp1, Hs.
  - intros s Hs. by apply Hmono', Hmono.
Qed.

(** [Release] keeps the invariant when the slices of the batch are
    backed. *)
Lemma Release_ok c st :
  state_ok st -> Forall (fun committee => backed (heap st) (Validators committee)) (Data c) ->
  state_ok (CommitteesResponse_Release c st).2.
Proof.
  intros [Hh Hp] Hc. unfold CommitteesResponse_Release, state_ok, pool_backed. cbn [snd].
  rewrite range_Release_heap. split; [done|]. intros s.
  rewrite range_Release_items, elem_of_app, list_elem_of_fmap.
  intros [(committee & -> & Hin) | Hs]; [|by apply Hp].
  rewrite Forall_forall in Hc. specialize (Hc _ Hin). unfold released.
  by destruct (Validators committee).
Qed.

Lemma state0_ok : state_ok state0.
Proof.
  split; [|apply state0_backed]. intros a arr H. cbn in H. by rewrite lookup_empty in H.
Qed.

(** ** The fuel of the loops is never used up *)

Lemma skipWhiteSpace_length s :
  (String.length (json.skipWhiteSpace s) <= String.length s)%nat.
Proof.
  induction s as [|c s IH]; [done|]. cbn [json.skipWhiteSpace].
  destruct (json.is_space c); cbn [String.length]; lia.
Qed.

Lemma expect_length lit : forall s rest,
  json.expect lit s = Some rest ->
  (String.length rest + String.length lit = String.length s)%nat.
Proof.
  induction lit as [|a lit IH]; intros s rest; cbn [json.expect].
  - destruct s; intros [= <-]; cbn; lia.
  - destruct s as [|b s]; [done|]. destruct (json.eqc a b); [|done].
    intros H. apply IH in H. cbn [String.length]. lia.
Qed.

Lemma validateLiteral_length lit s rest :
  json.validateLiteral lit s = Ok rest ->
  (String.length rest + String.length lit = String.length s)%nat.
Proof.
  unfold json.validateLiteral. destruct (json.expect lit s) eqn:E; [|done].
  intros [= <-]. by apply expect_length.
Qed.

Ltac inv_bind :=
  repeat match goal with
         | H : (_ ≫= _) = Ok _ |- _ => apply bind_Ok in H as (? & ? & H)
         | p : (_ * _)%type |- _ => destruct p
         | H : Ok _ = Ok _ |- _ => injection H as <- <-
         | H : Err _ = Ok _ |- _ => discriminate H
         end.

Ltac case_if :=
  match goal with
  | |- context [if ?b then _ else _] => destruct b
  end.

Lemma stringBytes_length n : forall s p lit rest,
  (String.length s <= n)%nat ->
  json.stringBytes p s = Ok (lit, rest) -> (String.length rest < String.length s)%nat.
Proof.
  induction n as [|n IH]; intros s p lit rest Hn; destruct s as [|c s];
    cbn [String.length] in Hn; try lia; try done.
  cbn [json.stringBytes].
  destruct (json.eqc c json.dquote); [intros [= <- <-]; cbn; lia|].
  destruct (json.eqc c json.nul); [done|].
  destruct (json.eqc c json.backslash).
  - destruct s as [|e s]; [done|]. cbn [String.length] in Hn.
    destruct (json.eqc e "u").
    + destruct s as [|h1 [|h2 [|h3 [|h4 s]]]]; try done.
      destruct (json.hex4 h1 h2 h3 h4); [|done]. cbn [String.length] in Hn.
      destruct p; repeat case_if; intros H; inv_bind;
        match goal with
        | H : json.stringBytes _ s = Ok _ |- _ => apply IH in H; [|lia]
        end; cbn [String.length]; lia.
    + repeat case_if; intros H; inv_bind;
        match goal with
        | H : json.stringBytes _ s = Ok _ |- _ => apply IH in H; [|lia]
        end; cbn [String.length]; lia.
  - intros H. inv_bind.
    match goal with
    | H : json.stringBytes _ s = Ok _ |- _ => apply IH in H; [|lia]
    end. cbn [String.length]; lia.
Qed.

Lemma decodeString_length sn fn s o rest :
  json.decodeString sn fn s = Ok (o, rest) ->
  (String.length rest < String.length s)%nat.
Proof.
  unfold json.decodeString. pose proof (skipWhiteSpace_length s) as Hws.
  destruct (json.skipWhiteSpace s) as [|c s']; [done|]. cbn [String.length] in Hws.
  repeat case_if; try done; intros H; inv_bind;
    repeat match goal with
           | H : json.stringBytes _ _ = Ok _ |- _ =>
               apply (stringBytes_length _ _ _ _ _ (le_n _)) in H
           | H : json.validateLiteral _ _ = Ok _ |- _ =>
               apply validateLiteral_length in H
           end; cbn [String.length] in *; lia.
Qed.

Ltac use_IH IH :=
  match goal with
  | H : _ = Ok _ |- _ => apply IH in H; [|cbn [String.length] in *; lia]
  end; cbn [String.length] in *; lia.

Lemma skipString_length n : forall s raw rest,
  (String.length s <= n)%nat ->
  json.skipString s = Ok (raw, rest) -> (String.length rest < String.length s)%nat.
Proof.
  induction n as [|n IH]; intros s raw rest Hn; destruct s as [|c s];
    cbn [String.length] in Hn; try lia; try done.
  cbn [json.skipString].
  repeat case_if; try (intros [= <- <-]; cbn; lia); try done.
  - destruct s as [|e s]; [done|]. case_if; [done|].
    intros H. inv_bind. use_IH IH.
  - intros H. inv_bind. use_IH IH.
Qed.

Lemma skipNested_length opening closing n : forall s count instr raw rest,
  (String.length s <= n)%nat ->
  json.skipNested opening closing count instr s = Ok (raw, rest) ->
  (String.length rest < String.length s)%nat.
Proof.
  induction n as [|n IH]; intros s count instr raw rest Hn; destruct s as [|c s];
    cbn [String.length] in Hn; try lia; try done.
  cbn [json.skipNested].
  case_if; [done|]. destruct instr.
  - case_if; [intros H; inv_bind; use_IH IH|].
    case_if; [|intros H; inv_bind; use_IH IH].
    destruct s as [|e s]; [done|]. case_if; [done|].
    intros H. inv_bind. use_IH IH.
  - case_if; [intros H; inv_bind; use_IH IH|].
    case_if.
    { destruct count; [intros [= <- <-]; cbn; lia|]. intros H. inv_bind. use_IH IH. }
    case_if; intros H; inv_bind; use_IH IH.
Qed.

Lemma skipNumber_length s : forall raw rest,
  json.skipNumber s = (raw, rest) -> (String.length rest <= String.length s)%nat.
Proof.
  induction s as [|c s IH]; intros raw rest; cbn [json.skipNumber].
  - intros [= <- <-]. done.
  - case_if; [|intros [= <- <-]; done].
    destruct (json.skipNumber s) as [raw' rest'] eqn:E. intros [= <- <-].
    specialize (IH _ _ eq_refl). cbn [String.length]. lia.
Qed.

Lemma skipValue_length s raw rest :
  json.skipValue s = Ok (raw, rest) -> (String.length rest < String.length s)%nat.
Proof.
  unfold json.skipValue. pose proof (skipWhiteSpace_length s) as Hws.
  destruct (json.skipWhiteSpace s) as [|c s']; [done|]. cbn [String.length] in Hws.
  repeat case_if; try done; intros H;
    try (destruct (json.skipNumber s') as [raw' rest'] eqn:E;
         apply skipNumber_length in E);
    inv_bind;
    repeat match goal with
           | H : json.skipNested _ _ _ _ _ = Ok _ |- _ =>
               apply (skipNested_length _ _ _ _ _ _ _ _ (le_n _)) in H
           | H : json.skipString _ = Ok _ |- _ =>
               apply (skipString_length _ _ _ _ (le_n _)) in H
           | H : json.validateLiteral _ _ = Ok _ |- _ =>
               apply validateLiteral_length in H
           end; cbn [String.length] in *; lia.
Qed.

Lemma decodeRawPtr_length s v rest :
  json.decodeRawPtr s = Ok (v, rest) -> (String.length rest < String.length s)%nat.
Proof.
  unfold json.decodeRawPtr, json.decodeUnmarshaler.
  pose proof (skipWhiteSpace_length s) as Hws.
  destruct (json.skipWhiteSpace s) as [|c s']; [done|]. cbn [String.length] in Hws.
  case_if; intros H; inv_bind;
    repeat match goal with
           | H : json.skipValue _ = Ok _ |- _ => apply skipValue_length in H
           | H : json.validateLiteral _ _ = Ok _ |- _ =>
               apply validateLiteral_length in H
           end; cbn [String.length] in *; lia.
Qed.

(** The member loop of the map decoder gives the same result for every
    fuel that is at least the length of what is left of the document:
    the fuel is never what ends the loop. *)
Lemma decodeRawMap_members_fuel f1 : forall f2 s m,
  (String.length s <= f1)%nat -> (0 < f1)%nat ->
  (String.length s <= f2)%nat -> (0 < f2)%nat ->
  json.decodeRawMap_members f1 s m = json.decodeRawMap_members f2 s m.
Proof.
  induction f1 as [|f1 IH]; intros f2 s m H1 H1' H2 H2'; [lia|].
  destruct f2 as [|f2]; [lia|]. cbn [json.decodeRawMap_members].
  destruct (json.decodeString "" "" s) as [[k c1]|] eqn:Hk; [|done].
  apply decodeString_length in Hk. cbn [mbind result_bind].
  pose proof (skipWhiteSpace_length c1) as Hws1.
  destruct (json.skipWhiteSpace c1) as [|c c2]; [done|]. cbn [String.length] in Hws1.
  destruct (negb (json.eqc c ":")); [done|].
  destruct (json.decodeRawPtr c2) as [[v c3]|] eqn:Hv; [|done].
  apply decodeRawPtr_length in Hv. cbn [mbind result_bind].
  pose proof (skipWhiteSpace_length c3) as Hws3.
  destruct (json.skipWhiteSpace c3) as [|c' c4]; [done|]. cbn [String.length] in Hws3.
  destruct (json.eqc c' "}"); [done|]. destruct (json.eqc c' ","); [|done].
  apply IH; lia.
Qed.

Lemma decodeSlice_elems_fuel f1 : forall f2 s,
  (String.length s <= f1)%nat -> (0 < f1)%nat ->
  (String.length s <= f2)%nat -> (0 < f2)%nat ->
  json.decodeSlice_elems f1 s = json.decodeSlice_elems f2 s.
Proof.
  induction f1 as [|f1 IH]; intros f2 s H1 H1' H2 H2'; [lia|].
  destruct f2 as [|f2]; [lia|]. cbn [json.decodeSlice_elems].
  destruct (json.decodeString "" "" s) as [[e c1]|] eqn:He; [|done].
  apply decodeString_length in He. cbn [mbind result_bind].
  pose proof (skipWhiteSpace_length c1) as Hws1.
  destruct (json.skipWhiteSpace c1) as [|c c2]; [done|]. cbn [String.length] in Hws1.
  destruct (json.eqc c "]"); [done|]. destruct (json.eqc c ","); [|done].
  rewrite (IH f2); [done|lia..].
Qed.

Lemma decodeStruct_fields_length {A} (fields : string -> option (json.field_decoder A)) fuel :
  all_advance fields ->
  forall s acc acc' rest,
    json.decodeStruct_fields fuel fields s acc = Ok (acc', rest) ->
    (String.length rest < String.length s)%nat.
Proof.
  intros Hf. induction fuel as [|fuel IH]; intros s acc acc' rest; [done|].
  cbn [json.decodeStruct_fields]. pose proof (skipWhiteSpace_length s) as Hws.
  destruct (json.skipWhiteSpace s) as [|c c0]; [done|]. cbn [String.length] in Hws.
  destruct (negb (json.eqc c json.dquote)); [done|].
  destruct (json.stringBytes None c0) as [[key c1]|] eqn:Hk; [|done].
  apply (stringBytes_length _ _ _ _ _ (le_n _)) in Hk. cbn [mbind result_bind].
  pose proof (skipWhiteSpace_length c1) as Hws1.
  destruct (json.skipWhiteSpace c1) as [|c' c2]; [done|]. cbn [String.length] in Hws1.
  destruct (negb (json.eqc c' ":")); [done|].
  destruct c2 as [|d c2]; [done|].
  set (cur := String d c2) in *.
  assert (forall x c3,
            match fields (json.ToLower key) with
            | Some dec => dec cur acc
            | None => json.skipValue cur ≫= (fun '(_, c3) => Ok (acc, c3))
            end = Ok (x, c3) -> (String.length c3 < String.length cur)%nat) as Hval.
  { intros x c3. destruct (fields (json.ToLower key)) as [dec|] eqn:Hdec.
    - apply (Hf _ _ Hdec).
    - intros H. inv_bind.
      match goal with
      | H : json.skipValue _ = Ok _ |- _ => by apply skipValue_length in H
      end. }
  destruct (match fields (json.ToLower key) with Some _ => _ | None => _ end)
    as [[x c3]|]; [|done].
  specialize (Hval x c3 eq_refl). cbn [mbind result_bind].
  pose proof (skipWhiteSpace_length c3) as Hws3.
  destruct (json.skipWhiteSpace c3) as [|c'' c4]; [done|]. cbn [String.length] in Hws3.
  destruct (json.eqc c'' "}"); [intros [= <- <-]; lia|].
  destruct (json.eqc c'' ","); [|done].
  intros H. apply IH in H. lia.
Qed.

Lemma decodeStruct_advances {A} (fields : string -> option (json.field_decoder A)) :
  all_advance fields -> advances (json.decodeStruct fields).
Proof.
  intros Hf s acc acc' rest. unfold json.decodeStruct.
  pose proof (skipWhiteSpace_length s) as Hws.
  destruct (json.skipWhiteSpace s) as [|c s']; [done|]. cbn [String.length] in Hws.
  case_if.
  { intros H. inv_bind.
    match goal with
    | H : json.validateLiteral _ _ = Ok _ |- _ => apply validateLiteral_length in H
    end. cbn [String.length] in *. lia. }
  case_if; [|done].
  pose proof (skipWhiteSpace_length s') as Hws'.
  destruct (json.skipWhiteSpace s') as [|c' r]; [done|]. cbn [String.length] in Hws'.
  case_if; [intros [= <- <-]; lia|].
  intros H. apply (decodeStruct_fields_length _ _ Hf) in H. cbn [String.length] in H. lia.
Qed.

Lemma decodeUnmarshaler_length {A} sn fn (um : string -> result A) s a rest :
  json.decodeUnmarshaler sn fn um s = Ok (a, rest) ->
  (String.length rest < String.length s)%nat.
Proof.
  unfold json.decodeUnmarshaler. intros H. inv_bind.
  match goal with
  | H : json.skipValue _ = Ok _ |- _ => apply skipValue_length in H
  end.
  destruct (um _); [|done]. by injection H as <- <-.
Qed.

Lemma VoluntaryExitMessage_fields_advance : all_advance VoluntaryExitMessage_fields.
Proof.
  intros key dec. unfold VoluntaryExitMessage_fields.
  repeat case_if; intros [= <-] s acc acc' rest H; inv_bind.
  - match goal with
    | H : json.decodeUnmarshaler _ _ _ _ = Ok _ |- _ =>
        by apply decodeUnmarshaler_length in H
    end.
  - match goal with
    | H : json.decodeString _ _ _ = Ok _ |- _ => by apply decodeString_length in H
    end.
Qed.

Lemma VoluntaryExitRequest_fields_advance : all_advance VoluntaryExitRequest_fields.
Proof.
  intros key dec. unfold VoluntaryExitRequest_fields.
  repeat case_if; intros [= <-] s acc acc' rest H; inv_bind.
  - match goal with
    | H : json.decodeStruct _ _ _ = Ok _ |- _ =>
        by apply (decodeStruct_advances _ VoluntaryExitMessage_fields_advance) in H
    end.
  - match goal with
    | H : json.decodeUnmarshaler _ _ _ _ = Ok _ |- _ =>
        by apply decodeUnmarshaler_length in H
    end.
Qed.

(** The member loop of the struct decoder, like the one of the map
    decoder, does not depend on its fuel. *)
Lemma decodeStruct_fields_fuel {A} (fields : string -> option (json.field_decoder A)) f1 :
  all_advance fields ->
  forall f2 s acc,
    (String.length s <= f1)%nat -> (0 < f1)%nat ->
    (String.length s <= f2)%nat -> (0 < f2)%nat ->
    json.decodeStruct_fields f1 fields s acc = json.decodeStruct_fields f2 fields s acc.
Proof.
  intros Hf. induction f1 as [|f1 IH]; intros f2 s acc H1 H1' H2 H2'; [lia|].
  destruct f2 as [|f2]; [lia|]. cbn [json.decodeStruct_fields].
  pose proof (skipWhiteSpace_length s) as Hws.
  destruct (json.skipWhiteSpace s) as [|c c0]; [done|]. cbn [String.length] in Hws.
  destruct (negb (json.eqc c json.dquote)); [done|].
  destruct (json.stringBytes None c0) as [[key c1]|] eqn:Hk; [|done].
  apply (stringBytes_length _ _ _ _ _ (le_n _)) in Hk. cbn [mbind result_bind].
  pose proof (skipWhiteSpace_length c1) as Hws1.
  destruct (json.skipWhiteSpace c1) as [|c' c2]; [done|]. cbn [String.length] in Hws1.
  destruct (negb (json.eqc c' ":")); [done|].
  destruct c2 as [|d c2]; [done|].
  set (cur := String d c2) in *.
  assert (forall x c3,
            match fields (json.ToLower key) with
            | Some dec => dec cur acc
            | None => json.skipValue cur ≫= (fun '(_, c3) => Ok (acc, c3))
            end = Ok (x, c3) -> (String.length c3 < String.length cur)%nat) as Hval.
  { intros x c3. destruct (fields (json.ToLower key)) as [dec|] eqn:Hdec.
    - apply (Hf _ _ Hdec).
    - intros H. inv_bind.
      match goal with
      | H : json.skipValue _ = Ok _ |- _ => by apply skipValue_length in H
      end. }
  destruct (match fields (json.ToLower key) with Some _ => _ | None => _ end)
    as [[x c3]|]; [|done].
  specialize (Hval x c3 eq_refl). cbn [mbind result_bind].
  pose proof (skipWhiteSpace_length c3) as Hws3.
  destruct (json.skipWhiteSpace c3) as [|c'' c4]; [done|]. cbn [String.length] in Hws3.
  destruct (json.eqc c'' "}"); [done|]. destruct (json.eqc c'' ","); [|done].
  apply IH; lia.
Qed.

(** ** The accessors of a batch *)

(** X1: [Count] is the number of records; [Index], [Slot] and
    [Validators] return the fields of the record at [idx] when
    [0 <= idx < Count()], and panic with an index out of range for every
    other [idx]. *)
Theorem accessors_bounds (c : CommitteesResponse) (idx : Z) :
  (0 <= idx < CommitteesResponse_Count c ->
   exists committee,
     Data c !! Z.to_nat idx = Some committee
     /\ CommitteesResponse_Index c idx = Returned (Index committee)
     /\ CommitteesResponse_Slot c idx = Returned (Slot committee)
     /\ CommitteesResponse_Validators c idx = Returned (Validators committee))
  /\ (idx < 0 \/ CommitteesResponse_Count c <= idx ->
      CommitteesResponse_Index c idx = Panicked index_out_of_range
      /\ CommitteesResponse_Slot c idx = Panicked index_out_of_range
      /\ CommitteesResponse_Validators c idx = Panicked index_out_of_range).
Proof.
  unfold CommitteesResponse_Count, CommitteesResponse_Index, CommitteesResponse_Slot,
    CommitteesResponse_Validators, Data_at.
  split.
  - intros Hidx. destruct (Z.ltb_spec idx 0); [lia|].
    destruct (lookup_lt_is_Some_2 (Data c) (Z.to_nat idx)) as [committee Hc]; [lia|].
    exists committee. by rewrite Hc.
  - intros Hidx. destruct (Z.ltb_spec idx 0); [done|].
    rewrite (lookup_ge_None_2 (Data c) (Z.to_nat idx)); [done | lia].
Qed.

Lemma accessors_bounds_witness :
  CommitteesResponse_Slot {| Data := [sample_decoded.1.2] |} 0 = Returned 100
  /\ CommitteesResponse_Slot {| Data := [sample_decoded.1.2] |} 1
     = Panicked index_out_of_range.
Proof.
  split.
  - destruct (proj1 (accessors_bounds {| Data := [sample_decoded.1.2] |} 0))
      as (committee & Hc & _ & Hs & _); [by vm_compute|].
    injection Hc as <-. exact Hs.
  - apply (proj2 (accessors_bounds {| Data := [sample_decoded.1.2] |} 1)).
    right. by vm_compute.
Defined.

(** ** Panics of the committee decode *)

Ltac absurd_fields :=
  intros;
  repeat match goal with
         | H : _ \/ _ |- _ => destruct H
         | H : exists _, _ |- _ => destruct H
         | H : _ /\ _ |- _ => destruct H
         | H : Ok _ = Ok _ |- _ => injection H as <-
         end;
  congruence.

(** X2: the committee decode panics exactly when the body is an object
    (or [null]) in which the first field that does not decode, in the
    order index, slot, validators, is a field that is absent or null: the
    entry of the map is then the nil pointer that the code dereferences.
    It never panics otherwise. *)
Theorem Committee_UnmarshalJSON_panics_iff (body : string) (c0 : Committee) (st : state) :
  (exists reason, Committee_outcome body c0 st = Panicked reason) <->
  exists committee,
    json.Unmarshal_rawmap body ∅ = Ok committee
    /\ (deref (committee !! "index") = None
        \/ exists raw_index index,
             deref (committee !! "index") = Some raw_index
             /\ json.Unmarshal_with uinteger_UnmarshalJSON raw_index = Ok index
             /\ (deref (committee !! "slot") = None
                 \/ exists raw_slot slot,
                      deref (committee !! "slot") = Some raw_slot
                      /\ json.Unmarshal_with uinteger_UnmarshalJSON raw_slot = Ok slot
                      /\ deref (committee !! "validators") = None)).
Proof.
  unfold Committee_outcome, Committee_UnmarshalJSON.
  destruct (sync.Get _ _ _) as [[pooledSlice pool] h].
  destruct (json.Unmarshal_rawmap body ∅) as [committee|e];
    [|split; [by intros [? ?] | by intros (? & ? & _)]].
  destruct (deref (committee !! "index")) as [raw_index|] eqn:Hi;
    [|split; [intros _; eauto 15 | intros _; by eexists]].
  destruct (json.Unmarshal_with _ raw_index) as [index|e] eqn:Ei;
    [|split; [by intros [? ?] | absurd_fields]].
  destruct (deref (committee !! "slot")) as [raw_slot|] eqn:Hs;
    [|split; [intros _; eauto 15 | intros _; by eexists]].
  destruct (json.Unmarshal_with _ raw_slot) as [slot|e] eqn:Es;
    [|split; [by intros [? ?] | absurd_fields]].
  destruct (deref (committee !! "validators")) as [raw_validators|] eqn:Hv;
    [|split; [intros _; eauto 20 | intros _; by eexists]].
  cbn [Validators heap].
  destruct (json.Unmarshal_strings _ _ _) as [[??]|];
    (split; [by intros [? ?] | absurd_fields]).
Qed.

Lemma Committee_UnmarshalJSON_panics_iff_witness :
  exists reason,
    Committee_outcome committee_without_index Committee_zero state0 = Panicked reason.
Proof.
  apply (Committee_UnmarshalJSON_panics_iff committee_without_index Committee_zero state0).
  eexists. split; [vm_compute; reflexivity|]. left. reflexivity.
Defined.

(** ** The pool across a decode *)

Lemma Get_items New p h :
  let '(b, p', h') := sync.Get New p h in
  (sync.items p = [] /\ p' = p /\ (b, h') = New h)
  \/ (sync.items p = b :: sync.items p' /\ h' = h).
Proof.
  unfold sync.Get, sync.items. destruct p as [[x|] sh]; cbn.
  - by right.
  - destruct sh as [|x sh]; [|by right]. destruct (New h). by left.
Qed.

(** X3: the committee decode takes one slice from the pool and never
    puts one back: after the call, whatever its outcome, the pool is the
    one [Get] left, one slice shorter when it was not empty; when the
    call does not succeed the record keeps the slice taken from the pool,
    so that slice is lost to the pool unless the caller releases the
    record. *)
Theorem Committee_UnmarshalJSON_never_puts (body : string) (c0 : Committee) (st : state) :
  let '(pooledSlice, pool, _) :=
    sync.Get validatorSlicePool_New (validatorSlicePool st) (heap st) in
  let '(o, c, st') := Committee_UnmarshalJSON body c0 st in
  validatorSlicePool st' = pool
  /\ length (sync.items (validatorSlicePool st'))
     = (length (sync.items (validatorSlicePool st)) - 1)%nat
  /\ (o <> Returned None -> Validators c = pooledSlice).
Proof.
  pose proof (Get_items validatorSlicePool_New (validatorSlicePool st) (heap st)) as HG.
  unfold Committee_UnmarshalJSON.
  destruct (sync.Get _ _ _) as [[pooledSlice pool] h].
  assert (length (sync.items pool)
          = (length (sync.items (validatorSlicePool st)) - 1)%nat) as Hlen.
  { destruct HG as [(Hnil & -> & _) | (Hcons & _)].
    - by rewrite Hnil.
    - rewrite Hcons. cbn. lia. }
  destruct (json.Unmarshal_rawmap body ∅) as [committee|e]; [|done].
  destruct (deref (committee !! "index")) as [raw_index|]; [|done].
  destruct (json.Unmarshal_with _ raw_index); [|done].
  destruct (deref (committee !! "slot")) as [raw_slot|]; [|done].
  destruct (json.Unmarshal_with _ raw_slot); [|done].
  destruct (deref (committee !! "validators")) as [raw_validators|]; [|done].
  cbn [Validators heap].
  by destruct (json.Unmarshal_strings _ _ _) as [[??]|].
Qed.

Lemma Committee_UnmarshalJSON_never_puts_witness :
  let '(pooledSlice, pool, _) :=
    sync.Get validatorSlicePool_New (validatorSlicePool state0) (heap state0) in
  let '(o, c, st') := Committee_UnmarshalJSON committee_without_index Committee_zero state0 in
  validatorSlicePool st' = pool
  /\ length (sync.items (validatorSlicePool st'))
     = (length (sync.items (validatorSlicePool state0)) - 1)%nat
  /\ (o <> Returned None -> Validators c = pooledSlice).
Proof.
  exact (Committee_UnmarshalJSON_never_puts committee_without_index Committee_zero state0).
Defined.

(** ** Decoding a committee document *)

(** The decode of a committee document, in one equation: the slice is
    taken from the pool and the validators are stored into it. *)
Lemma Committee_UnmarshalJSON_doc index slot vs c0 st :
  0 <= index < 2 ^ 64 -> 0 <= slot < 2 ^ 64 -> plain_strings vs ->
  Committee_UnmarshalJSON (committee_doc index slot vs) c0 st =
  let '(pooledSlice, pool, h) :=
    sync.Get validatorSlicePool_New (validatorSlicePool st) (heap st) in
  let '(validators, h') := json.storeSlice (doc_of vs) pooledSlice h in
  (Returned None,
   {| Index := index; Slot := slot; Validators := validators |},
   {| heap := h'; validatorSlicePool := pool |}).
Proof.
  intros Hi Hs Hvs.
  pose proof (Committee_UnmarshalJSON_fields (committee_doc index slot vs) c0 st
                (committee_map index slot vs)
                (json.quoted (strconv.FormatUint index))
                (json.quoted (strconv.FormatUint slot))
                (render_array vs)
                (Unmarshal_rawmap_committee index slot vs ltac:(lia) ltac:(lia) Hvs)
                eq_refl eq_refl eq_refl) as Hdec.
  destruct (sync.Get _ _ _) as [[pooledSlice pool] h].
  rewrite (Unmarshal_uinteger_FormatUint index Hi),
    (Unmarshal_uinteger_FormatUint slot Hs),
    (Unmarshal_strings_render vs _ _ Hvs) in Hdec.
  by destruct (json.storeSlice (doc_of vs) pooledSlice h) as [validators h'].
Qed.

(** X4: a committee decode reuses the array of the pooled slice exactly
    when the validators fit its capacity: the record then holds the same
    array with the same capacity and the new length.  When there are
    more validators than the capacity, the record gets a new array of
    exactly their number, and the array of the pooled slice is left as it
    was. *)
Theorem Committee_UnmarshalJSON_reuse_or_grow index slot vs c0 st :
  0 <= index < 2 ^ 64 -> 0 <= slot < 2 ^ 64 -> plain_strings vs -> state_ok st ->
  let '(pooledSlice, _, h) :=
    sync.Get validatorSlicePool_New (validatorSlicePool st) (heap st) in
  let '(_, c, st') := Committee_UnmarshalJSON (committee_doc index slot vs) c0 st in
  forall a n k, pooledSlice = mem.Slice a n k ->
    ((length vs <= k)%nat -> Validators c = mem.Slice a (length vs) k)
    /\ ((k < length vs)%nat ->
        Validators c = mem.Slice (mem.next h) (length vs) (length vs)
        /\ mem.arrays (heap st') !! a = mem.arrays h !! a).
Proof.
  intros Hi Hs Hvs Hst.
  rewrite (Committee_UnmarshalJSON_doc index slot vs c0 st Hi Hs Hvs).
  pose proof (Get_ok st Hst) as HG.
  destruct (sync.Get _ _ _) as [[pooledSlice pool] h].
  destruct HG as ([Hclosed _] & Hb & _). cbn [heap] in Hclosed.
  destruct (json.storeSlice (doc_of vs) pooledSlice h) as [validators h'] eqn:Hstore.
  intros a n k ->. cbn [Validators heap].
  destruct Hb as (arr & Harr & Hlen). pose proof (Hclosed _ _ Harr) as Hlt.
  destruct vs as [|v vs]; cbn [doc_of json.storeSlice mem.data mem.cap] in Hstore.
  - injection Hstore as <- <-. cbn [length]. split; [done | lia].
  - rewrite imap_resolve_Some in Hstore. case_decide.
    + injection Hstore as <- <-. split; [done | lia].
    + unfold mem.newArray, mem.store in Hstore. injection Hstore as <- <-.
      split; [lia|]. intros _. split; [done|]. cbn [mem.arrays].
      rewrite lookup_alter_ne, lookup_insert_ne; [done | lia | lia].
Qed.

Lemma Committee_UnmarshalJSON_reuse_or_grow_witness :
  let '(_, c, _) :=
    Committee_UnmarshalJSON (committee_doc 3 100 ["12"; "45"; "99"]) Committee_zero state0 in
  Validators c = mem.Slice 0 3 1024.
Proof.
  pose proof (Committee_UnmarshalJSON_reuse_or_grow 3 100 ["12"; "45"; "99"]
                Committee_zero state0 ltac:(lia) ltac:(lia)
                ltac:(repeat constructor) state0_ok) as H.
  cbn [sync.Get state0 validatorSlicePool heap sync.empty sync.private sync.shared] in H.
  change (validatorSlicePool_New (mem.Heap ∅ 0))
    with (mem.Slice 0 0 1024, mem.Heap (<[0%nat := replicate 1024 ""]> ∅) 1) in H.
  cbv iota beta in H.
  destruct (Committee_UnmarshalJSON _ _ _) as [[o c] st'].
  apply (H 0%nat 0%nat 1024%nat eq_refl). cbn. lia.
Defined.

(** ** Reading a record after its release *)



(** ** Records decoded without a release in between *)

Lemma pool_arrays_below st :
  state_ok st -> forall a, a ∈ pool_arrays (validatorSlicePool st) ->
  (a < mem.next (heap st))%nat.
Proof.
  intros [Hclosed Hp] a. unfold pool_arrays. rewrite list_elem_of_omap.
  intros (s & Hs & Hd). apply Hp in Hs. destruct s as [|a' n k]; [done|].
  injection Hd as ->. destruct Hs as (arr & Harr & _). by eapply Hclosed.
Qed.

(** The array of the slice the store returns is the array of the target
    or a new one. *)
Lemma storeSlice_array doc dst h :
  doc <> json.SliceNull -> heap_closed h -> backed h dst ->
  let '(v, h') := json.storeSlice doc dst h in
  exists a, mem.data v = Some a
    /\ (a < mem.next h')%nat
    /\ (mem.data dst = Some a \/ (mem.next h <= a)%nat)
    /\ (mem.next h <= mem.next h')%nat.
Proof.
  intros Hdoc Hclosed Hb. destruct doc as [| |es]; [done| |];
    unfold json.storeSlice, mem.newArray, mem.store.
  - destruct dst as [|a n k]; cbn.
    + exists (mem.next h). repeat split; [lia | by right | lia].
    + destruct Hb as (arr & Harr & _). apply Hclosed in Harr.
      exists a. repeat split; [done | by left | done].
  - destruct dst as [|a n k]; cbn [mem.data mem.cap].
    + cbn. exists (mem.next h). repeat split; [lia | by right | lia].
    + destruct Hb as (arr & Harr & _). apply Hclosed in Harr. case_decide; cbn.
      * exists a. repeat split; [done | by left | done].
      * exists (mem.next h). repeat split; [lia | by right | lia].
Qed.

Lemma New_array h :
  let '(b, h') := validatorSlicePool_New h in
  mem.data b = Some (mem.next h) /\ mem.next h' = S (mem.next h).
Proof. unfold validatorSlicePool_New, mem.make0, mem.newArray. by cbn [mem.data mem.next]. Qed.

(** The array of a decoded record: it was in the pool before the decode
    or is a new one, and it is not in the pool after the decode. *)
Lemma Committee_UnmarshalJSON_array body c0 st c st' :
  state_ok st -> pool_distinct st ->
  Committee_UnmarshalJSON body c0 st = (Returned None, c, st') ->
  exists a, mem.data (Validators c) = Some a
    /\ (a < mem.next (heap st'))%nat
    /\ ((a ∈ pool_arrays (validatorSlicePool st)) \/ (mem.next (heap st) <= a)%nat)
    /\ (a ∉ pool_arrays (validatorSlicePool st'))
    /\ pool_distinct st'.
Proof.
  intros Hst Hnd.
  pose proof (pool_arrays_below st Hst) as Hbelow.
  pose proof (Get_ok st Hst) as HG.
  pose proof (Get_items validatorSlicePool_New (validatorSlicePool st) (heap st)) as HI.
  unfold Committee_UnmarshalJSON.
  destruct (sync.Get _ _ _) as [[b pool] h].
  destruct HG as ([Hclosed Hpb] & Hb & _). cbn [heap validatorSlicePool] in *.
  destruct (json.Unmarshal_rawmap body ∅) as [committee|e] eqn:Hmap; [|done].
  destruct (deref (committee !! "index")) as [raw_index|]; [|done].
  destruct (json.Unmarshal_with _ raw_index) as [index|]; [|done].
  destruct (deref (committee !! "slot")) as [raw_slot|]; [|done].
  destruct (json.Unmarshal_with _ raw_slot) as [slot|]; [|done].
  destruct (deref (committee !! "validators")) as [raw_validators|] eqn:Hv; [|done].
  cbn [Validators heap]. unfold json.Unmarshal_strings.
  destruct (json.decodeSlice raw_validators) as [[doc rest]|] eqn:Hdoc; [|done].
  cbn [mbind result_bind]. destruct (json.validateEndBuf rest) as [u|]; [|done].
  cbn [mbind result_bind].
  pose proof (decodeSlice_raw _ _ _ (Unmarshal_rawmap_raw _ _ _ _ Hmap Hv) Hdoc) as Hnn.
  pose proof (storeSlice_array doc b h Hnn Hclosed Hb) as HS.
  destruct (json.storeSlice doc b h) as [v h'].
  destruct HS as (a & Ha & Hlt & Hfrom & Hnext).
  intros [= <- <-]. cbn [Validators heap validatorSlicePool].
  exists a. split; [done|]. split; [done|].
  unfold pool_distinct, pool_arrays in *. cbn [validatorSlicePool heap] in *.
  destruct HI as [(Hnil & -> & HNew) | (Hcons & ->)].
  - rewrite Hnil in *. cbn [omap list_omap] in *.
    pose proof (New_array (heap st)) as HN. rewrite <- HNew in HN.
    destruct HN as [Hdb Hnh]. rewrite Hdb in Hfrom.
    split; [right; destruct Hfrom as [[= <-] | ?]; lia|].
    split; [apply not_elem_of_nil | apply NoDup_nil_2].
  - rewrite Hcons in *. cbn [omap list_omap] in *.
    destruct (mem.data b) as [ab|] eqn:Hab.
    + apply NoDup_cons in Hnd as [Hnotin Hnd'].
      split; [|split; [|done]].
      * destruct Hfrom as [[= <-] | ?]; [left; by left | by right].
      * destruct Hfrom as [[= <-] | Hge]; [done|].
        intros Hin. specialize (Hbelow a ltac:(by right)). lia.
    + split; [|split; [|done]].
      * destruct Hfrom as [? | ?]; [done | by right].
      * destruct Hfrom as [? | Hge]; [done|].
        intros Hin. specialize (Hbelow a Hin). lia.
Qed.

(** X6: two committee decodes with no release between them give
    records with different arrays: within a batch the records do not
    share a buffer. *)
Theorem decoded_records_do_not_share body1 body2 c0 c0' st c1 st1 c2 st2 :
  state_ok st -> pool_distinct st ->
  Committee_UnmarshalJSON body1 c0 st = (Returned None, c1, st1) ->
  Committee_UnmarshalJSON body2 c0' st1 = (Returned None, c2, st2) ->
  exists a1 a2,
    mem.data (Validators c1) = Some a1 /\ mem.data (Validators c2) = Some a2
    /\ a1 <> a2.
Proof.
  intros Hst Hnd H1 H2.
  pose proof (Committee_UnmarshalJSON_ok body1 c0 st Hst) as Hok. rewrite H1 in Hok.
  destruct Hok as (Hst1 & _ & _).
  destruct (Committee_UnmarshalJSON_array _ _ _ _ _ Hst Hnd H1)
    as (a1 & Ha1 & Hlt1 & _ & Hnotin1 & Hnd1).
  destruct (Committee_UnmarshalJSON_array _ _ _ _ _ Hst1 Hnd1 H2)
    as (a2 & Ha2 & _ & Hfrom2 & _ & _).
  exists a1, a2. split; [done|]. split; [done|].
  intros ->. destruct Hfrom2 as [Hin | Hge]; [done | lia].
Qed.

Lemma decoded_records_do_not_share_witness :
  exists a1 a2,
    mem.data (Validators sample_decoded.1.2) = Some a1
    /\ mem.data (Validators
                   (Committee_UnmarshalJSON sample_committee Committee_zero
                      sample_decoded.2).1.2) = Some a2
    /\ a1 <> a2.
Proof.
  apply (decoded_records_do_not_share sample_committee sample_committee
           Committee_zero Committee_zero state0
           sample_decoded.1.2 sample_decoded.2 _
           (Committee_UnmarshalJSON sample_committee Committee_zero sample_decoded.2).2
           state0_ok).
  - apply NoDup_nil_2.
  - by vm_compute.
  - by vm_compute.
Defined.

(** ** Draining the pool *)




(** X8: [Release] is not idempotent: a second call on the same batch
    puts the slice of every record into the pool a second time; when a
    record of the batch holds an array, that array is then in the pool
    twice, and two later decodes can be handed the same array. *)
Theorem Release_twice_pools_twice (c : CommitteesResponse) (st : state) :
  let st1 := (CommitteesResponse_Release c st).2 in
  let st2 := (CommitteesResponse_Release c st1).2 in
  sync.items (validatorSlicePool st2)
    ≡ₚ ((released <$> Data c) ++ (released <$> Data c)
        ++ sync.items (validatorSlicePool st))%list
  /\ (forall committee,
        committee ∈ Data c -> Validators committee <> mem.nil -> ~ pool_distinct st2).
Proof.
  cbn zeta. unfold CommitteesResponse_Release. cbn [snd].
  set (st1 := range_by_value Release_body (Data c) st).
  pose proof (range_Release_items (Data c) st) as H1. fold st1 in H1.
  pose proof (range_Release_items (Data c) st1) as H2.
  assert (sync.items (validatorSlicePool (range_by_value Release_body (Data c) st1))
          ≡ₚ ((released <$> Data c) ++ (released <$> Data c)
              ++ sync.items (validatorSlicePool st))%list) as Hperm.
  { by rewrite H2, H1. }
  split; [exact Hperm|].
  intros committee Hin Hnn. unfold pool_distinct, pool_arrays. rewrite Hperm.
  rewrite !omap_app. intros Hnd. apply NoDup_app in Hnd as (_ & Hdisj & _).
  destruct (Validators committee) as [|a n k] eqn:Hv; [done|].
  assert (a ∈ omap mem.data (released <$> Data c)) as Ha.
  { apply list_elem_of_omap. exists (released committee). split.
    - by apply list_elem_of_fmap_2.
    - unfold released. by rewrite Hv. }
  apply (Hdisj a Ha). apply elem_of_app. by left.
Qed.

Lemma Release_twice_pools_twice_witness :
  ~ pool_distinct
      (CommitteesResponse_Release {| Data := [sample_decoded.1.2] |}
         (CommitteesResponse_Release {| Data := [sample_decoded.1.2] |}
            sample_decoded.2).2).2.
Proof.
  apply (proj2 (Release_twice_pools_twice {| Data := [sample_decoded.1.2] |}
                  sample_decoded.2) sample_decoded.1.2).
  - by left.
  - by vm_compute.
Defined.

(** ** The invariant of the committee code *)

(** X9: the committee code keeps its heap and its pool consistent.  On
    the initial state, after every committee decode whatever its outcome,
    and after every [Release] of a batch whose slices are backed, the
    heap is closed and every slice of the pool is backed by an array as
    long as its capacity; a decode leaves its record with a backed slice
    and keeps every backed slice backed. *)
Theorem committee_state_invariant :
  state_ok state0
  /\ (forall body c0 st,
        state_ok st ->
        let '(_, c, st') := Committee_UnmarshalJSON body c0 st in
        state_ok st' /\ backed (heap st') (Validators c)
        /\ forall s, backed (heap st) s -> backed (heap st') s)
  /\ (forall c st,
        state_ok st ->
        Forall (fun committee => backed (heap st) (Validators committee)) (Data c) ->
        state_ok (CommitteesResponse_Release c st).2).
Proof.
  split; [exact state0_ok|]. split.
  - intros body c0 st. apply Committee_UnmarshalJSON_ok.
  - intros c st. apply Release_ok.
Qed.

Lemma committee_state_invariant_witness :
  state_ok sample_decoded.2
  /\ state_ok (CommitteesResponse_Release {| Data := [sample_decoded.1.2] |}
                 sample_decoded.2).2.
Proof.
  pose proof (proj1 (proj2 committee_state_invariant)
                sample_committee Committee_zero state0
                (proj1 committee_state_invariant)) as H.
  change (Committee_UnmarshalJSON sample_committee Committee_zero state0)
    with sample_decoded in H.
  destruct sample_decoded as [[o c] st'] eqn:E. destruct H as (Hok & Hb & _).
  split; [exact Hok|].
  apply (proj2 (proj2 committee_state_invariant) {| Data := [c] |} st' Hok).
  by constructor.
Defined.

(** ** The range of the integer decoder *)

Lemma ParseUint_loop_zeros s0 k s :
  strconv.ParseUint_loop s0 (zeros k +:+ s) 0 = strconv.ParseUint_loop s0 s 0.
Proof.
  induction k as [|k IH]; [done|]. cbn [zeros]. rewrite append_cons.
  change (String "0" (zeros k +:+ s)) with (String (chr (code "0" + 0)) (zeros k +:+ s)).
  rewrite ParseUint_loop_digit by lia. exact IH.
Qed.

Lemma zeros_plain k : all_chars is_plain (zeros k) = true.
Proof. induction k as [|k IH]; [done|]. cbn [zeros all_chars]. by rewrite IH. Qed.

Lemma FormatUint_cons u : exists c s, strconv.FormatUint u = String c s.
Proof.
  pose proof (formatBits_loop_nonempty 20 u "" ltac:(by left)) as Hne.
  unfold strconv.FormatUint. destruct (strconv.formatBits_loop 20 u ""); [done|by eexists _, _].
Qed.

Lemma formatBits_loop_S fuel u acc :
  strconv.formatBits_loop (S fuel) u acc
  = if u <? 10 then String (chr (code "0" + u)) acc
    else strconv.formatBits_loop fuel (u / 10)
           (String (chr (code "0" + (u - u / 10 * 10))) acc).
Proof. reflexivity. Qed.

(** X10: the integer decoder covers the whole unsigned 64-bit range and
    nothing more: the quoted decimal text of every value below 2^64
    decodes to the value, with any number of leading zeros, and the text
    of a value from 2^64 on is rejected with the range error of
    [ParseUint]. *)
Theorem uinteger_UnmarshalJSON_range :
  (forall u k, 0 <= u < 2 ^ 64 ->
     uinteger_UnmarshalJSON (json.quoted (zeros k +:+ strconv.FormatUint u)) = Ok u)
  /\ (forall u, 2 ^ 64 <= u < 10 ^ 20 ->
        uinteger_UnmarshalJSON (json.quoted (strconv.FormatUint u))
        = Err (NumError "ParseUint" (strconv.FormatUint u) ErrRange)).
Proof.
  split.
  - intros u k Hu.
    assert (all_chars is_plain (zeros k +:+ strconv.FormatUint u) = true) as Hp.
    { by rewrite all_chars_app, zeros_plain, FormatUint_plain by lia. }
    unfold uinteger_UnmarshalJSON. rewrite (Unmarshal_string_quoted _ "" Hp).
    cbn [mbind result_bind].
    assert (strconv.ParseUint (zeros k +:+ strconv.FormatUint u) = Ok u) as ->; [|done].
    destruct (FormatUint_cons u) as (c & s & Hcs).
    unfold strconv.ParseUint.
    destruct (zeros k +:+ strconv.FormatUint u) as [|c' s'] eqn:E.
    { destruct k; [rewrite append_nil_l, Hcs in E | cbn [zeros] in E;
                                                    rewrite append_cons in E]; done. }
    rewrite <- E, ParseUint_loop_zeros. unfold strconv.FormatUint.
    rewrite ParseUint_loop_formatBits; [done | lia |].
    change (10 ^ Z.of_nat 20) with 100000000000000000000.
    change (2 ^ 64) with 18446744073709551616 in Hu. lia.
  - intros u Hu.
    change (2 ^ 64) with 18446744073709551616 in Hu.
    change (10 ^ 20) with 100000000000000000000 in Hu.
    pose proof (FormatUint_plain u ltac:(lia)) as Hp.
    unfold uinteger_UnmarshalJSON. rewrite (Unmarshal_string_quoted _ "" Hp).
    cbn [mbind result_bind].
    assert (strconv.ParseUint (strconv.FormatUint u)
            = Err (NumError "ParseUint" (strconv.FormatUint u) ErrRange)) as ->; [|done].
    assert (forall s0, strconv.ParseUint_loop s0 (strconv.FormatUint u) 0
                       = Err (NumError "ParseUint" s0 ErrRange)) as Hloop;
      [| destruct (FormatUint_cons u) as (c & s & Hcs); unfold strconv.ParseUint;
         destruct (strconv.FormatUint u) eqn:E; [done | apply Hloop]].
    intros s0. unfold strconv.FormatUint.
    rewrite (formatBits_loop_S 19).
    destruct (Z.ltb_spec u 10); [lia|].
    pose proof (Z.div_mod u 10 ltac:(lia)) as Hdm.
    pose proof (Z.mod_pos_bound u 10 ltac:(lia)) as Hmod.
    assert (0 <= u / 10 < 10000000000000000000) as Hq.
    { split; [apply Z.div_pos; lia | apply Z.div_lt_upper_bound; lia]. }
    rewrite ParseUint_loop_formatBits;
      [| change (2 ^ 64) with 18446744073709551616; lia
       | change (10 ^ Z.of_nat 19) with 10000000000000000000; lia].
    set (d := u - u / 10 * 10). assert (0 <= d < 10) as Hd by (unfold d; lia).
    cbn [strconv.ParseUint_loop]. rewrite (digit_val_digit d Hd).
    change (strconv.maxUint64 / 10 + 1) with 1844674407370955162.
    change (strconv.wrap64 (Z.shiftl 1 64 - 1)) with 18446744073709551615.
    unfold strconv.wrap64. change (2 ^ 64) with 18446744073709551616.
    destruct (Z.leb_spec 10 d); [lia|].
    destruct (Z.leb_spec 1844674407370955162 (u / 10)); [done|].
    rewrite (Z.mod_small (u / 10 * 10)) by lia.
    replace (u / 10 * 10 + d) with (u - 18446744073709551616 + 1 * 18446744073709551616)
      by (unfold d; lia).
    rewrite Z_mod_plus_full, (Z.mod_small (u - 18446744073709551616)) by lia.
    destruct (Z.ltb_spec (u - 18446744073709551616) (u / 10 * 10)); [done | lia].
Qed.

Lemma uinteger_UnmarshalJSON_range_witness :
  uinteger_UnmarshalJSON (json.quoted (zeros 2 +:+ strconv.FormatUint 18446744073709551615))
  = Ok 18446744073709551615
  /\ uinteger_UnmarshalJSON (json.quoted (strconv.FormatUint 18446744073709551616))
     = Err (NumError "ParseUint" (strconv.FormatUint 18446744073709551616) ErrRange).
Proof.
  split.
  - apply (proj1 uinteger_UnmarshalJSON_range 18446744073709551615 2%nat). lia.
  - apply (proj2 uinteger_UnmarshalJSON_range 18446744073709551616). lia.
Defined.

Lemma digit_val_is_digit c d :
  strconv.digit_val c = Some d -> d < 10 -> is_digit c = true.
Proof.
  unfold strconv.digit_val, is_digit.
  destruct (in_range "0" "9" c); [done|].
  destruct (in_range "a" "z" (strconv.lower c)) eqn:E; [|done].
  intros [= <-] Hd. unfold in_range in E.
  apply andb_true_iff in E as [E _]. apply Z.leb_le in E. lia.
Qed.

Lemma ParseUint_loop_Ok s0 s : forall n v,
  0 <= n < 2 ^ 64 -> strconv.ParseUint_loop s0 s n = Ok v ->
  all_chars is_digit s = true /\ 0 <= v < 2 ^ 64.
Proof.
  induction s as [|c s IH]; intros n v Hn; cbn [strconv.ParseUint_loop all_chars].
  - by intros [= <-].
  - destruct (strconv.digit_val c) as [d|] eqn:Ed; [|done].
    destruct (Z.leb_spec 10 d); [done|].
    destruct (_ <=? n); [done|].
    destruct (_ || _); [done|]. intros HOk.
    rewrite (digit_val_is_digit c d Ed) by lia.
    eapply IH; [|exact HOk]. unfold strconv.wrap64. apply Z.mod_pos_bound. lia.
Qed.

(** X11: the integer decoder reads unsigned decimal digits and nothing
    else: when it accepts a quoted text, the text is a non-empty run of
    the digits 0 to 9 (no sign, no space, no hex, no underscore) and the
    value is below 2^64; every other text is rejected with a
    [*strconv.NumError] of [ParseUint] carrying the text. *)
Theorem uinteger_UnmarshalJSON_digits_only s :
  all_chars is_plain s = true ->
  match uinteger_UnmarshalJSON (json.quoted s) with
  | Ok v => s <> "" /\ all_chars is_digit s = true /\ 0 <= v < 2 ^ 64
  | Err e => exists k, e = NumError "ParseUint" s k
  end.
Proof.
  intros Hp. unfold uinteger_UnmarshalJSON.
  rewrite (Unmarshal_string_quoted _ "" Hp). cbn [mbind result_bind].
  unfold strconv.ParseUint. destruct s as [|c s]; [by eexists|].
  destruct (strconv.ParseUint_loop _ _ 0) as [v|e] eqn:E.
  - apply ParseUint_loop_Ok in E; [|done]. by destruct E.
  - by apply ParseUint_loop_error in E.
Qed.

Lemma uinteger_UnmarshalJSON_digits_only_witness :
  match uinteger_UnmarshalJSON (json.quoted "+7") with
  | Ok v => "+7" <> "" /\ all_chars is_digit "+7" = true /\ 0 <= v < 2 ^ 64
  | Err e => exists k, e = NumError "ParseUint" "+7" k
  end.
Proof. apply (uinteger_UnmarshalJSON_digits_only "+7"). reflexivity. Defined.

(** ** What the scalar decoders take for a string *)

Lemma decodeString_skip sn fn s :
  json.decodeString sn fn s = json.decodeString sn fn (json.skipWhiteSpace s).
Proof. unfold json.decodeString. by rewrite skipWhiteSpace_idemp. Qed.

Lemma skipWhiteSpace_spaces ws s :
  all_chars json.is_space ws = true ->
  json.skipWhiteSpace (ws +:+ s) = json.skipWhiteSpace s.
Proof.
  induction ws as [|c ws IH]; [done|]. cbn [all_chars].
  rewrite andb_true_iff. intros [Hc Hws].
  rewrite append_cons. cbn [json.skipWhiteSpace]. rewrite Hc. by apply IH.
Qed.

Lemma validateEndBuf_spaces ws :
  all_chars json.is_space ws = true -> json.validateEndBuf ws = Ok tt.
Proof.
  intros H. unfold json.validateEndBuf.
  by rewrite <- (append_nil_r ws), (skipWhiteSpace_spaces ws "" H).
Qed.

Lemma Unmarshal_string_spaces ws1 ws2 s v :
  all_chars json.is_space ws1 = true -> all_chars json.is_space ws2 = true ->
  all_chars is_plain s = true ->
  json.Unmarshal_string (ws1 +:+ json.quoted s +:+ ws2) v = Ok s.
Proof.
  intros H1 H2 Hs. unfold json.Unmarshal_string.
  rewrite decodeString_skip, (skipWhiteSpace_spaces ws1 _ H1), <- decodeString_skip.
  rewrite (decodeString_quoted "" "" s ws2 Hs). cbn [mbind result_bind].
  by rewrite (validateEndBuf_spaces ws2 H2).
Qed.

Lemma Unmarshal_string_trailing ws1 ws2 s c rest v :
  all_chars json.is_space ws1 = true -> all_chars json.is_space ws2 = true ->
  all_chars is_plain s = true -> json.is_space c = false -> c <> json.nul ->
  json.Unmarshal_string (ws1 +:+ json.quoted s +:+ ws2 +:+ String c rest) v
  = Err (json.ErrInvalidCharacter c "after top-level value").
Proof.
  intros H1 H2 Hs Hc Hnul. unfold json.Unmarshal_string.
  rewrite decodeString_skip, (skipWhiteSpace_spaces ws1 _ H1), <- decodeString_skip.
  rewrite (decodeString_quoted "" "" s _ Hs). cbn [mbind result_bind].
  unfold json.validateEndBuf.
  rewrite (skipWhiteSpace_spaces ws2 _ H2), (skipWhiteSpace_no_space c rest Hc).
  destruct (json.eqc c json.nul) eqn:E; [|done]. by apply eqc_eq in E.
Qed.

(** X12: both scalar decoders take one JSON string and nothing around it
    but white space: white space before and after the string changes
    nothing in the result, and any other character after it is a syntax
    error, whatever the string holds. *)
Theorem scalars_white_space ws1 ws2 s :
  all_chars json.is_space ws1 = true -> all_chars json.is_space ws2 = true ->
  all_chars is_plain s = true ->
  uinteger_UnmarshalJSON (ws1 +:+ json.quoted s +:+ ws2)
  = uinteger_UnmarshalJSON (json.quoted s)
  /\ (forall RemovePrefix,
        byteArray_UnmarshalJSON_with RemovePrefix (ws1 +:+ json.quoted s +:+ ws2)
        = byteArray_UnmarshalJSON_with RemovePrefix (json.quoted s))
  /\ (forall c rest, json.is_space c = false -> c <> json.nul ->
        uinteger_UnmarshalJSON (ws1 +:+ json.quoted s +:+ ws2 +:+ String c rest)
        = Err (json.ErrInvalidCharacter c "after top-level value")
        /\ forall RemovePrefix,
             byteArray_UnmarshalJSON_with RemovePrefix
               (ws1 +:+ json.quoted s +:+ ws2 +:+ String c rest)
             = Err (json.ErrInvalidCharacter c "after top-level value")).
Proof.
  intros H1 H2 Hs.
  unfold uinteger_UnmarshalJSON, byteArray_UnmarshalJSON_with.
  rewrite (Unmarshal_string_spaces ws1 ws2 s "" H1 H2 Hs),
    (Unmarshal_string_quoted s "" Hs).
  split; [done|]. split; [done|]. intros c rest Hc Hnul.
  by rewrite (Unmarshal_string_trailing ws1 ws2 s c rest "" H1 H2 Hs Hc Hnul).
Qed.

Lemma scalars_white_space_witness :
  uinteger_UnmarshalJSON (" " +:+ json.quoted "12" +:+ String "010" "")
  = uinteger_UnmarshalJSON (json.quoted "12")
  /\ uinteger_UnmarshalJSON (" " +:+ json.quoted "12" +:+ String "010" "" +:+ String "x" "")
     = Err (json.ErrInvalidCharacter "x" "after top-level value").
Proof.
  destruct (scalars_white_space " " (String "010" "") "12") as (H1 & _ & H3); try reflexivity.
  split; [exact H1|]. apply (H3 "x"%char ""); [reflexivity | discriminate].
Defined.

(** X13: a document that is not a JSON string is no input for the scalar
    decoders: when the first character after the white space is neither
    a quote nor the n of null, both decoders fail with the same error,
    which is the type error of a string target exactly when the document
    starts an array, an object or a number; the literal null is read as
    the empty text, which the integer decoder rejects as not numeric and
    the byte decoder takes for the empty sequence. *)
Theorem scalars_need_a_string :
  (forall data c rest RemovePrefix,
     json.skipWhiteSpace data = String c rest -> c <> json.dquote -> c <> "n"%char ->
     exists e, uinteger_UnmarshalJSON data = Err e
               /\ byteArray_UnmarshalJSON_with RemovePrefix data = Err e
               /\ (is_NotAString e = true
                   <-> c = "["%char \/ c = "{"%char \/ c = "-"%char \/ is_digit c = true))
  /\ (forall ws1 ws2 RemovePrefix,
        all_chars json.is_space ws1 = true -> all_chars json.is_space ws2 = true ->
        RemovePrefix "" = "" ->
        uinteger_UnmarshalJSON (ws1 +:+ "null" +:+ ws2)
        = Err (NumError "ParseUint" "" ErrSyntax)
        /\ byteArray_UnmarshalJSON_with RemovePrefix (ws1 +:+ "null" +:+ ws2) = Ok []).
Proof.
  split.
  - intros data c rest RemovePrefix Hdata Hq Hn.
    unfold uinteger_UnmarshalJSON, byteArray_UnmarshalJSON_with, json.Unmarshal_string,
      json.decodeString. rewrite Hdata. unfold is_digit.
    destruct (json.eqc c "[") eqn:E1.
    { apply eqc_eq in E1 as ->. eexists. split; [done|]. split; [done|]. split; auto. }
    destruct (json.eqc c "{") eqn:E2.
    { apply eqc_eq in E2 as ->. eexists. split; [done|]. split; [done|]. split; auto. }
    destruct (json.eqc c "-") eqn:E3.
    { apply eqc_eq in E3 as ->. eexists. split; [done|]. split; [done|]. split; auto. }
    cbn [orb]. destruct (in_range "0" "9" c) eqn:E4.
    { eexists. split; [done|]. split; [done|]. split; auto. }
    destruct (json.eqc c json.dquote) eqn:E5; [by apply eqc_eq in E5|].
    destruct (json.eqc c "n") eqn:E6; [by apply eqc_eq in E6|].
    eexists. split; [done|]. split; [done|]. split; [done|].
    intros [-> | [-> | [-> | H]]]; done.
  - intros ws1 ws2 RemovePrefix H1 H2 Hrp.
    assert (json.Unmarshal_string (ws1 +:+ "null" +:+ ws2) "" = Ok "") as E.
    { unfold json.Unmarshal_string.
      rewrite decodeString_skip, (skipWhiteSpace_spaces ws1 _ H1), <- decodeString_skip.
      rewrite (append_cons "n" "ull"), (append_cons "u" "ll"), (append_cons "l" "l"),
        (append_cons "l" ""), append_nil_l.
      unfold json.decodeString. cbn [json.skipWhiteSpace].
      change (json.is_space "n") with false. cbv beta iota. eval_eqc.
      change (json.validateLiteral "null" (String "n" (String "u" (String "l" (String "l" ws2)))))
        with (@Ok string ws2).
      change (in_range "0" "9" "n") with false. cbv iota.
      cbn [mbind result_bind]. by rewrite (validateEndBuf_spaces ws2 H2). }
    unfold uinteger_UnmarshalJSON, byteArray_UnmarshalJSON_with. rewrite E.
    cbn [mbind result_bind]. by rewrite Hrp.
Qed.

Lemma scalars_need_a_string_witness :
  (exists e, uinteger_UnmarshalJSON "12" = Err e
             /\ byteArray_UnmarshalJSON_with hexutil.RemovePrefix "12" = Err e
             /\ (is_NotAString e = true
                 <-> "1"%char = "["%char \/ "1"%char = "{"%char \/ "1"%char = "-"%char
                     \/ is_digit "1" = true))
  /\ uinteger_UnmarshalJSON (" " +:+ "null" +:+ "") = Err (NumError "ParseUint" "" ErrSyntax)
  /\ byteArray_UnmarshalJSON_with hexutil.RemovePrefix (" " +:+ "null" +:+ "") = Ok [].
Proof.
  split.
  - apply (proj1 scalars_need_a_string "12" "1"%char "2" hexutil.RemovePrefix);
      [reflexivity | discriminate | discriminate].
  - apply (proj2 scalars_need_a_string " " "" hexutil.RemovePrefix); reflexivity.
Defined.

(** ** The hex text the byte decoder accepts *)

Lemma reverseHexTable_hex c :
  (15 <? hex.reverseHexTable c) = negb (is_hex_digit c).
Proof. ascii_cases c; vm_compute; reflexivity. Qed.

Lemma Decode_hex_pair t :
  all_chars is_hex_digit t = true ->
  (exists b, hex.Decode t = (b, None) /\ String.length t = (2 * length b)%nat
   \/ hex.Decode t = (b, Some ErrLength) /\ String.length t = S (2 * length b))
  /\ forall p, is_hex_digit p = true ->
       exists b, hex.Decode (String p t) = (b, None)
                 /\ String.length (String p t) = (2 * length b)%nat
       \/ hex.Decode (String p t) = (b, Some ErrLength)
          /\ String.length (String p t) = S (2 * length b).
Proof.
  induction t as [|q t IH].
  - intros _. split; [exists []; by left|].
    intros p Hp. exists []. right. cbn [hex.Decode].
    by rewrite reverseHexTable_hex, Hp.
  - cbn [all_chars]. rewrite andb_true_iff. intros [Hq Ht].
    destruct (IH Ht) as [(b & IH1) IH2]. split; [by apply IH2|].
    intros p Hp. cbn [hex.Decode]. rewrite !reverseHexTable_hex, Hp, Hq. cbn [negb].
    destruct IH1 as [[E L] | [E L]]; rewrite E; eexists (_ :: b); [left | right];
      (split; [reflexivity|]); cbn [String.length length]; lia.
Qed.

Lemma Decode_invalid_pair c t2 t1 :
  is_hex_digit c = false -> all_chars is_hex_digit t1 = true ->
  (hex.Decode (t1 +:+ String c t2)).2 = Some (InvalidByteError c)
  /\ forall p, is_hex_digit p = true ->
       (hex.Decode (String p (t1 +:+ String c t2))).2 = Some (InvalidByteError c).
Proof.
  intros Hc. induction t1 as [|q t1 IH].
  - intros _. rewrite append_nil_l. split.
    + cbn [hex.Decode]. destruct t2; by rewrite reverseHexTable_hex, Hc.
    + intros p Hp. cbn [hex.Decode]. by rewrite !reverseHexTable_hex, Hp, Hc.
  - cbn [all_chars]. rewrite andb_true_iff. intros [Hq Ht].
    destruct (IH Ht) as [IH1 IH2]. rewrite append_cons. split; [by apply IH2|].
    intros p Hp. cbn [hex.Decode]. rewrite !reverseHexTable_hex, Hp, Hq. cbn [negb].
    by destruct (hex.Decode (t1 +:+ String c t2)).
Qed.

(** X14: what the byte decoder accepts, the text [t] being what the
    prefix helper leaves of the quoted text: when every character of [t]
    is a hex digit, of either case, the decoder succeeds exactly when
    the length of [t] is even, with one byte for two digits, and fails
    with [hex.ErrLength] when it is odd; when [t] has a character that is
    no hex digit, the decoder fails with [hex.InvalidByteError] of the
    first such character, whatever the length. *)
Theorem byteArray_UnmarshalJSON_hex_text RemovePrefix s :
  all_chars is_plain s = true ->
  (all_chars is_hex_digit (RemovePrefix s) = true ->
   exists b, String.length (RemovePrefix s) = (2 * length b)%nat
             /\ byteArray_UnmarshalJSON_with RemovePrefix (json.quoted s) = Ok b
             \/ String.length (RemovePrefix s) = S (2 * length b)
                /\ byteArray_UnmarshalJSON_with RemovePrefix (json.quoted s) = Err ErrLength)
  /\ (forall t1 c t2,
        RemovePrefix s = t1 +:+ String c t2 ->
        all_chars is_hex_digit t1 = true -> is_hex_digit c = false ->
        byteArray_UnmarshalJSON_with RemovePrefix (json.quoted s)
        = Err (InvalidByteError c)).
Proof.
  intros Hs. unfold byteArray_UnmarshalJSON_with.
  rewrite (Unmarshal_string_quoted s "" Hs). cbn [mbind result_bind].
  unfold hex.DecodeString. split.
  - intros Hhex. destruct (Decode_hex_pair _ Hhex) as [(b & [[E L] | [E L]]) _];
      exists b; rewrite E; [left | right]; done.
  - intros t1 c t2 E H1 Hc. rewrite E.
    destruct (Decode_invalid_pair c t2 t1 Hc H1) as [H _].
    destruct (hex.Decode (t1 +:+ String c t2)) as [bs err]. cbn in H. by rewrite H.
Qed.

Lemma byteArray_UnmarshalJSON_hex_text_witness :
  (exists b, String.length (hexutil.RemovePrefix "0xABc") = (2 * length b)%nat
            /\ byteArray_UnmarshalJSON_with hexutil.RemovePrefix (json.quoted "0xABc") = Ok b
            \/ String.length (hexutil.RemovePrefix "0xABc") = S (2 * length b)
               /\ byteArray_UnmarshalJSON_with hexutil.RemovePrefix (json.quoted "0xABc")
                  = Err ErrLength)
  /\ byteArray_UnmarshalJSON_with hexutil.RemovePrefix (json.quoted "0xAg1")
     = Err (InvalidByteError "g").
Proof.
  split.
  - apply (proj1 (byteArray_UnmarshalJSON_hex_text hexutil.RemovePrefix "0xABc" eq_refl)).
    reflexivity.
  - apply (proj2 (byteArray_UnmarshalJSON_hex_text hexutil.RemovePrefix "0xAg1" eq_refl)
             "A" "g"%char "1"); reflexivity.
Defined.

Lemma Decode_pairs (P : string -> Prop) :
  P "" -> (forall p, P (String p "")) ->
  (forall p q t, P t -> P (String p (String q t))) ->
  forall t, P t.
Proof.
  intros H0 H1 H2 t. assert (P t /\ forall p, P (String p t)) as [H _]; [|exact H].
  induction t as [|q t [IH1 IH2]]; [by split|]. split; [apply IH2|].
  intros p. by apply H2.
Qed.

Lemma reverseHexTable_to_lower c :
  hex.reverseHexTable (json.to_lower c) = hex.reverseHexTable c.
Proof. ascii_cases c; vm_compute; reflexivity. Qed.

Lemma Decode_ToLower t :
  (hex.Decode (json.ToLower t)).1 = (hex.Decode t).1
  /\ ((hex.Decode (json.ToLower t)).2 = None <-> (hex.Decode t).2 = None).
Proof.
  induction t as [| p | p q t [IH1 IH2]] using Decode_pairs.
  - done.
  - cbn [json.ToLower hex.Decode]. rewrite reverseHexTable_to_lower.
    by destruct (15 <? _).
  - cbn [json.ToLower hex.Decode]. rewrite !reverseHexTable_to_lower.
    destruct (15 <? hex.reverseHexTable p); [done|].
    destruct (15 <? hex.reverseHexTable q); [done|].
    destruct (hex.Decode (json.ToLower t)) as [bs1 e1], (hex.Decode t) as [bs2 e2].
    cbn in *. by subst.
Qed.

(** X15: the byte decoder does not tell the case of the hex digits: when
    the prefix helper leaves of one text the lower-case form of what it
    leaves of another, the decoder accepts both or neither, and gives the
    same bytes. *)
Theorem byteArray_UnmarshalJSON_case RemovePrefix s s' b :
  all_chars is_plain s = true -> all_chars is_plain s' = true ->
  RemovePrefix s' = json.ToLower (RemovePrefix s) ->
  byteArray_UnmarshalJSON_with RemovePrefix (json.quoted s) = Ok b
  <-> byteArray_UnmarshalJSON_with RemovePrefix (json.quoted s') = Ok b.
Proof.
  intros Hs Hs' E. unfold byteArray_UnmarshalJSON_with.
  rewrite (Unmarshal_string_quoted s "" Hs), (Unmarshal_string_quoted s' "" Hs').
  cbn [mbind result_bind]. unfold hex.DecodeString. rewrite E.
  destruct (Decode_ToLower (RemovePrefix s)) as [H1 H2].
  destruct (hex.Decode (json.ToLower (RemovePrefix s))) as [bs1 e1],
    (hex.Decode (RemovePrefix s)) as [bs2 e2].
  cbn in H1, H2. subst bs2. destruct e1, e2; try done.
  - by destruct H2 as [_ H2]; specialize (H2 eq_refl).
  - by destruct H2 as [H2 _]; specialize (H2 eq_refl).
Qed.

Lemma byteArray_UnmarshalJSON_case_witness :
  byteArray_UnmarshalJSON_with hexutil.RemovePrefix (json.quoted "0xDEad") = Ok [xde; xad]
  <-> byteArray_UnmarshalJSON_with hexutil.RemovePrefix (json.quoted "0xdead") = Ok [xde; xad].
Proof.
  apply (byteArray_UnmarshalJSON_case hexutil.RemovePrefix "0xDEad" "0xdead"); reflexivity.
Defined.

(** ** The encoders lose nothing *)

Lemma Itoa_below v :
  0 <= v < 2 ^ 63 -> strconv.Itoa (int_of_uint64 v) = strconv.FormatUint v.
Proof.
  intros Hv. unfold int_of_uint64, strconv.Itoa, strconv.FormatInt, strconv.FormatUint.
  destruct (Z.ltb_spec v (2 ^ 63)); [|lia].
  destruct (Z.ltb_spec v 0); [lia|].
  unfold strconv.wrap64. by rewrite Z.mod_small by lia.
Qed.

Lemma Itoa_above v :
  2 ^ 63 <= v < 2 ^ 64 ->
  strconv.Itoa (int_of_uint64 v) = String "-" (strconv.FormatUint (2 ^ 64 - v)).
Proof.
  intros Hv. unfold int_of_uint64, strconv.Itoa, strconv.FormatInt, strconv.FormatUint.
  destruct (Z.ltb_spec v (2 ^ 63)); [lia|].
  destruct (Z.ltb_spec (v - 2 ^ 64) 0); [|lia].
  unfold strconv.wrap64. f_equal. f_equal.
  rewrite <- (Z.mod_small (2 ^ 64 - v) (2 ^ 64)) by lia.
  rewrite <- (Z_mod_plus_full (- (v - 2 ^ 64)) 0 (2 ^ 64)).
  f_equal. lia.
Qed.

Lemma Itoa_plain v :
  0 <= v < 2 ^ 64 -> all_chars is_plain (strconv.Itoa (int_of_uint64 v)) = true.
Proof.
  intros Hv. destruct (Z.lt_ge_cases v (2 ^ 63)).
  - rewrite Itoa_below by lia. apply FormatUint_plain. lia.
  - rewrite Itoa_above by lia. cbn [all_chars]. change (is_plain "-") with true.
    cbn [andb]. apply FormatUint_plain. lia.
Qed.

Lemma FormatUint_digits u : 0 <= u -> all_chars is_digit (strconv.FormatUint u) = true.
Proof. intros Hu. apply formatBits_loop_digits; [lia | done]. Qed.

Lemma FormatUint_inj u w :
  0 <= u < 2 ^ 64 -> 0 <= w < 2 ^ 64 ->
  strconv.FormatUint u = strconv.FormatUint w -> u = w.
Proof.
  intros Hu Hw E. pose proof (ParseUint_FormatUint u Hu) as Pu.
  rewrite E, (ParseUint_FormatUint w Hw) in Pu. congruence.
Qed.

Lemma Itoa_inj v w :
  0 <= v < 2 ^ 64 -> 0 <= w < 2 ^ 64 ->
  strconv.Itoa (int_of_uint64 v) = strconv.Itoa (int_of_uint64 w) -> v = w.
Proof.
  intros Hv Hw.
  destruct (Z.lt_ge_cases v (2 ^ 63)), (Z.lt_ge_cases w (2 ^ 63)).
  - rewrite !Itoa_below by lia. apply FormatUint_inj; lia.
  - rewrite (Itoa_below v), (Itoa_above w) by lia. intros E.
    pose proof (FormatUint_digits v ltac:(lia)) as Hd. by rewrite E in Hd.
  - rewrite (Itoa_above v), (Itoa_below w) by lia. intros E.
    pose proof (FormatUint_digits w ltac:(lia)) as Hd. by rewrite <- E in Hd.
  - rewrite !Itoa_above by lia. intros [= E].
    apply FormatUint_inj in E; lia.
Qed.

Lemma quoted_inj s t :
  all_chars is_plain s = true -> all_chars is_plain t = true ->
  json.quoted s = json.quoted t -> s = t.
Proof.
  intros Hs Ht E. pose proof (Unmarshal_string_quoted s "" Hs) as Ps.
  rewrite E, (Unmarshal_string_quoted t "" Ht) in Ps. congruence.
Qed.

(** X16: the encoders never write one text for two values: the integer
    encoder on the unsigned 64-bit range, the signed texts it writes
    from 2^63 on among them, and the byte encoder on all byte
    sequences. *)
Theorem MarshalJSON_injective :
  (forall v w, 0 <= v < 2 ^ 64 -> 0 <= w < 2 ^ 64 ->
     uinteger_MarshalJSON v = uinteger_MarshalJSON w -> v = w)
  /\ (forall b c : byteArray, byteArray_MarshalJSON b = byteArray_MarshalJSON c -> b = c).
Proof.
  split.
  - intros v w Hv Hw. unfold uinteger_MarshalJSON.
    rewrite !Marshal_string_plain by (by apply Itoa_plain).
    intros E. apply Itoa_inj; [done | done |].
    apply quoted_inj; [by apply Itoa_plain | by apply Itoa_plain | congruence].
  - intros b c. unfold byteArray_MarshalJSON.
    rewrite !Marshal_string_plain by apply AddPrefix_plain, EncodeToString_plain.
    intros E.
    assert (hexutil.AddPrefix (hex.EncodeToString b)
            = hexutil.AddPrefix (hex.EncodeToString c)) as E'.
    { apply quoted_inj; [apply AddPrefix_plain, EncodeToString_plain ..| congruence]. }
    clear E. rename E' into E.
    pose proof (Decode_EncodeToString b) as Pb.
    rewrite <- (RemovePrefix_AddPrefix (hex.EncodeToString b)), E,
      RemovePrefix_AddPrefix, Decode_EncodeToString in Pb.
    congruence.
Qed.

Lemma MarshalJSON_injective_witness :
  uinteger_MarshalJSON 18446744073709551615 = uinteger_MarshalJSON (2 ^ 64 - 1)
  /\ 18446744073709551615 = 2 ^ 64 - 1.
Proof.
  split; [reflexivity|].
  apply (proj1 MarshalJSON_injective); [lia | lia | reflexivity].
Defined.

(** ** Requests, written and read back *)

Lemma VoluntaryExitRequest_encode_doc r :
  0 <= Epoch (Message r) < 2 ^ 64 ->
  all_chars is_plain (ValidatorIndex (Message r)) = true ->
  VoluntaryExitRequest_encode r
  = Ok (exit_request_doc (strconv.Itoa (int_of_uint64 (Epoch (Message r))))
          (ValidatorIndex (Message r))
          (Some (hexutil.AddPrefix (hex.EncodeToString (Signature r))))).
Proof.
  intros He Hv.
  unfold VoluntaryExitRequest_encode, VoluntaryExitMessage_encode, uinteger_MarshalJSON,
    byteArray_MarshalJSON.
  rewrite (Marshal_string_plain _ (Itoa_plain _ He)), (Marshal_string_plain _ Hv),
    (Marshal_string_plain _ (AddPrefix_plain _ (EncodeToString_plain _))).
  cbn [mbind result_bind].
  unfold exit_request_doc, exit_message_doc, exit_signature_doc.
  by rewrite !append_assoc.
Qed.

(** X17: a voluntary exit request written by the encoder and read by the
    decoder comes back as it was when its epoch is below 2^63; from 2^63
    on, the far-future epoch 2^64-1 among them, the encoder succeeds and
    the decoder rejects what it wrote, with the syntax error of
    [ParseUint] on the signed text.  The validator index is text the
    encoder does not escape, the signature is not the nil slice. *)
Theorem VoluntaryExitRequest_roundtrip r :
  0 <= Epoch (Message r) < 2 ^ 64 ->
  all_chars is_plain (ValidatorIndex (Message r)) = true ->
  Signature r <> [] ->
  exists data, VoluntaryExitRequest_encode r = Ok data
    /\ (Epoch (Message r) < 2 ^ 63 -> VoluntaryExitRequest_decode data = Ok r)
    /\ (2 ^ 63 <= Epoch (Message r) ->
        VoluntaryExitRequest_decode data
        = Err (NumError "ParseUint" (strconv.Itoa (int_of_uint64 (Epoch (Message r))))
                 ErrSyntax)).
Proof.
  intros He Hv _. eexists. split; [by apply VoluntaryExitRequest_encode_doc|].
  rewrite VoluntaryExitRequest_decode_doc;
    [| by apply Itoa_plain | done
     | intros t [= <-]; apply AddPrefix_plain, EncodeToString_plain].
  unfold decode_epoch, decode_signature.
  rewrite RemovePrefix_AddPrefix, Decode_EncodeToString. split.
  - intros Hlt. rewrite ParseUint_Itoa by lia. cbn [mbind result_bind].
    by destruct r as [[e v] s].
  - intros Hge. rewrite Itoa_above by lia. done.
Qed.

Lemma VoluntaryExitRequest_roundtrip_witness :
  exists data,
    VoluntaryExitRequest_encode
      {| Message := {| Epoch := 18446744073709551615; ValidatorIndex := "5" |};
         Signature := [x01] |} = Ok data
    /\ VoluntaryExitRequest_decode data
       = Err (NumError "ParseUint" "-1" ErrSyntax).
Proof.
  destruct (VoluntaryExitRequest_roundtrip
              {| Message := {| Epoch := 18446744073709551615; ValidatorIndex := "5" |};
                 Signature := [x01] |}) as (data & Henc & _ & Hdec);
    [cbn; lia | reflexivity | discriminate |].
  exists data. split; [exact Henc|]. apply Hdec. cbn. lia.
Defined.

(** ** The pool in the steady state *)






(** ** What a decoded record shows *)

Lemma storeSlice_doc_strings doc dst h :
  backed h dst -> mem.len dst = 0%nat ->
  let '(s, h') := json.storeSlice doc dst h in
  mem.elems h' s = doc_strings doc.
Proof.
  intros Hb Hlen. destruct doc as [| |es]; cbn [json.storeSlice doc_strings].
  - done.
  - destruct dst as [|a n c]; cbn [mem.data mem.len mem.cap]; [done|].
    unfold mem.elems. cbn. by rewrite take_0.
  - assert (mem.elems h dst = []) as ->.
    { unfold mem.elems. by rewrite Hlen, take_0. }
    set (vs := imap (json.resolve []) es).
    destruct dst as [|a n c]; cbn [mem.data mem.cap].
    + pose proof (elems_new_array h vs) as H.
      by destruct (mem.newArray (length vs) h) as [a' h'].
    + case_decide.
      * by eapply elems_in_place.
      * pose proof (elems_new_array h vs) as Hnew.
        by destruct (mem.newArray (length vs) h) as [a' h'].
Qed.

Lemma Get_emptied st :
  pool_emptied st ->
  let '(b, pool, _) :=
    sync.Get validatorSlicePool_New (validatorSlicePool st) (heap st) in
  mem.len b = 0%nat /\ Forall (fun b => mem.len b = 0%nat) (sync.items pool).
Proof.
  intros Hst. unfold pool_emptied in Hst.
  pose proof (Get_items validatorSlicePool_New (validatorSlicePool st) (heap st)) as HG.
  destruct (sync.Get _ _ _) as [[b pool] h].
  destruct HG as [(Hnil & -> & HNew) | (Hcons & _)].
  - unfold validatorSlicePool_New, mem.make0, mem.newArray in HNew.
    injection HNew as -> _. done.
  - rewrite Hcons in Hst. by apply Forall_cons in Hst.
Qed.

(** X19: a decoded record shows nothing of what the pooled array held
    before.  When every slice of the pool has length zero, the outcome
    of a committee decode, and on success the index, the slot and the
    validators read from the record, are the same from any two states
    and any two receivers: they depend on the body alone. *)
Theorem Committee_UnmarshalJSON_reads_only_the_body body c0 c0' st st' :
  state_ok st -> state_ok st' -> pool_emptied st -> pool_emptied st' ->
  let '(o, c, s1) := Committee_UnmarshalJSON body c0 st in
  let '(o', c', s1') := Committee_UnmarshalJSON body c0' st' in
  o = o'
  /\ (o = Returned None ->
      Index c = Index c' /\ Slot c = Slot c'
      /\ mem.elems (heap s1) (Validators c) = mem.elems (heap s1') (Validators c')).
Proof.
  intros Hok Hok' He He'.
  pose proof (Get_backed st (proj2 Hok)) as Hb.
  pose proof (Get_backed st' (proj2 Hok')) as Hb'.
  pose proof (Get_emptied st He) as Hl. pose proof (Get_emptied st' He') as Hl'.
  unfold Committee_UnmarshalJSON.
  destruct (sync.Get _ (validatorSlicePool st) _) as [[b pool] h].
  destruct (sync.Get _ (validatorSlicePool st') _) as [[b' pool'] h'].
  destruct Hl as [Hl _], Hl' as [Hl' _].
  destruct (json.Unmarshal_rawmap body ∅) as [committee|e]; [|done].
  destruct (deref (committee !! "index")) as [raw_index|]; [|done].
  destruct (json.Unmarshal_with _ raw_index); [|done].
  destruct (deref (committee !! "slot")) as [raw_slot|]; [|done].
  destruct (json.Unmarshal_with _ raw_slot); [|done].
  destruct (deref (committee !! "validators")) as [raw_validators|]; [|done].
  cbn [Validators heap Index Slot validatorSlicePool].
  unfold json.Unmarshal_strings.
  destruct (json.decodeSlice raw_validators) as [[doc rest]|]; [|done].
  cbn [mbind result_bind]. destruct (json.validateEndBuf rest); [|done].
  cbn [mbind result_bind].
  pose proof (storeSlice_doc_strings doc b h Hb Hl) as HS.
  pose proof (storeSlice_doc_strings doc b' h' Hb' Hl') as HS'.
  destruct (json.storeSlice doc b h) as [validators h1].
  destruct (json.storeSlice doc b' h') as [validators' h1'].
  cbn [Validators heap Index Slot]. by rewrite HS, HS'.
Qed.

Lemma Committee_UnmarshalJSON_reads_only_the_body_witness :
  let '(o, c, s1) := Committee_UnmarshalJSON sample_committee Committee_zero state0 in
  let '(o', c', s1') :=
    Committee_UnmarshalJSON sample_committee
      {| Index := 9; Slot := 9; Validators := mem.nil |} state0 in
  o = o'
  /\ (o = Returned None ->
      Index c = Index c' /\ Slot c = Slot c'
      /\ mem.elems (heap s1) (Validators c) = mem.elems (heap s1') (Validators c')).
Proof.
  apply (Committee_UnmarshalJSON_reads_only_the_body sample_committee Committee_zero
           {| Index := 9; Slot := 9; Validators := mem.nil |} state0 state0);
    first [apply state0_ok | constructor].
Defined.

(** X20: the slices of the pool always have length zero: in the initial
    state, after a committee decode whatever its outcome, and after
    [Release] of any batch, which puts every slice cut to length zero. *)
Theorem pool_holds_empty_slices :
  pool_emptied state0
  /\ (forall body c0 st,
        pool_emptied st -> pool_emptied (Committee_UnmarshalJSON body c0 st).2)
  /\ (forall c st,
        pool_emptied st -> pool_emptied (CommitteesResponse_Release c st).2).
Proof.
  split; [constructor|]. split.
  - intros body c0 st Hst. pose proof (Get_emptied st Hst) as HG.
    pose proof (Committee_UnmarshalJSON_pool body c0 st) as HP.
    destruct (sync.Get _ _ _) as [[b pool] h].
    destruct (Committee_UnmarshalJSON body c0 st) as [[o c] st'].
    destruct HP as [_ HP], HG as [_ HG]. unfold pool_emptied. cbn [snd]. by rewrite HP.
  - intros c st Hst. unfold pool_emptied, CommitteesResponse_Release. cbn [snd].
    rewrite range_Release_items. apply Forall_app. split; [|exact Hst].
    rewrite Forall_fmap. apply Forall_forall. intros committee _.
    unfold released. cbn. by destruct (Validators committee).
Qed.

Lemma pool_holds_empty_slices_witness :
  pool_emptied (Committee_UnmarshalJSON sample_committee Committee_zero state0).2
  /\ pool_emptied
       (CommitteesResponse_Release {| Data := [Committee_zero] |} state0).2.
Proof.
  destruct pool_holds_empty_slices as (H0 & Hdec & Hrel).
  split; [apply Hdec | apply Hrel]; exact H0.
Defined.

(** ** Withdrawal credential changes, written and read back *)

Ltac enough_fuel :=
  match goal with
  | |- context [json.decodeStruct_fields ?n] =>
      let fuel := fresh "fuel" in
      let Hn := fresh "Hn" in
      let Hfuel := fresh "Hfuel" in
      remember n as fuel eqn:Hn;
      assert (3 <= fuel)%nat as Hfuel
        by (subst fuel; cbn [String.length]; rewrite ?String_length_app;
            cbn [String.length]; lia);
      clear Hn; do 3 (destruct fuel as [|fuel]; [lia|]); clear Hfuel
  end.

Lemma decode_byteArray_field sn fn t b rest :
  all_chars is_plain t = true ->
  hex.DecodeString (hexutil.RemovePrefix t) = (b, None) ->
  json.decodeUnmarshaler sn fn byteArray_UnmarshalJSON (json.quoted t +:+ rest)
  = Ok (b, rest).
Proof.
  intros Ht Hb. unfold json.decodeUnmarshaler.
  rewrite (skipValue_quoted t _ Ht). cbn [mbind result_bind].
  unfold byteArray_UnmarshalJSON, byteArray_UnmarshalJSON_with.
  rewrite (Unmarshal_string_quoted t "" Ht). cbn [mbind result_bind]. by rewrite Hb.
Qed.

Lemma decodeStruct_bls_message validator_index pubkey address p a rest m :
  all_chars is_plain validator_index = true ->
  all_chars is_plain pubkey = true -> all_chars is_plain address = true ->
  hex.DecodeString (hexutil.RemovePrefix pubkey) = (p, None) ->
  hex.DecodeString (hexutil.RemovePrefix address) = (a, None) ->
  json.decodeStruct BLSToExecutionChangeMessage_fields
    (bls_message_doc validator_index pubkey address +:+ rest) m
  = Ok ({| BLSToExecutionChangeMessage.ValidatorIndex := validator_index;
           BLSToExecutionChangeMessage.FromBLSPubkey := p;
           BLSToExecutionChangeMessage.ToExecutionAddress := a |}, rest).
Proof.
  intros Hv Hp Ha Ep Ea. unfold bls_message_doc, json.decodeStruct.
  rewrite !append_assoc. at_char "{"%char.
  rewrite (quoted_app "validator_index"). at_char json.dquote.
  enough_fuel.
  cbn [json.decodeStruct_fields]. at_char json.dquote.
  rewrite (stringBytes_plain "validator_index" _ eq_refl). cbn [mbind result_bind].
  at_char ":"%char. nonempty_cursor. eval_fields.
  rewrite (decodeString_quoted _ _ validator_index _ Hv). cbn [mbind result_bind].
  at_char ","%char. cbn [json.decodeStruct_fields].
  rewrite (quoted_app "from_bls_pubkey"). at_char json.dquote.
  rewrite (stringBytes_plain "from_bls_pubkey" _ eq_refl). cbn [mbind result_bind].
  at_char ":"%char. nonempty_cursor. eval_fields.
  rewrite (decode_byteArray_field _ _ pubkey p _ Hp Ep). cbn [mbind result_bind].
  at_char ","%char. cbn [json.decodeStruct_fields].
  rewrite (quoted_app "to_execution_address"). at_char json.dquote.
  rewrite (stringBytes_plain "to_execution_address" _ eq_refl). cbn [mbind result_bind].
  at_char ":"%char. nonempty_cursor. eval_fields.
  rewrite (decode_byteArray_field _ _ address a _ Ha Ea). cbn [mbind result_bind].
  at_char "}"%char. reflexivity.
Qed.

Lemma bls_message_doc_head validator_index pubkey address rest :
  exists t, bls_message_doc validator_index pubkey address +:+ rest = String "{" t.
Proof. unfold bls_message_doc. rewrite (append_cons "{" ""). by eexists. Qed.

Lemma BLSToExecutionChangeRequest_decode_doc validator_index pubkey address signature p a s :
  all_chars is_plain validator_index = true ->
  all_chars is_plain pubkey = true -> all_chars is_plain address = true ->
  all_chars is_plain signature = true ->
  hex.DecodeString (hexutil.RemovePrefix pubkey) = (p, None) ->
  hex.DecodeString (hexutil.RemovePrefix address) = (a, None) ->
  hex.DecodeString (hexutil.RemovePrefix signature) = (s, None) ->
  BLSToExecutionChangeRequest_decode
    (bls_request_doc validator_index pubkey address signature)
  = Ok {| BLSToExecutionChangeRequest.Message :=
            {| BLSToExecutionChangeMessage.ValidatorIndex := validator_index;
               BLSToExecutionChangeMessage.FromBLSPubkey := p;
               BLSToExecutionChangeMessage.ToExecutionAddress := a |};
          BLSToExecutionChangeRequest.Signature := s |}.
Proof.
  intros Hv Hp Ha Hs Ep Ea Es.
  unfold BLSToExecutionChangeRequest_decode, json.Unmarshal_struct, json.decodeStruct,
    bls_request_doc.
  at_char "{"%char. rewrite (quoted_app "message"). at_char json.dquote.
  enough_fuel.
  cbn [json.decodeStruct_fields]. at_char json.dquote.
  rewrite (stringBytes_plain "message" _ eq_refl). cbn [mbind result_bind].
  at_char ":"%char.
  match goal with
  | |- context [bls_message_doc ?v ?p ?a +:+ ?rest] =>
      destruct (bls_message_doc_head v p a rest) as [t Ht]
  end.
  rewrite Ht. cbv iota. rewrite <- Ht. clear t Ht.
  eval_fields. rewrite (decodeStruct_bls_message _ _ _ p a _ _ Hv Hp Ha Ep Ea).
  cbn [mbind result_bind BLSToExecutionChangeRequest.Message
         BLSToExecutionChangeRequest.Signature BLSToExecutionChangeRequest_zero].
  at_char ","%char. cbn [json.decodeStruct_fields].
  rewrite (quoted_app "signature"). at_char json.dquote.
  rewrite (stringBytes_plain "signature" _ eq_refl). cbn [mbind result_bind].
  at_char ":"%char. nonempty_cursor. eval_fields.
  rewrite (decode_byteArray_field _ _ signature s _ Hs Es). cbn [mbind result_bind].
  at_char "}"%char. done.
Qed.

Lemma hex_text_decodes b :
  all_chars is_plain (hexutil.AddPrefix (hex.EncodeToString b)) = true
  /\ hex.DecodeString (hexutil.RemovePrefix (hexutil.AddPrefix (hex.EncodeToString b)))
     = (b, None).
Proof.
  split; [apply AddPrefix_plain, EncodeToString_plain|].
  by rewrite RemovePrefix_AddPrefix, Decode_EncodeToString.
Qed.

(** X21: a withdrawal credential change request written by the encoder
    and read by the decoder comes back as it was, whatever its bytes: it
    has no integer field, so the loss of the voluntary exit request above
    2^63 does not touch it.  The validator index is text the encoder does
    not escape, no byte field is the nil slice. *)
Theorem BLSToExecutionChangeRequest_roundtrip (r : BLSToExecutionChangeRequest.t) :
  let m := BLSToExecutionChangeRequest.Message r in
  all_chars is_plain (BLSToExecutionChangeMessage.ValidatorIndex m) = true ->
  BLSToExecutionChangeMessage.FromBLSPubkey m <> [] ->
  BLSToExecutionChangeMessage.ToExecutionAddress m <> [] ->
  BLSToExecutionChangeRequest.Signature r <> [] ->
  exists data,
    BLSToExecutionChangeRequest_encode r = Ok data
    /\ BLSToExecutionChangeRequest_decode data = Ok r.
Proof.
  destruct r as [[v p a] s]. cbv zeta.
  cbn [BLSToExecutionChangeRequest.Message BLSToExecutionChangeRequest.Signature
         BLSToExecutionChangeMessage.ValidatorIndex
         BLSToExecutionChangeMessage.FromBLSPubkey
         BLSToExecutionChangeMessage.ToExecutionAddress].
  intros Hv _ _ _.
  destruct (hex_text_decodes p) as [Pp Dp], (hex_text_decodes a) as [Pa Da],
    (hex_text_decodes s) as [Ps Ds].
  exists (bls_request_doc v (hexutil.AddPrefix (hex.EncodeToString p))
            (hexutil.AddPrefix (hex.EncodeToString a))
            (hexutil.AddPrefix (hex.EncodeToString s))).
  split.
  - unfold BLSToExecutionChangeRequest_encode, BLSToExecutionChangeMessage_encode,
      byteArray_MarshalJSON.
    cbn [BLSToExecutionChangeRequest.Message BLSToExecutionChangeRequest.Signature
           BLSToExecutionChangeMessage.ValidatorIndex
           BLSToExecutionChangeMessage.FromBLSPubkey
           BLSToExecutionChangeMessage.ToExecutionAddress].
    rewrite (Marshal_string_plain _ Hv), (Marshal_string_plain _ Pp),
      (Marshal_string_plain _ Pa), (Marshal_string_plain _ Ps).
    cbn [mbind result_bind]. unfold bls_request_doc, bls_message_doc.
    by rewrite !append_assoc.
  - by apply BLSToExecutionChangeRequest_decode_doc.
Qed.

Lemma BLSToExecutionChangeRequest_roundtrip_witness :
  exists data,
    BLSToExecutionChangeRequest_encode
      {| BLSToExecutionChangeRequest.Message :=
           {| BLSToExecutionChangeMessage.ValidatorIndex := "5";
              BLSToExecutionChangeMessage.FromBLSPubkey := [xff];
              BLSToExecutionChangeMessage.ToExecutionAddress := [x01; x02] |};
         BLSToExecutionChangeRequest.Signature := [xde; xad] |} = Ok data
    /\ BLSToExecutionChangeRequest_decode data
       = Ok {| BLSToExecutionChangeRequest.Message :=
                 {| BLSToExecutionChangeMessage.ValidatorIndex := "5";
                    BLSToExecutionChangeMessage.FromBLSPubkey := [xff];
                    BLSToExecutionChangeMessage.ToExecutionAddress := [x01; x02] |};
               BLSToExecutionChangeRequest.Signature := [xde; xad] |}.
Proof.
  apply (BLSToExecutionChangeRequest_roundtrip
           {| BLSToExecutionChangeRequest.Message :=
                {| BLSToExecutionChangeMessage.ValidatorIndex := "5";
                   BLSToExecutionChangeMessage.FromBLSPubkey := [xff];
                   BLSToExecutionChangeMessage.ToExecutionAddress := [x01; x02] |};
              BLSToExecutionChangeRequest.Signature := [xde; xad] |});
    [reflexivity | discriminate ..].
Defined.
